(** * PPTX-AI: the slide-composition core, embedded and verified

    A shallow embedding of the pure decision logic of the deck generator
    (modules/enhanced_powerpoint_generator.py, modules/bert_refiner.py,
    modules/advanced_features.py and the fallback refiner class of
    streamlit_app.py / bert_features_extracted.py), followed by the
    properties of the design document that are stated about it.

    Conventions of the embedding.
    - A Python [dict] is a [gmap string _]; a missing key is [None].
    - A Python [str] is a [string]; the embedding is exact for ASCII text
      (one character per code point); non-ASCII text is carried as its
      UTF-8 bytes, which no whitespace or digit test below matches.
    - Python numbers ([int] and [float]) are exact rationals [Qc]; sizes in
      points and lengths are [Z]. Rounding of binary floating point is not
      modelled.
    - A Python exception is the [Raise] case of [result]; the state a
      function had reached when it raised is not returned.
    - A function that updates its argument in place returns the updated
      value. The slide dicts of a deck are distinct objects, as they are
      when the deck is parsed from JSON. *)

From Stdlib Require Import ZArith QArith Qcanon Lia Ascii String.
From stdpp Require Import base numbers list strings pretty gmap.

Local Open Scope Z_scope.

(* ===================================================================== *)
(** ** Python primitives *)
(* ===================================================================== *)

Module Py.

Inductive exn := KeyError | IndexError | TypeError | AttributeError.

Inductive result (A : Type) : Type :=
| Ok (a : A)
| Raise (e : exn).
Global Arguments Ok {A} a.
Global Arguments Raise {A} e.

Global Instance result_ret : MRet result := λ A a, Ok a.
Global Instance result_bind : MBind result := λ A B f m,
  match m with Ok a => f a | Raise e => Raise e end.

(** [d[k]] on a dict: [KeyError] when the key is absent. *)
Definition getitem {V} (d : gmap string V) (k : string) : result V :=
  match d !! k with Some v => Ok v | None => Raise KeyError end.

(** A decimal literal [n/d]. *)
Definition dec (n : Z) (d : positive) : Qc := Q2Qc (n # d).

(** [int(x)] on a float: truncation toward zero. *)
Definition int (x : Qc) : Z := Z.quot (Qnum x) (Z.pos (Qden x)).

(** [min(a, b)]: the first argument unless the second is smaller. *)
Definition min (a b : Qc) : Qc := if decide (b < a)%Qc then b else a.

(** *** Strings *)

(** [str.isspace] on one ASCII character: tab, newline, vertical tab,
    form feed, carriage return, the four separators 0x1c-0x1f, space. *)
Definition isspace (c : ascii) : bool :=
  let n := N_of_ascii c in
  ((9 <=? n) && (n <=? 13) || (28 <=? n) && (n <=? 32))%N.

(** [str.isdigit] on one ASCII character; also the class [\d]. *)
Definition isdigit (c : ascii) : bool :=
  let n := N_of_ascii c in ((48 <=? n) && (n <=? 57))%N.

(** [c in chars] for a one-character string [c]. *)
Fixpoint char_in (c : ascii) (chars : string) : bool :=
  match chars with
  | EmptyString => false
  | String c' rest => if decide (c = c') then true else char_in c rest
  end.

(** [str.split()] without arguments: the maximal runs of non-space
    characters, in order. [cur] is the run being read. *)
Fixpoint split_go (cur : string) (s : string) : list string :=
  match s with
  | EmptyString => if decide (cur = "") then [] else [cur]
  | String c s' =>
      if isspace c
      then (if decide (cur = "") then split_go "" s'
            else cur :: split_go "" s')
      else split_go (cur +:+ String c "") s'
  end.
Definition split (s : string) : list string := split_go "" s.

Fixpoint lstrip (s : string) : string :=
  match s with
  | String c s' => if isspace c then lstrip s' else s
  | EmptyString => EmptyString
  end.

(** [str.strip()]: leading and trailing whitespace removed. *)
Definition strip (s : string) : string :=
  String.rev (lstrip (String.rev (lstrip s))).

(** [str.lower()] on ASCII letters. *)
Definition lower_char (c : ascii) : ascii :=
  let n := N_of_ascii c in
  if ((65 <=? n) && (n <=? 90))%N then ascii_of_N (n + 32) else c.
Fixpoint lower (s : string) : string :=
  match s with
  | EmptyString => EmptyString
  | String c s' => String (lower_char c) (lower s')
  end.

(** [sub in s]: [sub] occurs in [s] as a contiguous substring. *)
Fixpoint contains (sub s : string) : bool :=
  String.prefix sub s ||
  match s with
  | EmptyString => false
  | String _ s' => contains sub s'
  end.

(** [int(s)] on a string of ASCII digits, most significant first. *)
Definition digit_value (c : ascii) : Z := Z.of_N (N_of_ascii c) - 48.
Fixpoint digits_value (acc : Z) (s : string) : Z :=
  match s with
  | EmptyString => acc
  | String c s' => digits_value (10 * acc + digit_value c) s'
  end.

(** [''.join(filter(pred, s))]. *)
Fixpoint filter_chars (pred : ascii → bool) (s : string) : string :=
  match s with
  | EmptyString => EmptyString
  | String c s' =>
      if pred c then String c (filter_chars pred s') else filter_chars pred s'
  end.

(** [str(n)] for a natural number. *)
Definition str_of_nat (n : nat) : string := pretty n.

End Py.
Import Py.

(* ===================================================================== *)
(** ** Layout strategy (enhanced_powerpoint_generator.py) *)
(* ===================================================================== *)

Module Layout.

Inductive StrategyTag :=
| mixed_media
| charts_and_content
| diagrams_and_content
| charts_only
| diagrams_only
| image_and_content
| content_only.

Global Instance StrategyTag_eq_dec : EqDecision StrategyTag.
Proof. solve_decision. Defined.

(** [EnhancedPowerPointGenerator._determine_layout_strategy], the
    if/elif chain as written. *)
Definition _determine_layout_strategy
    (has_charts has_diagrams has_content has_image : bool) : StrategyTag :=
  if has_charts && has_diagrams then mixed_media
  else if has_charts && has_content then charts_and_content
  else if has_diagrams && has_content then diagrams_and_content
  else if has_charts then charts_only
  else if has_diagrams then diagrams_only
  else if has_image && has_content then image_and_content
  else content_only.

(** The media mix of one slide. *)
Record media := Media {
  m_charts : bool; m_diagrams : bool; m_content : bool; m_photo : bool }.

Global Instance media_eq_dec : EqDecision media.
Proof. solve_decision. Defined.

(** The design document's priority table: an ordered list of
    (condition, tag) rows, read first-match-wins, with [content_only]
    as the final row. This definition follows the document, not the
    code. *)
Definition priority_table : list ((media → bool) * StrategyTag) :=
  [ ((λ m, m_charts m && m_diagrams m), mixed_media);
    ((λ m, m_charts m && m_content m), charts_and_content);
    ((λ m, m_diagrams m && m_content m), diagrams_and_content);
    ((λ m, m_charts m), charts_only);
    ((λ m, m_diagrams m), diagrams_only);
    ((λ m, m_photo m && m_content m), image_and_content) ].

Fixpoint first_match (rows : list ((media → bool) * StrategyTag))
    (m : media) : option StrategyTag :=
  match rows with
  | [] => None
  | (cond, tag) :: rows' => if cond m then Some tag else first_match rows' m
  end.

Definition choose_spec (m : media) : StrategyTag :=
  default content_only (first_match priority_table m).

(** All sixteen media mixes. *)
Definition all_media : list media :=
  c ← [true; false]; d ← [true; false]; t ← [true; false];
  p ← [true; false]; [Media c d t p].

End Layout.

(* ===================================================================== *)
(** ** Responsive font sizes (enhanced_powerpoint_generator.py) *)
(* ===================================================================== *)

Module Font.

(** The instance state of [ResponsiveFontManager]. *)
Record ResponsiveFontManager := {
  slide_width : Qc;
  slide_height : Qc;
  scale_factor : Qc;
  sizes : gmap string Z }.

(** The dict literal of [_calculate_base_sizes], in source order. *)
Definition scaled_sizes (scale : Qc) : list (string * Z) :=
  [ ("presentation_title", int (Qc_of_Z 36 * scale));
    ("slide_title", int (Qc_of_Z 28 * scale));
    ("subtitle", int (Qc_of_Z 20 * scale));
    ("heading", int (Qc_of_Z 18 * scale));
    ("content_large", int (Qc_of_Z 16 * scale));
    ("content_normal", int (Qc_of_Z 14 * scale));
    ("content_small", int (Qc_of_Z 12 * scale));
    ("bullet_main", int (Qc_of_Z 15 * scale));
    ("bullet_sub", int (Qc_of_Z 13 * scale));
    ("caption", int (Qc_of_Z 10 * scale)) ].

(** [__init__] followed by [_calculate_base_sizes]: the scale factor,
    the scaled table, then the 10pt minimum applied to every entry. *)
Definition _calculate_base_sizes (slide_width_inches slide_height_inches : Qc)
    : ResponsiveFontManager :=
  let width_factor := (slide_width_inches / dec 10 1)%Qc in
  let height_factor := (slide_height_inches / dec 75 10)%Qc in
  let scale := Py.min width_factor height_factor in
  {| slide_width := slide_width_inches;
     slide_height := slide_height_inches;
     scale_factor := scale;
     sizes := (λ size, Z.max size 10) <$> list_to_map (scaled_sizes scale) |}.

(** [get_title_size]. *)
Definition get_title_size (self : ResponsiveFontManager) (text_length : Z)
    : result Z :=
  base_size ← getitem (sizes self) "slide_title";
  if 80 <? text_length then Ok (Z.max (base_size - 4) 20)
  else if 50 <? text_length then Ok (Z.max (base_size - 2) 22)
  else Ok base_size.

(** The key of the size table selected by [content_type]. *)
Definition content_key (content_type : string) : string :=
  if decide (content_type = "detailed") then "content_large"
  else if decide (content_type = "heading") then "heading"
  else "content_normal".

(** [get_content_size]. *)
Definition get_content_size (self : ResponsiveFontManager) (text_length : Z)
    (content_type : string) : result Z :=
  base_size ← getitem (sizes self) (content_key content_type);
  if 500 <? text_length then Ok (Z.max (base_size - 3) 11)
  else if 300 <? text_length then Ok (Z.max (base_size - 2) 12)
  else if 150 <? text_length then Ok (Z.max (base_size - 1) 13)
  else Ok base_size.

(** [get_bullet_size]: two successive if/elif adjustments of the local
    [base_size], then the 11pt floor. *)
Definition get_bullet_size (self : ResponsiveFontManager)
    (bullet_count avg_bullet_length : Z) : result Z :=
  base_size ← getitem (sizes self) "bullet_main";
  let base_size :=
    if 8 <? bullet_count then base_size - 2
    else if 6 <? bullet_count then base_size - 1
    else base_size in
  let base_size :=
    if 100 <? avg_bullet_length then base_size - 1
    else if 150 <? avg_bullet_length then base_size - 2
    else base_size in
  Ok (Z.max base_size 11).

(** [get_spacing]: 80% of the size, truncated. *)
Definition get_spacing (font_size : Z) : Z :=
  int (Qc_of_Z font_size * dec 8 10).

(** The bullet rule as the design document words it: minus 1 above 6
    bullets, minus 2 above 8; minus 1 above an average length of 100,
    minus 2 above 150; never below 11. This definition follows the
    document, not the code. *)
Definition bullet_size_spec (bullet_main c L : Z) : Z :=
  let by_count := if 8 <? c then 2 else if 6 <? c then 1 else 0 in
  let by_length := if 150 <? L then 2 else if 100 <? L then 1 else 0 in
  Z.max (bullet_main - by_count - by_length) 11.

End Font.


(* ===================================================================== *)
(** ** Regular expressions as used by advanced_features.py *)
(* ===================================================================== *)

(** The fragment of Python's [re] that the two patterns of
    [analyze_content] are written in, with [re]'s matching discipline:
    alternatives are tried left to right, repetitions and optional groups
    are greedy, and a failure further right backtracks into the most
    recent choice. *)
Module Re.

Inductive regex :=
| Lit (s : string)                        (* literal text *)
| Class (p : ascii → bool)                (* one character of a class *)
| Rep (p : ascii → bool) (least : nat)    (* class*, class+ *)
| Seq (r1 r2 : regex)                     (* r1r2 *)
| Alt (r1 r2 : regex)                     (* r1|r2 *)
| Opt (r : regex)                         (* (?:r)? *)
| Group (r : regex).                      (* (r) *)

(** A finished match: the unread input and the text of the group. *)
Definition outcome : Type := string * option string.

(** Greedy repetition of a class: read as many characters as possible,
    give them back one at a time while the continuation [k] fails. *)
Fixpoint rep (p : ascii → bool) (least : nat) (s : string)
    (k : string → option outcome) : option outcome :=
  let stop := match least with O => k s | S _ => None end in
  match s with
  | String c s' =>
      if p c
      then match rep p (Nat.pred least) s' k with
           | Some o => Some o
           | None => stop
           end
      else stop
  | EmptyString => stop
  end.

(** [s] without its first [n] characters. *)
Fixpoint drop_chars (n : nat) (s : string) : string :=
  match n, s with
  | S n', String _ s' => drop_chars n' s'
  | _, _ => s
  end.

(** The text read between input [s] and its suffix [s']. *)
Definition consumed (s s' : string) : string :=
  String.substring 0 (String.length s - String.length s') s.

(** Backtracking matcher in continuation-passing style: [k] receives
    the unread input and the current group text. *)
Fixpoint run (r : regex) (s : string) (cap : option string)
    (k : string → option string → option outcome) : option outcome :=
  match r with
  | Lit l =>
      if String.prefix l s then k (drop_chars (String.length l) s) cap
      else None
  | Class p =>
      match s with
      | String c s' => if p c then k s' cap else None
      | EmptyString => None
      end
  | Rep p least => rep p least s (λ s', k s' cap)
  | Seq r1 r2 => run r1 s cap (λ s' cap', run r2 s' cap' k)
  | Alt r1 r2 =>
      match run r1 s cap k with
      | Some o => Some o
      | None => run r2 s cap k
      end
  | Opt r1 =>
      match run r1 s cap k with
      | Some o => Some o
      | None => k s cap
      end
  | Group r1 => run r1 s cap (λ s' _, k s' (Some (consumed s s')))
  end.

(** [pattern.match] at the start of [s]. *)
Definition match_here (r : regex) (s : string) : option outcome :=
  run r s None (λ s' cap, Some (s', cap)).

Fixpoint has_group (r : regex) : bool :=
  match r with
  | Lit _ | Class _ | Rep _ _ => false
  | Seq r1 r2 | Alt r1 r2 => has_group r1 || has_group r2
  | Opt r1 => has_group r1
  | Group _ => true
  end.

(** The left-to-right scan of [re.findall]: the leftmost match, then the
    search resumes where that match ended. [skip] counts the characters
    of the current match still to be stepped over. The patterns of this
    module never match the empty string, so no match is attempted at the
    end of the input. *)
Fixpoint scan (r : regex) (skip : nat) (s : string)
    : list (string * option string) :=
  match s with
  | EmptyString => []
  | String _ s' =>
      match skip with
      | S n => scan r n s'
      | O =>
          match match_here r s with
          | Some (rest, cap) =>
              (consumed s rest, cap)
                :: scan r (Nat.pred (String.length s - String.length rest)) s'
          | None => scan r O s'
          end
      end
  end.

(** [re.findall(pattern, s)]: the group of each match when the pattern
    has one (empty when the group took no part), the whole match
    otherwise. *)
Definition findall (r : regex) (s : string) : list string :=
  (λ m, if has_group r then default "" m.2 else m.1) <$> scan r O s.

Declare Scope re_scope.
Delimit Scope re_scope with re.
Infix "⋅" := Seq (at level 40, left associativity) : re_scope.
Infix "∣" := Alt (at level 50, left associativity) : re_scope.

End Re.

(* ===================================================================== *)
(** ** Content signals and charts (advanced_features.py and
       enhanced_powerpoint_generator.py) *)
(* ===================================================================== *)

Module Advanced.
Import Re.
Local Open Scope re_scope.

(** [AdvancedContentProcessor.chart_keywords], in insertion order. *)
Definition chart_keywords : list (string * list string) :=
  [ ("bar", ["so sánh"; "phân loại"; "thống kê"; "dữ liệu"; "số liệu"]);
    ("line", ["xu hướng"; "thời gian"; "phát triển"; "tăng trưởng"; "biến đổi"]);
    ("pie", ["tỷ lệ"; "phần trăm"; "%"; "cơ cấu"; "thành phần"]);
    ("process", ["bước"; "quy trình"; "tiến trình"; "flow"; "workflow"]) ].

(** The result dict of [analyze_content]; its keys are fixed by the
    dict literal that creates it. *)
Record ContentAnalysis := {
  has_numbers : bool;
  numbers_data : list string;
  chart_type : option string;
  process_steps : list string;
  diagram_type : option string;
  animation_style : string }.

(** The pattern [\d+(?:[.,]\d+)?(?:\s*%|\s*tr|\s*tỷ|\s*k)?]. *)
Definition number_pattern : regex :=
  Rep isdigit 1
  ⋅ Opt (Class (λ c, char_in c ".,") ⋅ Rep isdigit 1)
  ⋅ Opt (Rep isspace 0 ⋅ Lit "%" ∣ Rep isspace 0 ⋅ Lit "tr"
         ∣ Rep isspace 0 ⋅ Lit "tỷ" ∣ Rep isspace 0 ⋅ Lit "k").

Definition newline : ascii := ascii_of_N 10.

(** The pattern
    [(?:bước\s*\d+|step\s*\d+|giai đoạn\s*\d+)[\s:.-]*([^.!?\n]+)]. *)
Definition step_pattern : regex :=
  (Lit "bước" ⋅ Rep isspace 0 ⋅ Rep isdigit 1
   ∣ Lit "step" ⋅ Rep isspace 0 ⋅ Rep isdigit 1
   ∣ Lit "giai đoạn" ⋅ Rep isspace 0 ⋅ Rep isdigit 1)
  ⋅ Rep (λ c, isspace c || char_in c ":.-") 0
  ⋅ Group (Rep (λ c, negb (char_in c ".!?" || bool_decide (c = newline))) 1).

(** The first chart type, in dict order, one of whose keywords occurs
    in the text. *)
Fixpoint classify (table : list (string * list string)) (text_lower : string)
    : option string :=
  match table with
  | [] => None
  | (chart_type, keywords) :: table' =>
      if existsb (λ keyword, contains keyword text_lower) keywords
      then Some chart_type
      else classify table' text_lower
  end.

(** [AdvancedContentProcessor.analyze_content]. *)
Definition analyze_content (text : string) : ContentAnalysis :=
  let numbers := findall number_pattern (lower text) in
  let text_lower := lower text in
  let steps := findall step_pattern text_lower in
  {| has_numbers := bool_decide (numbers ≠ []);
     numbers_data := if decide (numbers ≠ []) then take 8 numbers else [];
     chart_type := classify chart_keywords text_lower;
     process_steps := if decide (steps ≠ []) then take 6 steps else [];
     diagram_type := if decide (steps ≠ []) then Some "process_flow" else None;
     animation_style := "fade_in" |}.

(** Which method of the chart generator is called. *)
Inductive chart_kind := pie | line | bar.

(** The arguments of the call to [create_pie_chart], [create_line_chart]
    or [create_bar_chart]: the chart that is drawn. The data points are
    floats holding whole numbers. *)
Record chart_spec := {
  kind : chart_kind;
  data_points : list Z;
  labels : list string;
  chart_title : string }.

(** The body of the conversion loop of [_add_chart_to_slide]: the digits
    of the token once ['.'] and [','] are removed, as a number; nothing
    when no digit is left. *)
Definition clean_number (num_str : string) : option Z :=
  let clean_num := filter_chars isdigit num_str in
  if decide (clean_num = "") then None else Some (digits_value 0 clean_num).

(** [EnhancedPowerPointGenerator._add_chart_to_slide]: the chart drawn
    on the slide, [None] when fewer than two data points remain.
    [slide_title] is the value of [slide_data.get('slide_title')] and
    [analysis] the dict returned by [analyze_content]. *)
Definition _add_chart_to_slide (slide_title : option string)
    (analysis : ContentAnalysis) : option chart_spec :=
  let numbers := numbers_data analysis in
  let chart_type := chart_type analysis in
  let data_points := omap clean_number (take 6 numbers) in
  if decide (2 ≤ length data_points)%nat then
    let labels :=
      (λ i, "Item " +:+ str_of_nat (i + 1)) <$> seq 0 (length data_points) in
    let chart_title := "Biểu đồ " +:+ default "Data" slide_title in
    Some {| kind := if decide (chart_type = Some "pie") then pie
                    else if decide (chart_type = Some "line") then line
                    else bar;
            data_points := data_points;
            labels := labels;
            chart_title := chart_title |}
  else None.

(** The visualization choice of [_fallback_advanced_layout]. *)
Inductive visualization :=
| VChart (c : option chart_spec)
| VProcess (steps : list string)
| VContent.

Definition _fallback_advanced_layout (slide_title : option string)
    (slide_content : list string) : visualization :=
  let content_text := String.concat " " slide_content in
  let analysis := analyze_content content_text in
  if has_numbers analysis && bool_decide (2 ≤ length (numbers_data analysis))%nat
  then VChart (_add_chart_to_slide slide_title analysis)
  else if bool_decide (process_steps analysis ≠ [])
  then VProcess (process_steps analysis)
  else VContent.

End Advanced.

(* ===================================================================== *)
(** ** Content refinement (bert_refiner.py and the fallback class) *)
(* ===================================================================== *)

Module Refiner.

(** *** Decks *)

(** What a slide dict or a stats dict holds under a key. *)
Inductive value :=
| VNone
| VBool (b : bool)
| VNum (q : Qc)
| VStr (s : string)
| VList (l : list string).

Abbreviation dict := (gmap string value).

(** What the deck dict holds under a key: a plain value, the list of
    slide dicts, or a nested dict (the statistics). *)
Inductive entry :=
| EVal (v : value)
| ESlides (slides : list dict)
| EDict (d : dict).

Abbreviation deck := (gmap string entry).

(** The slides of a deck: [data.get("slides", [])] when it is a list of
    slide dicts. *)
Definition slides_of_deck (data : deck) : list dict :=
  match data !! "slides" with
  | Some (ESlides slides) => slides
  | _ => []
  end.

(** The deck holds a list of slide dicts under ["slides"], or no such
    key. *)
Definition deck_shape (data : deck) : Prop :=
  data !! "slides" = None ∨ ∃ slides, data !! "slides" = Some (ESlides slides).

(** The keys of a slide in the outline requested from the content
    generator (the JSON format of content_processor.py). The nested
    [visualization] and [animation] objects are outside [value]; the
    refiner reads and writes neither key. *)
Definition outline_fields : gset string :=
  {[ "slide_number"; "slide_type"; "slide_title"; "slide_content";
     "detailed_content"; "visualization"; "animation"; "image_keywords";
     "notes"; "speaking_points" ]}.

Global Instance value_eq_dec : EqDecision value.
Proof. solve_decision. Defined.

(** Truth value of an object in a condition. *)
Definition truthy (v : value) : bool :=
  match v with
  | VNone => false
  | VBool b => b
  | VNum q => bool_decide (q ≠ 0%Qc)
  | VStr s => bool_decide (s ≠ "")
  | VList l => bool_decide (l ≠ [])
  end.

(** [l[i]]: [IndexError] out of range. *)
Definition index {A} (l : list A) (i : nat) : result A :=
  match l !! i with Some x => Ok x | None => Raise IndexError end.

(** The number an object counts as in arithmetic ([bool] is a subclass
    of [int]). *)
Definition number_of (v : value) : result Qc :=
  match v with
  | VNum q => Ok q
  | VBool b => Ok (if b then 1%Qc else 0%Qc)
  | _ => Raise TypeError
  end.

(** [list(v)] and [for x in v]: a string iterates over its
    characters. *)
Fixpoint chars (s : string) : list string :=
  match s with
  | EmptyString => []
  | String c s' => String c "" :: chars s'
  end.
Definition iterate (v : value) : result (list string) :=
  match v with
  | VList l => Ok l
  | VStr s => Ok (chars s)
  | _ => Raise TypeError
  end.

(** [v.append(x)]. *)
Definition append (v : value) (x : string) : result value :=
  match v with
  | VList l => Ok (VList (l ++ [x]))
  | _ => Raise AttributeError
  end.

(** [v[i] = x]. *)
Definition setitem (v : value) (i : nat) (x : string) : result value :=
  match v with
  | VList l =>
      if decide (i < length l)%nat then Ok (VList (<[i := x]> l))
      else Raise IndexError
  | _ => Raise TypeError
  end.

(** *** The heuristic analysis *)

Inductive Action := none | summarize | clarify | grammar.

Global Instance Action_eq_dec : EqDecision Action.
Proof. solve_decision. Defined.

(** The dict returned by [_analyze_text_quality]. *)
Record Analysis := {
  score : Qc;
  action : Action;
  reason : string }.

Definition Qc_of_nat (n : nat) : Qc := Qc_of_Z (Z.of_nat n).

(** [BertContentRefiner._analyze_text_quality]. The divisor is the
    length of the list [words + [1e-5]]. *)
Definition _analyze_text_quality (text : string) : Analysis :=
  let words := split text in
  if decide (40 < length words)%nat then
    {| score := 1 - dec 3 10;
       action := summarize;
       reason := "Văn bản quá dài cho một slide, cần rút gọn." |}
  else
    let long_words := filter (λ w, 12 < String.length w)%nat words in
    if decide (dec 15 100 <
               Qc_of_nat (length long_words)
               / Qc_of_nat (length ((inl <$> words) ++ [inr (dec 1 100000)])))%Qc
    then
      {| score := 1 - dec 2 10;
         action := clarify;
         reason := "Sử dụng nhiều từ phức tạp, cần làm rõ ràng hơn." |}
    else {| score := 1; action := none; reason := "" |}.

(** The rule as the design document words it: the long words as a
    fraction of the words. This definition follows the document, not
    the code. *)
Definition long_word_fraction (text : string) : Qc :=
  let words := split text in
  (Qc_of_nat (length (filter (λ w, 12 < String.length w)%nat words))
   / Qc_of_nat (length words))%Qc.

(** *** The refiner and its generative collaborator *)

(** The instance state of [BertContentRefiner]. [generate] is the
    collaborator: tokenizer, [model.generate] and [batch_decode] taken
    together, a function from the batch of prompts to the batch of
    rewritten texts. *)
Record BertContentRefiner := {
  available : bool;
  device : string;
  generate : list string → list string }.

(** Computations that may raise and that record every batch sent to
    the collaborator. *)
Record M (A : Type) := Run {
  calls : list (list string);
  outcome : result A }.
Global Arguments Run {A} calls outcome.
Global Arguments calls {A} m.
Global Arguments outcome {A} m.

Global Instance M_ret : MRet M := λ A a, Run [] (Ok a).
Global Instance M_bind : MBind M := λ A B f m,
  match outcome m with
  | Ok a => Run (calls m ++ calls (f a)) (outcome (f a))
  | Raise e => Run (calls m) (Raise e)
  end.

Definition lift {A} (r : result A) : M A := Run [] r.

Definition call_generate (self : BertContentRefiner) (inputs : list string)
    : M (list string) :=
  Run [inputs] (Ok (generate self inputs)).

(** The [prefixes] dict of [refine_content_batch]. *)
Definition prefixes (a : Action) : string :=
  match a with
  | summarize => "summarize: "
  | clarify => "make it clear: "
  | grammar => "fix grammar: "
  | none => ""
  end.

(** The loop that maps the collaborator's answers back: [i] runs over
    [actions], [refined_idx] over the answers. *)
Fixpoint map_back (texts refined_texts : list string) (i refined_idx : nat)
    (actions : list Action) : result (list string) :=
  match actions with
  | [] => Ok []
  | a :: actions' =>
      if decide (a ≠ none) then
        t ← index refined_texts refined_idx;
        rest ← map_back texts refined_texts (S i) (S refined_idx) actions';
        Ok (t :: rest)
      else
        t ← index texts i;
        rest ← map_back texts refined_texts (S i) refined_idx actions';
        Ok (t :: rest)
  end.

(** The prompts: prefix and text of every fragment whose action is not
    ['none'], in order. *)
Definition prompts (texts : list string) (actions : list Action)
    : list string :=
  (λ ta, prefixes ta.2 +:+ ta.1)
    <$> filter (λ ta, ta.2 ≠ none) (zip texts actions).

(** [BertContentRefiner.refine_content_batch]. *)
Definition refine_content_batch (self : BertContentRefiner)
    (texts : list string) (actions : list Action) : M (list string) :=
  if negb (available self) || bool_decide (texts = []) then mret texts
  else
    let inputs := prompts texts actions in
    if decide (inputs = []) then mret texts
    else
      refined_texts ← call_generate self inputs;
      lift (map_back texts refined_texts 0 0 actions).

(** *** Refining a deck *)

Inductive Field := content_field | bullet_field (bullet_index : nat).

(** One collected fragment: its text (the entry of [texts_to_process])
    and its entry of [original_map]; the entry of [actions] is the
    action of its analysis. The three lists of the source grow in
    lock step, one entry each per fragment. *)
Record fragment := {
  text : string;
  slide_index : nat;
  field : Field;
  analysis : Analysis }.

(** The bullets of a slide, with their positions. *)
Definition bullet_fragments (i : nat) (bullets : list string) : list fragment :=
  imap (λ j bullet, {| text := bullet; slide_index := i;
                       field := bullet_field j;
                       analysis := _analyze_text_quality bullet |}) bullets.

(** Step 1 of [refine_content] for slide [i]. *)
Definition collect_slide (i : nat) (slide : dict) : result (list fragment) :=
  let content := default (VStr "") (slide !! "content") in
  from_content ←
    (if truthy content then
       match content with
       | VStr s => Ok [ {| text := s; slide_index := i; field := content_field;
                           analysis := _analyze_text_quality s |} ]
       | _ => Raise AttributeError
       end
     else Ok []);
  bullets ← iterate (default (VList []) (slide !! "bullet_points"));
  Ok (from_content ++ bullet_fragments i bullets).

Fixpoint collect (i : nat) (slides : list dict) : result (list fragment) :=
  match slides with
  | [] => Ok []
  | slide :: slides' =>
      here ← collect_slide i slide;
      later ← collect (S i) slides';
      Ok (here ++ later)
  end.

(** The mutable state of step 3: the slides and the two sets of
    improved slide indices. *)
Record progress := {
  slides_of : list dict;
  improved_content_slides : gset nat;
  improved_bullets_slides : gset nat }.

(** The change made to a slide when a fragment was rewritten. *)
Definition apply_rewrite (slide : dict) (original_text refined_text : string)
    (info : fragment) : result dict :=
  let slide := <["bert_refined" := VBool true]> slide in
  suggestions ← getitem slide "bert_suggestions";
  suggestions ← append suggestions (reason (analysis info));
  let slide := <["bert_suggestions" := suggestions]> slide in
  match field info with
  | content_field =>
      Ok (<["content" := VStr refined_text]>
            (<["original_content" := VStr original_text]> slide))
  | bullet_field bullet_idx =>
      slide ←
        (match slide !! "original_bullet_points" with
         | None =>
             bullets ← getitem slide "bullet_points";
             copy ← iterate bullets;
             Ok (<["original_bullet_points" := VList copy]> slide)
         | Some _ => Ok slide
         end);
      bullets ← getitem slide "bullet_points";
      bullets ← setitem bullets bullet_idx refined_text;
      Ok (<["bullet_points" := bullets]> slide)
  end.

Definition changed (original_text refined_text : string) (info : fragment)
    : bool :=
  bool_decide (strip original_text ≠ strip refined_text)
  && bool_decide (action (analysis info) ≠ none).

(** One iteration of the loop of step 3. *)
Definition update_fragment (st : progress)
    (original_text refined_text : string) (info : fragment)
    : result progress :=
  let slide_idx := slide_index info in
  slide ← index (slides_of st) slide_idx;
  let slide :=
    <["bert_refined" := default (VBool false) (slide !! "bert_refined")]> slide in
  let slide :=
    <["quality_score" := default (VNum 1) (slide !! "quality_score")]> slide in
  let slide :=
    <["bert_suggestions" := default (VList []) (slide !! "bert_suggestions")]> slide in
  slide ←
    (if changed original_text refined_text info
     then apply_rewrite slide original_text refined_text info
     else Ok slide);
  let hit := changed original_text refined_text info in
  let ic := improved_content_slides st in
  let ib := improved_bullets_slides st in
  quality ← getitem slide "quality_score";
  quality ← number_of quality;
  let slide :=
    <["quality_score" := VNum (quality - (1 - score (analysis info)))]> slide in
  Ok {| slides_of := <[slide_idx := slide]> (slides_of st);
        improved_content_slides :=
          match field info with
          | content_field => if hit then {[slide_idx]} ∪ ic else ic
          | bullet_field _ => ic
          end;
        improved_bullets_slides :=
          match field info with
          | content_field => ib
          | bullet_field _ => if hit then {[slide_idx]} ∪ ib else ib
          end |}.

(** The loop of step 3 over [enumerate(original_map)]. *)
Fixpoint update_loop (st : progress) (texts refined_texts : list string)
    (i : nat) (infos : list fragment) : result progress :=
  match infos with
  | [] => Ok st
  | info :: infos' =>
      original_text ← index texts i;
      refined_text ← index refined_texts i;
      st ← update_fragment st original_text refined_text info;
      update_loop st texts refined_texts (S i) infos'
  end.

(** [max(0.1, v)]: the first argument unless the second is larger. *)
Definition floor_quality (v : value) : result value :=
  q ← number_of v;
  Ok (if decide (dec 1 10 < q)%Qc then v else VNum (dec 1 10)).

(** The closing loop: every slide's score is floored at 0.1 and added
    to the running total. *)
Fixpoint finalize (slides : list dict) (total : Qc)
    : result (list dict * Qc) :=
  match slides with
  | [] => Ok ([], total)
  | slide :: slides' =>
      quality ← floor_quality (default (VNum 1) (slide !! "quality_score"));
      q ← number_of quality;
      '(rest, total) ← finalize slides' (total + q)%Qc;
      Ok (<["quality_score" := quality]> slide :: rest, total)
  end.

(** The statistics dict. *)
Definition make_stats (self : BertContentRefiner) (n : nat)
    (st : progress) (total : Qc) : dict :=
  <["average_quality" :=
      VNum (if decide (n ≠ 0%nat) then total / Qc_of_nat n else 0)%Qc]>
  (<["improved_bullets" := VNum (Qc_of_nat (size (improved_bullets_slides st)))]>
  (<["improved_content" := VNum (Qc_of_nat (size (improved_content_slides st)))]>
  (<["total_quality_score" := VNum total]>
  (list_to_map
     [ ("total_slides", VNum (Qc_of_nat n));
       ("improved_content", VNum 0%Qc);
       ("improved_bullets", VNum 0%Qc);
       ("total_quality_score", VNum 0%Qc);
       ("method_used", VStr ("t5-small (" +:+ device self +:+ ")")) ])))).

(** Steps 1 to 3 on a non-empty list of slides. *)
Definition refine_slides (self : BertContentRefiner) (data : deck)
    (slides : list dict) : M deck :=
  original_map ← lift (collect 0 slides);
  let texts_to_process := text <$> original_map in
  let actions := (λ info, action (analysis info)) <$> original_map in
  refined_texts ← refine_content_batch self texts_to_process actions;
  st ← lift (update_loop
               {| slides_of := slides;
                  improved_content_slides := ∅;
                  improved_bullets_slides := ∅ |}
               texts_to_process refined_texts 0 original_map);
  '(slides, total) ← lift (finalize (slides_of st) 0%Qc);
  let stats := make_stats self (length slides) st total in
  mret (<["bert_refinement_stats" := EDict stats]>
          (<["slides" := ESlides slides]> data)).

(** [BertContentRefiner.refine_content]. The slides are updated in
    place, so the returned deck holds the updated list under
    ["slides"]. *)
Definition refine_content (self : BertContentRefiner) (data : deck) : M deck :=
  if negb (available self) then mret data
  else
    match data !! "slides" with
    | None => mret data
    | Some (ESlides []) => mret data
    | Some (ESlides slides) => refine_slides self data slides
    | Some (EVal v) =>
        if truthy v
        then lift (Raise (match v with
                          | VStr _ | VList _ => AttributeError
                          | _ => TypeError
                          end))
        else mret data
    | Some (EDict d) =>
        if decide (d = ∅) then mret data else lift (Raise AttributeError)
    end.

(** *** The fallback class of streamlit_app.py *)

Module Fallback.

(** The instance state of the fallback [BertContentRefiner]. *)
Record BertContentRefiner := {
  available : bool;
  refinement_stats : dict }.

(** [__init__]. *)
Definition init : BertContentRefiner :=
  {| available := false;
     refinement_stats :=
       list_to_map
         [ ("total_slides", VNum 0%Qc);
           ("improved_content", VNum 0%Qc);
           ("improved_bullets", VNum 0%Qc);
           ("improved_speaking", VNum 0%Qc);
           ("average_quality", VNum (dec 8 10));
           ("method_used", VStr "rule-based") ] |}.

Definition stamp (slide : dict) : dict :=
  <["bert_refined" := VBool false]>
    (<["quality_score" := VNum (dec 8 10)]> slide).

(** [refine_content]: the updated instance and the returned deck. A
    value under ["slides"] that is not a list of dicts raises as soon
    as it yields an element. *)
Definition refine_content (self : BertContentRefiner) (data : deck)
    : result (BertContentRefiner * deck) :=
  slides ←
    (match data !! "slides" with
     | None => Ok None
     | Some (ESlides slides) => Ok (Some slides)
     | Some (EVal (VStr "")) | Some (EVal (VList [])) => Ok None
     | Some (EDict d) => if decide (d = ∅) then Ok None else Raise TypeError
     | Some (EVal _) => Raise TypeError
     end);
  let stamped := stamp <$> default [] slides in
  let stats :=
    <["total_slides" := VNum (Qc_of_nat (length stamped))]>
      (refinement_stats self) in
  let data :=
    match slides with
    | Some _ => <["slides" := ESlides stamped]> data
    | None => data
    end in
  Ok ({| available := available self; refinement_stats := stats |},
      <["bert_refinement_stats" := EDict stats]> data).

End Fallback.

End Refiner.

(* ===================================================================== *)
(** ** Vocabulary of the refinement contract *)
(* ===================================================================== *)

Module Contract.
Import Refiner.




(** Sum and arithmetic mean of a list of scores. *)
Definition total (qs : list Qc) : Qc := foldr Qcplus 0%Qc qs.


(** Two invocations in succession: the deck returned by the first is the
    argument of the second. *)
Definition refine_twice (self : BertContentRefiner) (data : deck) : M deck :=
  data1 ← refine_content self data; refine_content self data1.

(** Field [k] of slide [i] in the deck that a computation returned. *)
Definition slide_field (m : M deck) (i : nat) (k : string) : option value :=
  match outcome m with
  | Ok data => slides_of_deck data !! i ≫= λ slide : dict, slide !! k
  | Raise _ => None
  end.

(** The slide carries a score that counts as a number not below 0.1. *)
Definition at_least_floor (slide : dict) : Prop :=
  ∃ v q, slide !! "quality_score" = Some v
         ∧ number_of v = Ok q ∧ (dec 1 10 ≤ q)%Qc.

(** Slide [slide'] still holds the bullet shadow of [slide], if
    [slide] had one. *)
Definition same_bullet_shadow (slide slide' : dict) : Prop :=
  ∀ v, slide !! "original_bullet_points" = Some v →
       slide' !! "original_bullet_points" = Some v.

End Contract.

(* ===================================================================== *)
(** ** Invariants of the update loop *)
(* ===================================================================== *)

Module Invariants.
Import Refiner.





End Invariants.

(* ===================================================================== *)
(** ** Example inputs *)
(* ===================================================================== *)

Module Examples.
Import Refiner.

(** The fragment of the design document's end-to-end example. *)
Definition quarterly : string := "Q1: 100tr, Q2: 150tr, Q3: 200tr, Q4: 180tr".

(** Six words, one of them longer than 12 characters. *)
Definition six_words : string := "internationalization a b c d e".

(** The collaborator of the example: it answers every prompt with the
    prompt itself. *)
Definition echo : BertContentRefiner :=
  {| available := true; device := "cpu"; generate := λ prompts, prompts |}.

Definition long_word_deck : deck :=
  {[ "slides" :=
       ESlides [ {[ "content" := VStr "internationalization";
                    "bullet_points" :=
                      VList ["short one"; "internationalization again"] ]} ] ]}.

End Examples.

(* ===================================================================== *)
(** ** The size table read as data *)
(* ===================================================================== *)

Module Typography.
Import Font.

(** The constant that [_calculate_base_sizes] multiplies by the scale
    factor for each key of the size table, in source order. *)
Definition nominal_sizes : list (string * Z) :=
  [ ("presentation_title", 36); ("slide_title", 28); ("subtitle", 20);
    ("heading", 18); ("content_large", 16); ("content_normal", 14);
    ("content_small", 12); ("bullet_main", 15); ("bullet_sub", 13);
    ("caption", 10) ].

End Typography.

(* ===================================================================== *)
(** ** Vocabulary for texts *)
(* ===================================================================== *)

Module Texts.



End Texts.

(* ===================================================================== *)
(** ** Vocabulary for what the refiner touches *)
(* ===================================================================== *)

Module Frames.
Import Refiner.

(** The slide keys that [refine_content] assigns. *)
Definition refiner_keys : gset string :=
  {[ "quality_score"; "bert_refined"; "bert_suggestions"; "content";
     "original_content"; "original_bullet_points"; "bullet_points" ]}.

(** [slide'] agrees with [slide] on every key the refiner does not
    assign. *)
Definition same_elsewhere (slide slide' : dict) : Prop :=
  ∀ k, k ∉ refiner_keys → slide' !! k = slide !! k.

(** What holds between a slide and the same slide after any number of
    refinement steps: keys outside [refiner_keys] keep their values, no
    key is removed, a slide flagged as refined stays flagged, and a list
    of bullets keeps its length. *)
Definition carried_over (slide slide' : dict) : Prop :=
  same_elsewhere slide slide'
  ∧ (∀ k, is_Some (slide !! k) → is_Some (slide' !! k))
  ∧ (slide !! "bert_refined" = Some (VBool true) →
     slide' !! "bert_refined" = Some (VBool true))
  ∧ (∀ l, slide !! "bullet_points" = Some (VList l) →
          ∃ l', slide' !! "bullet_points" = Some (VList l')
                ∧ length l' = length l).

(** The slide is flagged as refined and holds a backup under [k]. *)
Definition backed_up (k : string) (slide : dict) : Prop :=
  slide !! "bert_refined" = Some (VBool true) ∧ is_Some (slide !! k).

(** Every index in [improved] is the index of a slide that is flagged
    and holds a backup under [k]. *)
Definition counted (k : string) (improved : gset nat) (slides : list dict)
    : Prop :=
  ∀ i, i ∈ improved → ∃ slide, slides !! i = Some slide ∧ backed_up k slide.

(** The content of [slide], if it is a string whose analysis asks for no
    rewrite, is the content of [slide']. *)
Definition content_kept (slide slide' : dict) : Prop :=
  ∀ c, slide !! "content" = Some (VStr c) →
       action (_analyze_text_quality c) = none →
       slide' !! "content" = Some (VStr c).

(** Every bullet of [slide] whose analysis asks for no rewrite stands at
    its position in [slide']. *)
Definition bullets_kept (slide slide' : dict) : Prop :=
  ∀ l j b, slide !! "bullet_points" = Some (VList l) →
           l !! j = Some b →
           action (_analyze_text_quality b) = none →
           ∃ l', slide' !! "bullet_points" = Some (VList l')
                 ∧ l' !! j = Some b.





(** The texts of [results] at the positions whose action is not
    [none], in order. *)
Definition rewritten (actions : list Action) (results : list string)
    : list string :=
  (filter (λ ar, ar.1 ≠ none) (zip actions results)).*2.

End Frames.

(* ===================================================================== *)
(** ** Further example inputs *)
(* ===================================================================== *)

Module Runs.
Import Refiner Examples.

(** The deck that the echoing refiner returns for [long_word_deck]. *)
Definition refined_long_word_deck : deck :=
  match outcome (refine_content echo long_word_deck) with
  | Ok data' => data'
  | Raise _ => long_word_deck
  end.

End Runs.

(* ===================================================================== *)
(** ** Placing pictures and text (enhanced_powerpoint_generator.py) *)
(* ===================================================================== *)

Module Placement.
Import Font.

(** [Inches(x)]: a length in English Metric Units, 914400 to the inch,
    truncated to an integer. *)
Definition Inches (x : Qc) : Z := int (x * Qc_of_Z 914400).

(** [len(s)] of a string. *)
Definition len (s : string) : Z := Z.of_nat (String.length s).

(** One paragraph of a text frame: its text, font size and space after
    it in points, and its colour. Level, bold face and alignment are not
    recorded. *)
Record paragraph := {
  p_text : string;
  p_size : option Z;
  p_space_after : option Z;
  p_color : option (Z * Z * Z) }.

(** The one paragraph that [text_frame.clear()] leaves. *)
Definition empty_paragraph : paragraph :=
  {| p_text := ""; p_size := None; p_space_after := None; p_color := None |}.

(** What the layout functions add to [slide.shapes]. *)
Inductive shape :=
| Picture (path : string) (left top width height : Z)
| TextBox (left top width height : Z) (paragraphs : list paragraph).

(** The entries of [slide_data] that the text boxes read:
    [detailed_content] (default [""]), [slide_content] and
    [speaking_points] (default [[]]). *)
Record SlideData := {
  detailed_content : string;
  slide_content : list string;
  speaking_points : list string }.

(** [sum(len(point) for point in slide_content)]. *)
Definition sum_len (points : list string) : Z :=
  foldr (λ point acc, len point + acc) 0 points.

(** A bullet paragraph. *)
Definition bullet_paragraph (size spacing : Z) (color : Z * Z * Z)
    (point : string) : paragraph :=
  {| p_text := "• " +:+ point; p_size := Some size;
     p_space_after := Some spacing; p_color := Some color |}.

(** The paragraphs of the text frame when [_add_content_text_box] is
    done. The body runs inside [try]: when a size lookup raises, the
    frame stays as it was at that point. *)
Definition text_frame (self : ResponsiveFontManager) (slide_data : SlideData)
    : list paragraph :=
  let detailed := detailed_content slide_data in
  let points := slide_content slide_data in
  if bool_decide (detailed ≠ "") then
    match get_content_size self (len detailed) "detailed" with
    | Raise _ => [empty_paragraph]
    | Ok content_font_size =>
        let content_spacing := get_spacing content_font_size in
        let p := {| p_text := detailed; p_size := Some content_font_size;
                    p_space_after := Some content_spacing;
                    p_color := Some (51, 51, 51) |} in
        if bool_decide (points ≠ []) then
          let avg_bullet_length :=
            sum_len points `div` Z.of_nat (length points) in
          match get_bullet_size self (Z.of_nat (length points))
                  avg_bullet_length with
          | Raise _ => [p]
          | Ok bullet_font_size =>
              let bullet_spacing := get_spacing bullet_font_size in
              let sep_p := {| p_text := ""; p_size := None;
                              p_space_after := Some (bullet_spacing `div` 2);
                              p_color := None |} in
              let max_bullets :=
                if 14 <=? bullet_font_size then 4%nat else 5%nat in
              p :: sep_p
                :: (bullet_paragraph bullet_font_size bullet_spacing
                      (46, 134, 171) <$> take max_bullets points)
          end
        else [p]
    end
  else
    let avg_bullet_length :=
      if bool_decide (points ≠ [])
      then sum_len points `div` Z.of_nat (length points) else 50 in
    match get_bullet_size self (Z.of_nat (length points))
            avg_bullet_length with
    | Raise _ => [empty_paragraph]
    | Ok bullet_font_size =>
        let bullet_spacing := get_spacing bullet_font_size in
        match points with
        | [] => [empty_paragraph]
        | _ =>
            imap (λ i point,
                    bullet_paragraph bullet_font_size bullet_spacing
                      (if decide (i mod 2 = 0)%nat then (31, 73, 125)
                       else (46, 134, 171)) point) points
        end
    end.

(** [_add_content_text_box]: the text box it adds. *)
Definition _add_content_text_box (self : ResponsiveFontManager)
    (slide_data : SlideData) (left top width height : Z) : shape :=
  TextBox left top width height (text_frame self slide_data).

(** The pictures added by a loop over [enumerate(images)] that places
    picture [i] with [place i path] when the file exists. [fs] is
    [os.path.exists]. *)
Definition pictures (fs : string → bool) (place : nat → string → shape)
    (images : list string) : list shape :=
  omap (λ ip : nat * string, if fs ip.2 then Some (place ip.1 ip.2) else None)
    (imap pair images).

(** [_layout_charts_only]. *)
Definition _layout_charts_only (fs : string → bool)
    (chart_images : list string) : list shape :=
  let chart_count := length chart_images in
  if decide (chart_count = 1)%nat then
    match chart_images !! 0%nat with
    | Some chart_path =>
        if fs chart_path
        then [Picture chart_path (Inches (dec 25 10)) (Inches (Qc_of_Z 2))
                (Inches (Qc_of_Z 5)) (Inches (Qc_of_Z 4))]
        else []
    | None => []
    end
  else if decide (chart_count = 2)%nat then
    pictures fs
      (λ i chart_path,
         Picture chart_path
           (if decide (i = 0)%nat then Inches (dec 5 10)
            else Inches (Qc_of_Z 5))
           (Inches (Qc_of_Z 2)) (Inches (dec 45 10)) (Inches (Qc_of_Z 4)))
      chart_images
  else
    pictures fs
      (λ i chart_path,
         let col := (i mod 2)%nat in
         let row := (i / 2)%nat in
         Picture chart_path
           (Inches (dec 5 10 + Qc_of_Z (Z.of_nat col) * dec 475 100))
           (Inches (dec 15 10 + Qc_of_Z (Z.of_nat row) * dec 25 10))
           (Inches (Qc_of_Z 4)) (Inches (Qc_of_Z 2)))
      (take 4 chart_images).

(** [_layout_diagrams_only]. *)
Definition _layout_diagrams_only (fs : string → bool)
    (diagram_images : list string) : list shape :=
  pictures fs
    (λ i diagram_path,
       Picture diagram_path (Inches (Qc_of_Z 1))
         (Inches (dec 15 10 + Qc_of_Z (Z.of_nat i) * dec 25 10))
         (Inches (Qc_of_Z 8)) (Inches (Qc_of_Z 2)))
    diagram_images.

(** [_layout_charts_with_content]. *)
Definition _layout_charts_with_content (self : ResponsiveFontManager)
    (fs : string → bool) (chart_images : list string)
    (slide_data : SlideData) : list shape :=
  (match chart_images with
   | chart_path :: _ =>
       if fs chart_path
       then [Picture chart_path (Inches (dec 5 10)) (Inches (dec 15 10))
               (Inches (dec 45 10)) (Inches (Qc_of_Z 4))]
       else []
   | [] => []
   end)
  ++ [_add_content_text_box self slide_data
        (Inches (dec 55 10)) (Inches (dec 15 10)) (Inches (Qc_of_Z 4))
        (Inches (Qc_of_Z 4))].

(** [_layout_diagrams_with_content]. *)
Definition _layout_diagrams_with_content (self : ResponsiveFontManager)
    (fs : string → bool) (diagram_images : list string)
    (slide_data : SlideData) : list shape :=
  (match diagram_images with
   | diagram_path :: _ =>
       if fs diagram_path
       then [Picture diagram_path (Inches (Qc_of_Z 1)) (Inches (dec 15 10))
               (Inches (Qc_of_Z 8)) (Inches (dec 25 10))]
       else []
   | [] => []
   end)
  ++ [_add_content_text_box self slide_data
        (Inches (Qc_of_Z 1)) (Inches (dec 45 10)) (Inches (Qc_of_Z 8))
        (Inches (Qc_of_Z 2))].

(** [_layout_image_with_content]; [slide_number] is
    [len(self.prs.slides)]. *)
Definition _layout_image_with_content (self : ResponsiveFontManager)
    (slide_number : nat) (image_path : string) (slide_data : SlideData)
    : list shape :=
  if decide (slide_number mod 2 = 1)%nat then
    [ Picture image_path (Inches (dec 5 10)) (Inches (dec 15 10))
        (Inches (Qc_of_Z 4)) (Inches (Qc_of_Z 4));
      _add_content_text_box self slide_data
        (Inches (Qc_of_Z 5)) (Inches (dec 15 10)) (Inches (dec 45 10))
        (Inches (Qc_of_Z 4)) ]
  else
    [ _add_content_text_box self slide_data
        (Inches (dec 5 10)) (Inches (dec 15 10)) (Inches (dec 45 10))
        (Inches (Qc_of_Z 4));
      Picture image_path (Inches (dec 55 10)) (Inches (dec 15 10))
        (Inches (Qc_of_Z 4)) (Inches (Qc_of_Z 4)) ].

(** [_layout_mixed_media]. The running [current_y] is threaded through
    the three parts. *)
Definition _layout_mixed_media (self : ResponsiveFontManager)
    (fs : string → bool) (chart_images diagram_images : list string)
    (slide_data : SlideData) : list shape :=
  let current_y := Inches (dec 15 10) in
  let '(charts, current_y) :=
    if bool_decide (chart_images ≠ []) then
      (pictures fs
         (λ i chart_path,
            Picture chart_path
              (Inches (dec 5 10 + Qc_of_Z (Z.of_nat i) * dec 475 100))
              current_y (Inches (Qc_of_Z 4)) (Inches (dec 25 10)))
         (take 2 chart_images),
       current_y + Inches (Qc_of_Z 3))
    else ([], current_y) in
  let '(diagrams, current_y) :=
    match diagram_images with
    | diagram_path :: _ =>
        if bool_decide (current_y < Inches (Qc_of_Z 5)) then
          (if fs diagram_path
           then [Picture diagram_path (Inches (Qc_of_Z 1)) current_y
                   (Inches (Qc_of_Z 8)) (Inches (dec 15 10))]
           else [],
           current_y + Inches (Qc_of_Z 2))
        else ([], current_y)
    | [] => ([], current_y)
    end in
  let content :=
    if bool_decide (slide_content slide_data ≠ [])
       && bool_decide (current_y < Inches (Qc_of_Z 6))
    then [_add_content_text_box self slide_data
            (Inches (Qc_of_Z 1)) current_y (Inches (Qc_of_Z 8))
            (Inches (dec 15 10))]
    else [] in
  charts ++ diagrams ++ content.

(** [_add_title_to_slide]: the title box it adds. The size lookup is
    not inside [try]. *)
Definition _add_title_to_slide (self : ResponsiveFontManager)
    (title_text : string) : result shape :=
  font_size ← get_title_size self (len title_text);
  let spacing := get_spacing font_size in
  let title_height := if 24 <? font_size then dec 12 10 else dec 10 10 in
  Ok (TextBox (Inches (dec 5 10)) (Inches (dec 3 10)) (Inches (Qc_of_Z 9))
        (Inches title_height)
        [ {| p_text := title_text; p_size := Some font_size;
             p_space_after := Some spacing;
             p_color := Some (31, 73, 125) |} ]).

(** A paragraph added to a frame with its text, size, space after it
    and colour set. *)
Definition styled (text : string) (size spacing : Z) (color : Z * Z * Z)
    : paragraph :=
  {| p_text := text; p_size := Some size; p_space_after := Some spacing;
     p_color := Some color |}.

(** An empty paragraph that only sets the space after it. *)
Definition spacer (spacing : Z) : paragraph :=
  {| p_text := ""; p_size := None; p_space_after := Some spacing;
     p_color := None |}.

(** The paragraphs of the text frame filled by
    [_add_enhanced_content_to_slide]: the detailed content and a spacer,
    the header and the bullets, the speaking notes. Nothing here runs
    inside [try]. *)
Definition enhanced_frame (self : ResponsiveFontManager)
    (slide_data : SlideData) : result (list paragraph) :=
  let detailed := detailed_content slide_data in
  let points := slide_content slide_data in
  let speaking := speaking_points slide_data in
  frame ←
    (if bool_decide (detailed ≠ "") then
       main_font_size ← get_content_size self (len detailed) "detailed";
       let main_spacing := get_spacing main_font_size in
       Ok [ styled detailed main_font_size main_spacing (51, 51, 51);
            spacer (main_spacing `div` 2) ]
     else Ok [empty_paragraph]);
  frame ←
    (if bool_decide (points ≠ []) then
       let avg_bullet_length :=
         sum_len points `div` Z.of_nat (length points) in
       bullet_font_size ←
         get_bullet_size self (Z.of_nat (length points)) avg_bullet_length;
       let header_font_size := bullet_font_size + 2 in
       let bullet_spacing := get_spacing bullet_font_size in
       Ok (frame
           ++ styled "Điểm chính:" header_font_size bullet_spacing
                (46, 134, 171)
           :: imap (λ i point,
                      styled ("• " +:+ point) bullet_font_size bullet_spacing
                        (if decide (i mod 2 = 0)%nat then (46, 134, 171)
                         else (106, 153, 78))) points)
     else Ok frame);
  if bool_decide (speaking ≠ []) && bool_decide (detailed = "") then
    notes_font_size ← getitem (sizes self) "content_small";
    let notes_spacing := get_spacing notes_font_size in
    Ok (frame
        ++ spacer notes_spacing
        :: styled "Ghi chú thuyết trình:" (notes_font_size + 2)
             (notes_spacing `div` 2) (128, 128, 128)
        :: ((λ point, styled ("→ " +:+ point) notes_font_size
                        (notes_spacing `div` 2) (128, 128, 128))
              <$> take 2 speaking))
  else Ok frame.

(** [_add_enhanced_content_to_slide]: the text box it adds, if any. *)
Definition _add_enhanced_content_to_slide (self : ResponsiveFontManager)
    (slide_data : SlideData) : result (list shape) :=
  if bool_decide (detailed_content slide_data = "")
     && bool_decide (slide_content slide_data = [])
  then Ok []
  else
    frame ← enhanced_frame self slide_data;
    Ok [TextBox (Inches (Qc_of_Z 1)) (Inches (Qc_of_Z 2)) (Inches (Qc_of_Z 8))
          (Inches (Qc_of_Z 5)) frame].

(** [_add_image_to_slide]: the picture it adds; [slide_number] is
    [len(self.prs.slides)]. *)
Definition _add_image_to_slide (slide_number : nat) (image_path : string)
    (position : string) : shape :=
  let position :=
    if decide (position = "smart") then
      if decide (slide_number mod 2 = 1)%nat then "right" else "left"
    else position in
  if decide (position = "left") then
    Picture image_path (Inches (dec 5 10)) (Inches (Qc_of_Z 2))
      (Inches (Qc_of_Z 4)) (Inches (Qc_of_Z 4))
  else if decide (position = "right") then
    Picture image_path (Inches (Qc_of_Z 6)) (Inches (Qc_of_Z 2))
      (Inches (Qc_of_Z 4)) (Inches (Qc_of_Z 4))
  else if decide (position = "center") then
    Picture image_path (Inches (Qc_of_Z 3)) (Inches (Qc_of_Z 5))
      (Inches (Qc_of_Z 4)) (Inches (dec 25 10))
  else if decide (position = "corner") then
    Picture image_path (Inches (dec 85 10)) (Inches (Qc_of_Z 6))
      (Inches (dec 15 10)) (Inches (dec 12 10))
  else
    Picture image_path (Inches (Qc_of_Z 6)) (Inches (Qc_of_Z 2))
      (Inches (Qc_of_Z 4)) (Inches (Qc_of_Z 4)).

(** *** Geometry *)

(** The frame of a shape: left, top, width, height. *)
Definition frame (s : shape) : Z * Z * Z * Z :=
  match s with
  | Picture _ l t w h => (l, t, w, h)
  | TextBox l t w h _ => (l, t, w, h)
  end.

Definition is_picture (s : shape) : bool :=
  match s with Picture _ _ _ _ _ => true | TextBox _ _ _ _ _ => false end.

(** The slide of the default template, 10 by 7.5 inches. *)
Definition page_width : Z := Inches (Qc_of_Z 10).
Definition page_height : Z := Inches (dec 75 10).

(** The shape lies on the page. *)
Definition on_page (s : shape) : Prop :=
  let '(l, t, w, h) := frame s in
  0 ≤ l ∧ 0 ≤ t ∧ l + w ≤ page_width ∧ t + h ≤ page_height.

(** The frames of two shapes share no area. *)
Definition apart (s1 s2 : shape) : Prop :=
  let '(l1, t1, w1, h1) := frame s1 in
  let '(l2, t2, w2, h2) := frame s2 in
  l1 + w1 ≤ l2 ∨ l2 + w2 ≤ l1 ∨ t1 + h1 ≤ t2 ∨ t2 + h2 ≤ t1.

(** The shape begins 1.5 inches down the page, or lower. *)
Definition below_title (s : shape) : Prop :=
  let '(_, t, _, _) := frame s in Inches (dec 15 10) ≤ t.

(** No two shapes of the list share area. *)
Definition all_apart (shapes : list shape) : Prop :=
  ∀ i j s1 s2, i ≠ j → shapes !! i = Some s1 → shapes !! j = Some s2 →
               apart s1 s2.

End Placement.

(* ===================================================================== *)
(** ** File names and rate limiting (security.py) *)
(* ===================================================================== *)

Module Security.






(** The instance state of [RateLimiter]; the request times are the
    values of [time.time()]. *)
Record RateLimiter := {
  max_requests : Z;
  time_window : Z;
  requests : gmap string (list Qc) }.

(** [__init__]. *)
Definition init (max_requests time_window : Z) : RateLimiter :=
  {| max_requests := max_requests; time_window := time_window;
     requests := ∅ |}.

(** [RateLimiter.is_allowed] when the clock reads [now]: the updated
    instance and the verdict. *)
Definition is_allowed (self : RateLimiter) (client_id : string) (now : Qc)
    : RateLimiter * bool :=
  let recorded := default [] (requests self !! client_id) in
  let kept :=
    filter (λ req_time, now - req_time < Qc_of_Z (time_window self))%Qc
      recorded in
  if decide (max_requests self ≤ Z.of_nat (length kept)) then
    ({| max_requests := max_requests self; time_window := time_window self;
        requests := <[client_id := kept]> (requests self) |}, false)
  else
    ({| max_requests := max_requests self; time_window := time_window self;
        requests := <[client_id := kept ++ [now]]> (requests self) |}, true).

(** The verdicts of a sequence of calls on one limiter, each call with
    its client and the reading of the clock. *)
Fixpoint serve (self : RateLimiter) (calls : list (string * Qc))
    : list bool :=
  match calls with
  | [] => []
  | (client_id, now) :: calls' =>
      let '(self', verdict) := is_allowed self client_id now in
      verdict :: serve self' calls'
  end.

(** Of the calls in [log], those of [client] that were allowed less
    than [window] before [now]. *)
Definition allowed_within (window : Z) (client : string) (now : Qc)
    (log : list (string * Qc * bool)) : list (string * Qc * bool) :=
  filter (λ e, e.1.1 = client ∧ e.2 = true
               ∧ (now - e.1.2 < Qc_of_Z window)%Qc) log.

(** The clock never goes back from one call to the next. *)
Definition clock_advances (calls : list (string * Qc)) : Prop :=
  ∀ i j ci ti cj tj,
    (i ≤ j)%nat → calls !! i = Some (ci, ti) → calls !! j = Some (cj, tj) →
    (ti ≤ tj)%Qc.

End Security.

(* ===================================================================== *)
(** ** The process flow (advanced_features.py) *)
(* ===================================================================== *)

Module Flow.
Import Placement Security.








End Flow.

(* ===================================================================== *)
(** * Properties *)
(* ===================================================================== *)

(** Closed goals over decimals, strings and finite maps are settled by
    evaluation. *)
Ltac by_evaluation :=
  repeat match goal with
         | |- _ ∧ _ => split
         | |- @eq Qc _ _ => apply Qc_is_canon
         | |- ¬ _ => let H := fresh in intros H
         end;
  vm_compute; first [reflexivity | lia | congruence | done].

(** ** Numbers *)

Section numbers.

(** Truncation never falls below an integer that the number reaches. *)
Lemma Qc_of_Z_le_int (n : Z) (x : Qc) : (Qc_of_Z n ≤ x)%Qc → n ≤ int x.
Proof.
  unfold Qcle, Qle, int. cbn. rewrite Z.mul_1_r. intros H.
  apply Z.quot_le_lower_bound; lia.
Qed.

Lemma Qc_of_Z_pos (n : Z) : 0 < n → (0 < Qc_of_Z n)%Qc.
Proof. intros H. rewrite <- Z2Qc_inj_0. by apply (proj1 (Z2Qc_inj_lt 0 n)). Qed.

(** Comparing two fractions of integers is comparing the cross
    products. *)
Lemma Qc_div_lt (a b c d : Z) :
  0 < b → 0 < d →
  (Qc_of_Z a / Qc_of_Z b < Qc_of_Z c / Qc_of_Z d)%Qc ↔ a * d < c * b.
Proof.
  intros Hb Hd.
  pose proof (Qc_of_Z_pos b Hb) as Hb'. pose proof (Qc_of_Z_pos d Hd) as Hd'.
  assert (Hbd : (0 < Qc_of_Z b * Qc_of_Z d)%Qc).
  { rewrite <- (Qcmult_0_l (Qc_of_Z d)). by apply Qcmult_lt_compat_r. }
  rewrite (Qcmult_lt_mono_pos_r _ _ _ Hbd).
  replace (Qc_of_Z a / Qc_of_Z b * (Qc_of_Z b * Qc_of_Z d))%Qc
    with (Qc_of_Z (a * d)).
  2:{ rewrite Z2Qc_inj_mul. field. by apply not_symmetry, Qclt_not_eq. }
  replace (Qc_of_Z c / Qc_of_Z d * (Qc_of_Z b * Qc_of_Z d))%Qc
    with (Qc_of_Z (c * b)).
  2:{ rewrite Z2Qc_inj_mul. field. by apply not_symmetry, Qclt_not_eq. }
  symmetry. apply Z2Qc_inj_lt.
Qed.

End numbers.

(** ** Layout strategy *)

Section layout.
Import Layout.

Lemma all_media_complete (m : media) : m ∈ all_media.
Proof. destruct m as [[] [] [] []]; vm_compute; set_solver. Qed.

(** C1. For each of the sixteen combinations of (has_charts,
    has_diagrams, has_content, has_photo) the layout chooser returns the
    tag that the priority table gives when read first-match-wins, with
    [content_only] when no row matches; no combination is left out. *)
Theorem C1_layout_follows_priority_table :
  (∀ has_charts has_diagrams has_content has_photo,
      _determine_layout_strategy has_charts has_diagrams has_content has_photo
      = choose_spec (Media has_charts has_diagrams has_content has_photo))
  ∧ length all_media = 16%nat
  ∧ NoDup all_media
  ∧ Forall (λ m, _determine_layout_strategy
                   (m_charts m) (m_diagrams m) (m_content m) (m_photo m)
                 = choose_spec m) all_media.
Proof.
  assert (Hall : ∀ c d t p,
    _determine_layout_strategy c d t p = choose_spec (Media c d t p)).
  { intros [] [] [] []; reflexivity. }
  split; [exact Hall|]. split; [reflexivity|]. split.
  - apply (bool_decide_unpack _). vm_compute. exact I.
  - apply Forall_forall. intros [c d t p] _. apply Hall.
Qed.

End layout.

(** ** Font sizes *)

Section font.
Import Font.

Lemma scaled_sizes_keys scale :
  (scaled_sizes scale).*1
  = [ "presentation_title"; "slide_title"; "subtitle"; "heading";
      "content_large"; "content_normal"; "content_small"; "bullet_main";
      "bullet_sub"; "caption" ].
Proof. reflexivity. Qed.

(** Every entry of the dict literal is found in the finished table, with
    the 10pt minimum applied. *)
Lemma sizes_lookup_entry w h k size :
  (k, size) ∈ scaled_sizes (scale_factor (_calculate_base_sizes w h)) →
  sizes (_calculate_base_sizes w h) !! k = Some (Z.max size 10).
Proof.
  intros Hin. cbn [sizes _calculate_base_sizes scale_factor] in *.
  rewrite lookup_fmap.
  erewrite (elem_of_list_to_map_1 (scaled_sizes _) k size); [done| |done].
  rewrite scaled_sizes_keys. apply (bool_decide_unpack _). vm_compute. exact I.
Qed.

Lemma sizes_lookup w h k :
  k ∈ (scaled_sizes (scale_factor (_calculate_base_sizes w h))).*1 →
  ∃ size, sizes (_calculate_base_sizes w h) !! k = Some (Z.max size 10).
Proof.
  intros Hk. apply list_elem_of_fmap in Hk as [[k' size] [-> Hin]].
  exists size. by apply sizes_lookup_entry.
Qed.

Lemma base_size_at_least_10 w h k :
  k ∈ (scaled_sizes (scale_factor (_calculate_base_sizes w h))).*1 →
  ∃ base, getitem (sizes (_calculate_base_sizes w h)) k = Ok base ∧ 10 ≤ base.
Proof.
  intros Hk. destruct (sizes_lookup w h k Hk) as [size Hsize].
  exists (Z.max size 10). unfold getitem. rewrite Hsize. split; [done|lia].
Qed.

Lemma content_key_in_table w h content_type :
  content_key content_type
  ∈ (scaled_sizes (scale_factor (_calculate_base_sizes w h))).*1.
Proof.
  rewrite scaled_sizes_keys. unfold content_key.
  repeat case_decide; set_solver.
Qed.

(** On a slide at least as large as the 10 x 7.5 reference the scale
    factor is at least 1. *)
Lemma scale_at_least_1 w h :
  (dec 10 1 ≤ w)%Qc → (dec 75 10 ≤ h)%Qc →
  (1 ≤ scale_factor (_calculate_base_sizes w h))%Qc.
Proof.
  intros Hw Hh. cbn [scale_factor _calculate_base_sizes].
  assert (Hdiv : ∀ x d : Qc, (0 < d)%Qc → (d ≤ x)%Qc → (1 ≤ x / d)%Qc).
  { intros x d Hd Hx. apply (Qcmult_le_mono_pos_r _ _ _ Hd).
    rewrite Qcmult_1_l, Qcmult_comm, Qcmult_div_r; [done|].
    by apply not_symmetry, Qclt_not_eq. }
  unfold Py.min. case_decide; apply Hdiv; try done; by vm_compute.
Qed.

(** There every content base size is at least 14pt. *)
Lemma content_base_at_least_14 w h content_type :
  (dec 10 1 ≤ w)%Qc → (dec 75 10 ≤ h)%Qc →
  ∃ base,
    getitem (sizes (_calculate_base_sizes w h)) (content_key content_type)
    = Ok base ∧ 14 ≤ base.
Proof.
  intros Hw Hh. pose proof (scale_at_least_1 w h Hw Hh) as Hscale.
  assert (Hint : ∀ n, 14 ≤ n →
    14 ≤ int (Qc_of_Z n * scale_factor (_calculate_base_sizes w h))).
  { intros n Hn. apply Qc_of_Z_le_int.
    eapply Qcle_trans; [apply (proj1 (Z2Qc_inj_le 14 n) Hn)|].
    rewrite <- (Qcmult_1_r (Qc_of_Z n)) at 1.
    apply Qcmult_le_mono_nonneg_l; [|done].
    rewrite <- Z2Qc_inj_0. apply (proj1 (Z2Qc_inj_le 0 n)). lia. }
  unfold content_key, getitem.
  repeat case_decide;
    (erewrite sizes_lookup_entry;
     [eexists; split; [reflexivity|]
     |unfold scaled_sizes;
      repeat first [apply list_elem_of_here|apply list_elem_of_further]]);
    (etrans; [apply Hint|apply Z.le_max_l]); lia.
Qed.

(** What [get_bullet_size] computes: the length adjustment is one point
    above 100, also above 150. *)
Lemma get_bullet_size_eq self c L base :
  getitem (sizes self) "bullet_main" = Ok base →
  get_bullet_size self c L
  = Ok (Z.max (base - (if 8 <? c then 2 else if 6 <? c then 1 else 0)
                    - (if 100 <? L then 1 else 0)) 11).
Proof.
  intros Hb. unfold get_bullet_size. rewrite Hb. cbn.
  destruct (8 <? c), (6 <? c), (100 <? L) eqn:H100, (150 <? L) eqn:H150;
    try (f_equal; lia).
  all: apply Z.ltb_lt in H150; apply Z.ltb_ge in H100; lia.
Qed.

(** What [get_content_size] computes from the selected base size. *)
Lemma get_content_size_eq self len content_type base :
  getitem (sizes self) (content_key content_type) = Ok base →
  get_content_size self len content_type
  = Ok (if 500 <? len then Z.max (base - 3) 11
        else if 300 <? len then Z.max (base - 2) 12
        else if 150 <? len then Z.max (base - 1) 13
        else base).
Proof.
  intros Hb. unfold get_content_size. rewrite Hb. cbn.
  by repeat case_match.
Qed.

(** C6. At the reference geometry, five bullets of average length 200
    get 14pt: the size table gives bullet-main 15pt and the code takes
    one point off, where the rule of the design document (two points
    above an average length of 150) gives 13pt. Up to an average length
    of 150 the code and the rule agree. *)
Theorem C6_bullet_size_above_150 :
  let self := _calculate_base_sizes (dec 10 1) (dec 75 10) in
  getitem (sizes self) "bullet_main" = Ok 15
  ∧ get_bullet_size self 5 200 = Ok 14
  ∧ bullet_size_spec 15 5 200 = 13
  ∧ (∀ c L, L ≤ 150 → get_bullet_size self c L = Ok (bullet_size_spec 15 c L)).
Proof.
  intros self.
  assert (Hb : getitem (sizes self) "bullet_main" = Ok 15) by (vm_compute; done).
  split; [done|]. split; [vm_compute; done|]. split; [done|].
  intros c L HL. rewrite (get_bullet_size_eq self c L 15 Hb).
  unfold bullet_size_spec.
  replace (150 <? L) with false by (symmetry; apply Z.ltb_ge; lia).
  done.
Qed.

(** C7 as stated fails: on a 5 x 3.75 inch slide the normal content
    base size is the 10pt minimum, a text of length 100 is set in 10pt
    and a longer text of length 200 in 13pt. *)
Lemma C7_counterexample :
  let self := _calculate_base_sizes (dec 5 1) (dec 375 100) in
  (0 < dec 5 1)%Qc ∧ (0 < dec 375 100)%Qc
  ∧ get_content_size self 100 "normal" = Ok 10
  ∧ get_content_size self 200 "normal" = Ok 13.
Proof. by_evaluation. Qed.

(** C7, amended. For every slide geometry: the content size is a
    positive integer and is non-increasing in the text length whenever
    the base size selected by the content type is at least 13pt, which
    is the case on every slide at least as large as the 10 x 7.5
    reference; the bullet size is a positive integer and is non-increasing
    in the bullet count. *)
Theorem C7_sizes_monotone (w h : Qc) (content_type : string)
    (len1 len2 count1 count2 avg_len : Z) :
  let self := _calculate_base_sizes w h in
  len1 ≤ len2 → count1 ≤ count2 →
  ∃ base size1 size2 bullet1 bullet2,
    getitem (sizes self) (content_key content_type) = Ok base
    ∧ get_content_size self len1 content_type = Ok size1
    ∧ get_content_size self len2 content_type = Ok size2
    ∧ get_bullet_size self count1 avg_len = Ok bullet1
    ∧ get_bullet_size self count2 avg_len = Ok bullet2
    ∧ (13 ≤ base → size2 ≤ size1)
    ∧ ((dec 10 1 ≤ w)%Qc → (dec 75 10 ≤ h)%Qc → 13 ≤ base)
    ∧ bullet2 ≤ bullet1
    ∧ 0 < size1 ∧ 0 < size2 ∧ 0 < bullet1 ∧ 0 < bullet2.
Proof.
  intros self Hlen Hcount.
  destruct (base_size_at_least_10 w h _ (content_key_in_table w h content_type))
    as (base & Hbase & Hge).
  destruct (base_size_at_least_10 w h "bullet_main") as (bm & Hbm & _).
  { rewrite scaled_sizes_keys. set_solver. }
  fold self in Hbase, Hbm.
  assert (Href : (dec 10 1 ≤ w)%Qc → (dec 75 10 ≤ h)%Qc → 13 ≤ base).
  { intros Hw Hh.
    destruct (content_base_at_least_14 w h content_type Hw Hh)
      as (base' & Hbase' & Hge').
    fold self in Hbase'. rewrite Hbase in Hbase'. injection Hbase' as <-. lia. }
  rewrite !(get_content_size_eq self _ _ base Hbase).
  rewrite !(get_bullet_size_eq self _ _ bm Hbm).
  eexists base, _, _, _, _.
  split; [exact Hbase|]. do 4 (split; [reflexivity|]).
  split; [|split; [exact Href|]];
    repeat match goal with
           | |- context [?a <? ?b] =>
               let E := fresh in destruct (Z.ltb_spec a b) as [E|E]
           end; lia.
Qed.

Lemma C7_sizes_monotone_witness :
  ∃ base size1 size2 bullet1 bullet2,
    let self := _calculate_base_sizes (dec 10 1) (dec 75 10) in
    getitem (sizes self) (content_key "normal") = Ok base
    ∧ get_content_size self 100 "normal" = Ok size1
    ∧ get_content_size self 200 "normal" = Ok size2
    ∧ get_bullet_size self 5 50 = Ok bullet1
    ∧ get_bullet_size self 9 50 = Ok bullet2
    ∧ (13 ≤ base → size2 ≤ size1)
    ∧ ((dec 10 1 ≤ dec 10 1)%Qc → (dec 75 10 ≤ dec 75 10)%Qc → 13 ≤ base)
    ∧ bullet2 ≤ bullet1
    ∧ 0 < size1 ∧ 0 < size2 ∧ 0 < bullet1 ∧ 0 < bullet2.
Proof.
  apply (C7_sizes_monotone (dec 10 1) (dec 75 10) "normal" 100 200 5 9 50); lia.
Defined.

End font.

(** ** Content signals *)

Section signals.
Import Advanced Examples.

(** C9 as stated fails: the numbers read from the example fragment are
    not 100, 150, 200, 180, even with their unit suffixes removed, and the
    chart drawn from them does not have 4 labels and 4 values. *)
Lemma C9_counterexample :
  omap clean_number (numbers_data (analyze_content quarterly))
    ≠ [100; 150; 200; 180]
  ∧ ¬ (∃ chart,
         _add_chart_to_slide None (analyze_content quarterly) = Some chart
         ∧ length (labels chart) = 4%nat
         ∧ length (data_points chart) = 4%nat).
Proof.
  split; [by vm_compute|].
  intros (chart & Hchart & Hlabels & _).
  vm_compute in Hchart. injection Hchart as <-. vm_compute in Hlabels. lia.
Qed.

(** C9, amended. On the example fragment the extractor returns the eight
    tokens 1, 100tr, 2, 150tr, 3, 200tr, 4, 180tr (the digits of the labels
    Q1..Q4 are numbers too, and the unit suffix stays on the token) and no
    chart type; the chart step keeps the first six tokens and draws a bar
    chart, the default when no chart type was found, with the six values
    1, 100, 2, 150, 3, 200 and the six labels Item 1 .. Item 6. *)
Theorem C9_quarterly_example (slide_title : option string) :
  numbers_data (analyze_content quarterly)
    = ["1"; "100tr"; "2"; "150tr"; "3"; "200tr"; "4"; "180tr"]
  ∧ has_numbers (analyze_content quarterly) = true
  ∧ chart_type (analyze_content quarterly) = None
  ∧ _fallback_advanced_layout slide_title [quarterly]
    = VChart (_add_chart_to_slide slide_title (analyze_content quarterly))
  ∧ _add_chart_to_slide slide_title (analyze_content quarterly)
    = Some {| kind := bar;
              data_points := [1; 100; 2; 150; 3; 200];
              labels := ["Item 1"; "Item 2"; "Item 3"; "Item 4"; "Item 5"; "Item 6"];
              chart_title := "Biểu đồ " +:+ default "Data" slide_title |}.
Proof.
  split; [vm_compute; reflexivity|].
  split; [vm_compute; reflexivity|].
  split; [vm_compute; reflexivity|].
  split; vm_compute; reflexivity.
Qed.

End signals.

(** ** The heuristic analysis *)

Section analysis.
Import Refiner Examples.

(** The analysis asks for clarification exactly when there are at most
    40 words and the long words, counted against one more than the number
    of words, exceed 15%. *)
Lemma analyze_clarify_iff text :
  action (_analyze_text_quality text) = clarify
  ↔ (length (split text) ≤ 40)%nat
    ∧ 3 * (Z.of_nat (length (split text)) + 1)
      < 20 * Z.of_nat (length (filter (λ w, 12 < String.length w)%nat
                                      (split text))).
Proof.
  unfold _analyze_text_quality.
  case_decide as Hlong; cbn [action].
  { split; [done|]. intros [? _]. lia. }
  replace (dec 15 100) with (Qc_of_Z 3 / Qc_of_Z 20)%Qc
    by (apply Qc_is_canon; vm_compute; reflexivity).
  rewrite length_app, length_fmap. cbn [length]. unfold Qc_of_nat.
  case_decide as Hshare; cbn [action];
    rewrite Qc_div_lt in Hshare by lia.
  - split; [|done]. intros _. split; lia.
  - split; [done|]. intros [_ ?]. lia.
Qed.

(** C8. The fragment "internationalization a b c d e" has six words, one
    of them longer than 12 characters: one word in six, more than 15%.
    The analysis divides the one long word by seven, the length of the
    word list extended by one element, and returns action none with
    score 1; in general it compares the long words with one more than the
    number of words. *)
Theorem C8_long_word_share_divides_by_one_more :
  split six_words = ["internationalization"; "a"; "b"; "c"; "d"; "e"]
  ∧ (length (split six_words) ≤ 40)%nat
  ∧ (dec 15 100 < long_word_fraction six_words)%Qc
  ∧ action (_analyze_text_quality six_words) = none
  ∧ score (_analyze_text_quality six_words) = 1%Qc
  ∧ (∀ text,
       action (_analyze_text_quality text) = clarify
       ↔ (length (split text) ≤ 40)%nat
         ∧ 3 * (Z.of_nat (length (split text)) + 1)
           < 20 * Z.of_nat (length (filter (λ w, 12 < String.length w)%nat
                                           (split text)))).
Proof.
  split; [by_evaluation|]. split; [by_evaluation|]. split; [by_evaluation|].
  split; [by_evaluation|]. split; [by_evaluation|].
  exact analyze_clarify_iff.
Qed.



End analysis.

(** ** The fallback refiner and the unavailable model *)

Section unavailable.
Import Refiner.

(** With [available] false the model-backed refiner hands the deck back
    as it is and sends nothing to the collaborator. *)
Lemma refine_content_unavailable self (data : deck) :
  available self = false → refine_content self data = Run [] (Ok data).
Proof. intros H. unfold refine_content. by rewrite H. Qed.

(** C2 as stated fails: the model-backed refiner whose model did not
    load ([available] false) returns a one-slide deck unchanged; the slide
    carries no quality score and the deck no statistics. *)
Lemma C2_counterexample :
  let self := {| available := false; device := "cpu"; generate := λ l, l |} in
  let slide : dict := {[ "content" := VStr "hello" ]} in
  let data : deck := {[ "slides" := ESlides [slide] ]} in
  refine_content self data = Run [] (Ok data)
  ∧ slides_of_deck data = [slide]
  ∧ slide !! "quality_score" = None
  ∧ data !! "bert_refinement_stats" = None.
Proof. by_evaluation. Qed.

(** C2, amended. The fallback refiner (the class that stands in when the
    model-backed module cannot be imported; its [available] flag is
    false), applied to any deck, leaves every slide field other than
    [quality_score] and [bert_refined] as it was, sets every slide's
    [quality_score] to 0.8 and [bert_refined] to false, leaves the other
    keys of the deck alone, and attaches statistics whose method is
    "rule-based". *)
Theorem C2_fallback_stamps_every_slide
    (self : Fallback.BertContentRefiner) (data : deck) :
  Fallback.refinement_stats self !! "method_used" = Some (VStr "rule-based") →
  deck_shape data →
  ∃ self' data' stats,
    Fallback.refine_content self data = Ok (self', data')
    ∧ Forall2 (λ slide slide',
                 slide' !! "quality_score" = Some (VNum (dec 8 10))
                 ∧ slide' !! "bert_refined" = Some (VBool false)
                 ∧ ∀ k, k ≠ "quality_score" → k ≠ "bert_refined" →
                        slide' !! k = slide !! k)
              (slides_of_deck data) (slides_of_deck data')
    ∧ (∀ k, k ≠ "slides" → k ≠ "bert_refinement_stats" → data' !! k = data !! k)
    ∧ data' !! "bert_refinement_stats" = Some (EDict stats)
    ∧ stats !! "method_used" = Some (VStr "rule-based")
    ∧ stats !! "total_slides"
      = Some (VNum (Qc_of_nat (length (slides_of_deck data))))
    ∧ Fallback.available self' = Fallback.available self.
Proof.
  intros Hmethod Hshape.
  assert (Hstamp : ∀ slides : list dict,
    Forall2 (λ slide slide',
               slide' !! "quality_score" = Some (VNum (dec 8 10))
               ∧ slide' !! "bert_refined" = Some (VBool false)
               ∧ ∀ k, k ≠ "quality_score" → k ≠ "bert_refined" →
                      slide' !! k = slide !! k)
            slides (Fallback.stamp <$> slides)).
  { intros slides. apply Forall2_fmap_r, Forall_Forall2_diag, Forall_forall.
    intros slide _. unfold Fallback.stamp. split; [|split].
    - by rewrite lookup_insert_ne, lookup_insert_eq.
    - by rewrite lookup_insert_eq.
    - intros k H1 H2. by rewrite !lookup_insert_ne. }
  unfold Fallback.refine_content, slides_of_deck.
  destruct Hshape as [Hnone|[slides Hslides]].
  - rewrite Hnone. cbn. eexists _, _, _. split; [reflexivity|].
    rewrite lookup_insert_ne, Hnone by done.
    split; [constructor|]. split.
    { intros k H1 H2. by rewrite lookup_insert_ne. }
    rewrite lookup_insert_eq. split; [done|].
    rewrite lookup_insert_ne by done. split; [done|].
    by rewrite lookup_insert_eq.
  - rewrite Hslides. cbn. eexists _, _, _. split; [reflexivity|].
    rewrite lookup_insert_ne, lookup_insert_eq by done.
    split; [apply Hstamp|]. split.
    { intros k H1 H2. by rewrite !lookup_insert_ne. }
    rewrite lookup_insert_eq. split; [done|].
    rewrite lookup_insert_ne by done. split; [done|].
    by rewrite lookup_insert_eq, length_fmap.
Qed.

Lemma C2_fallback_stamps_every_slide_witness :
  ∃ self' data' stats,
    Fallback.refine_content Fallback.init
      {[ "slides" := ESlides [ {[ "content" := VStr "hello" ]} ] ]}
    = Ok (self', data')
    ∧ data' !! "bert_refinement_stats" = Some (EDict stats)
    ∧ stats !! "method_used" = Some (VStr "rule-based").
Proof.
  destruct (C2_fallback_stamps_every_slide Fallback.init
              {[ "slides" := ESlides [ {[ "content" := VStr "hello" ]} ] ]})
    as (self' & data' & stats & H1 & _ & _ & H2 & H3 & _).
  - reflexivity.
  - right. eexists. reflexivity.
  - by exists self', data', stats.
Defined.

End unavailable.

(** ** Batching *)

Section batching.
Import Refiner.

Lemma calls_bind {A B} (m : M A) (f : A → M B) :
  calls (m ≫= f)
  = calls m ++ match outcome m with Ok a => calls (f a) | Raise _ => [] end.
Proof.
  unfold mbind, M_bind. destruct (outcome m); cbn; [done|].
  by rewrite app_nil_r.
Qed.

Lemma outcome_bind {A B} (m : M A) (f : A → M B) :
  outcome (m ≫= f)
  = match outcome m with Ok a => outcome (f a) | Raise e => Raise e end.
Proof. unfold mbind, M_bind. by destruct (outcome m). Qed.

(** Every prompt is the prefixed text of a fragment whose action is not
    [none]. *)
Lemma elem_of_prompts prompt texts actions :
  prompt ∈ prompts texts actions →
  ∃ t a, (t, a) ∈ zip texts actions ∧ a ≠ none ∧ prompt = prefixes a +:+ t.
Proof.
  unfold prompts. intros Hin.
  apply list_elem_of_fmap in Hin as [[t a] [-> Hin]].
  apply list_elem_of_filter in Hin as [Ha Hin]. by exists t, a.
Qed.

(** The batch function sends nothing, or the prompts in one request. *)
Lemma batch_calls self texts actions :
  calls (refine_content_batch self texts actions) = []
  ∨ calls (refine_content_batch self texts actions) = [prompts texts actions].
Proof.
  unfold refine_content_batch.
  destruct (negb (available self) || bool_decide (texts = [])); [by left|].
  case_decide; [by left|]. right. by rewrite calls_bind.
Qed.

(** The answers are mapped back position by position: a fragment whose
    action is [none] keeps its text. *)
Lemma map_back_none texts refined_texts actions :
  ∀ i refined_idx results j t,
    map_back texts refined_texts i refined_idx actions = Ok results →
    actions !! j = Some none →
    texts !! (i + j)%nat = Some t →
    results !! j = Some t.
Proof.
  induction actions as [|a actions IH]; intros i ri results j t Hrun Ha Ht;
    [done|].
  cbn in Hrun. case_decide as Hne.
  - destruct (index refined_texts ri) as [x|]; [|done]. cbn in Hrun.
    destruct (map_back texts refined_texts (S i) (S ri) actions) as [rest|] eqn:E;
      [|done].
    cbn in Hrun. injection Hrun as <-.
    destruct j as [|j]; [cbn in Ha; congruence|].
    cbn. eapply IH; [exact E|exact Ha|].
    by replace (S i + j)%nat with (i + S j)%nat by lia.
  - unfold index in Hrun.
    destruct (texts !! i) as [x|] eqn:Hx; [|done]. cbn in Hrun.
    destruct (map_back texts refined_texts (S i) ri actions) as [rest|] eqn:E;
      [|done].
    cbn in Hrun. injection Hrun as <-.
    destruct j as [|j].
    + cbn. rewrite Nat.add_0_r in Ht. congruence.
    + cbn. eapply IH; [exact E|exact Ha|].
      by replace (S i + j)%nat with (i + S j)%nat by lia.
Qed.

(** The mapping back succeeds when there is a text for every action and
    an answer for every action that is not [none]. *)
Lemma map_back_total texts refined_texts actions :
  ∀ i refined_idx,
    (i + length actions ≤ length texts)%nat →
    (refined_idx + length (filter (λ a, a ≠ none) actions)
     ≤ length refined_texts)%nat →
    ∃ results,
      map_back texts refined_texts i refined_idx actions = Ok results
      ∧ length results = length actions.
Proof.
  induction actions as [|a actions IH]; intros i ri Htexts Hrefined.
  { by exists []. }
  cbn in Htexts. cbn. rewrite filter_cons in Hrefined.
  case_decide as Hne.
  - cbn in Hrefined.
    destruct (lookup_lt_is_Some_2 refined_texts ri) as [x Hx]; [lia|].
    destruct (IH (S i) (S ri)) as (rest & Hrest & Hlen); [lia|lia|].
    unfold index. rewrite Hx. cbn. rewrite Hrest. cbn.
    eexists. split; [done|]. cbn. by rewrite Hlen.
  - destruct (lookup_lt_is_Some_2 texts i) as [x Hx]; [lia|].
    destruct (IH (S i) ri) as (rest & Hrest & Hlen); [lia|lia|].
    unfold index. rewrite Hx. cbn. rewrite Hrest. cbn.
    eexists. split; [done|]. cbn. by rewrite Hlen.
Qed.

Lemma prompts_length texts actions :
  length texts = length actions →
  length (prompts texts actions) = length (filter (λ a, a ≠ none) actions).
Proof.
  unfold prompts. rewrite length_fmap. revert actions.
  induction texts as [|t texts IH]; intros [|a actions] Hlen; try done.
  cbn in Hlen. cbn [zip zip_with]. rewrite !filter_cons. cbn.
  case_decide; cbn; rewrite IH; auto with lia.
Qed.

(** The batch function returns one text per fragment when the
    collaborator answers every prompt. *)
Lemma batch_total self texts actions :
  length texts = length actions →
  length (generate self (prompts texts actions))
  = length (prompts texts actions) →
  ∃ results,
    outcome (refine_content_batch self texts actions) = Ok results
    ∧ length results = length texts.
Proof.
  intros Hlen Hgen. unfold refine_content_batch.
  destruct (negb (available self) || bool_decide (texts = [])).
  { by exists texts. }
  case_decide. { by exists texts. }
  rewrite outcome_bind. cbn.
  destruct (map_back_total texts (generate self (prompts texts actions))
              actions 0 0) as (results & Hres & Hl).
  - lia.
  - rewrite Hgen, prompts_length by done. lia.
  - exists results. split; [done|]. lia.
Qed.

Lemma batch_none self texts actions results i t :
  outcome (refine_content_batch self texts actions) = Ok results →
  actions !! i = Some none →
  texts !! i = Some t →
  results !! i = Some t.
Proof.
  unfold refine_content_batch.
  destruct (negb (available self) || bool_decide (texts = [])).
  { cbn. by intros [= <-]. }
  case_decide. { cbn. by intros [= <-]. }
  rewrite outcome_bind. cbn. intros Hrun Ha Ht.
  by eapply map_back_none.
Qed.

(** Every collected fragment carries the analysis of its own text. *)
Lemma collect_slide_analysis i slide frags :
  collect_slide i slide = Ok frags →
  Forall (λ f, analysis f = _analyze_text_quality (text f)) frags.
Proof.
  unfold collect_slide. intros Hrun.
  destruct (truthy _) eqn:Htruthy.
  - destruct (default (VStr "") (slide !! "content")) as [| | |s|] eqn:Hc;
      try done.
    cbn in Hrun.
    destruct (iterate _) as [bullets|]; [|done]. cbn in Hrun.
    injection Hrun as <-. constructor; [done|].
    apply Forall_forall. intros f Hf. unfold bullet_fragments in Hf.
    apply elem_of_lookup_imap in Hf as (j & b & -> & _). done.
  - cbn in Hrun.
    destruct (iterate _) as [bullets|]; [|done]. cbn in Hrun.
    injection Hrun as <-.
    apply Forall_forall. intros f Hf. unfold bullet_fragments in Hf.
    apply elem_of_lookup_imap in Hf as (j & b & -> & _). done.
Qed.

Lemma collect_analysis slides :
  ∀ i frags,
    collect i slides = Ok frags →
    Forall (λ f, analysis f = _analyze_text_quality (text f)) frags.
Proof.
  induction slides as [|slide slides IH]; intros i frags Hrun; cbn in Hrun.
  { injection Hrun as <-. constructor. }
  destruct (collect_slide i slide) as [here|] eqn:Hhere; [|done].
  cbn in Hrun.
  destruct (collect (S i) slides) as [later|] eqn:Hlater; [|done].
  cbn in Hrun. injection Hrun as <-.
  apply Forall_app. split; [by eapply collect_slide_analysis|by eapply IH].
Qed.

(** What one invocation of [refine_content] sends: nothing, or the
    prompts of the collected fragments in one request. *)
Lemma refine_content_calls self (data : deck) :
  calls (refine_content self data) = []
  ∨ ∃ slides frags,
      collect 0 slides = Ok frags
      ∧ calls (refine_content self data)
        = [prompts (text <$> frags) ((λ f, action (analysis f)) <$> frags)].
Proof.
  unfold refine_content.
  destruct (negb (available self)); [by left|].
  destruct (data !! "slides") as [[v|[|slide slides]|d]|]; try by left.
  - destruct (truthy v); by left.
  - unfold refine_slides. rewrite calls_bind. cbn [lift calls outcome].
    destruct (collect 0 (slide :: slides)) as [frags|] eqn:Hfrags; [|by left].
    rewrite calls_bind. cbn [app].
    destruct (batch_calls self (text <$> frags)
                ((λ f, action (analysis f)) <$> frags)) as [Hc|Hc].
    + rewrite Hc. cbn [app].
      destruct (outcome (refine_content_batch _ _ _)); [|by left].
      rewrite calls_bind. cbn [lift calls outcome app].
      destruct (update_loop _ _ _ _ _); [|by left].
      rewrite calls_bind. cbn [lift calls outcome app].
      destruct (finalize _ _) as [[? ?]|]; by left.
    + right. exists (slide :: slides), frags. split; [done|].
      rewrite Hc. cbn [app].
      destruct (outcome (refine_content_batch _ _ _)); [|done].
      rewrite calls_bind. cbn [lift calls outcome app].
      destruct (update_loop _ _ _ _ _); [|done].
      rewrite calls_bind. cbn [lift calls outcome app].
      destruct (finalize _ _) as [[? ?]|]; done.
  - case_decide; by left.
Qed.

(** C5. One invocation of [refine_content], on any deck, sends at most
    one request to the generative collaborator, and every prompt in it is
    the prefixed text of a fragment whose analysis asks for a rewrite. The
    batch function likewise sends at most one request, made of exactly
    those prompts; in its result a fragment whose action is [none] stands
    unchanged at its own position, and the result has one text per
    fragment whenever the collaborator answers every prompt. *)
Theorem C5_one_batched_request self (data : deck) :
  (length (calls (refine_content self data)) ≤ 1)%nat
  ∧ (∀ batch prompt,
       batch ∈ calls (refine_content self data) → prompt ∈ batch →
       ∃ t, action (_analyze_text_quality t) ≠ none
            ∧ prompt = prefixes (action (_analyze_text_quality t)) +:+ t)
  ∧ (∀ texts actions,
       (length (calls (refine_content_batch self texts actions)) ≤ 1)%nat
       ∧ ∀ batch, batch ∈ calls (refine_content_batch self texts actions) →
                  batch = prompts texts actions)
  ∧ (∀ texts actions results i t,
       outcome (refine_content_batch self texts actions) = Ok results →
       actions !! i = Some none →
       texts !! i = Some t →
       results !! i = Some t)
  ∧ (∀ texts actions,
       length texts = length actions →
       length (generate self (prompts texts actions))
       = length (prompts texts actions) →
       ∃ results,
         outcome (refine_content_batch self texts actions) = Ok results
         ∧ length results = length texts).
Proof.
  split; [|split; [|split; [|split]]].
  - destruct (refine_content_calls self data) as [->|(? & ? & _ & ->)];
      cbn; lia.
  - intros batch prompt Hbatch Hprompt.
    destruct (refine_content_calls self data)
      as [Hc|(slides & frags & Hfrags & Hc)]; rewrite Hc in Hbatch.
    { by apply elem_of_nil in Hbatch. }
    apply list_elem_of_singleton in Hbatch as ->.
    apply elem_of_prompts in Hprompt as (t & a & Hin & Hne & ->).
    apply list_elem_of_lookup in Hin as [j Hj].
    apply lookup_zip_with_Some in Hj as (t' & a' & [= <- <-] & Ht & Ha).
    rewrite list_lookup_fmap in Ht. rewrite list_lookup_fmap in Ha.
    destruct (frags !! j) as [f|] eqn:Hf; [|done].
    cbn in Ht, Ha. injection Ht as <-. injection Ha as <-.
    pose proof (collect_analysis _ _ _ Hfrags) as Hall.
    rewrite Forall_forall in Hall.
    specialize (Hall f (list_elem_of_lookup_2 _ _ _ Hf)).
    exists (text f). by rewrite <- Hall.
  - intros texts actions.
    destruct (batch_calls self texts actions) as [->| ->]; cbn.
    + split; [lia|]. intros batch Hb. by apply elem_of_nil in Hb.
    + split; [lia|]. intros batch Hb. by apply list_elem_of_singleton in Hb.
  - intros texts actions results i t. apply batch_none.
  - intros texts actions. apply batch_total.
Qed.

End batching.

(** Case analysis on the first step of a computation that returned. *)
Ltac step_ok H :=
  match type of H with
  | (?m ≫= _) = Ok _ =>
      let E := fresh "E" in
      destruct m eqn:E; [cbn [mbind result_bind] in H|discriminate H]
  end.

(** Case analysis on the first step of a deck computation that
    returned. *)
Ltac step_M H :=
  rewrite outcome_bind in H;
  match type of H with
  | match Refiner.outcome ?m with _ => _ end = Ok _ =>
      let E := fresh "E" in
      destruct (Refiner.outcome m) eqn:E; [|discriminate H]
  end.

(** ** Decks in the outline's own field names *)

Section outline.
Import Refiner.

Lemma outline_slide_lookup (slide : dict) k :
  dom slide ⊆ outline_fields → k ∉ outline_fields → slide !! k = None.
Proof. intros Hdom Hk. apply not_elem_of_dom. set_solver. Qed.

Lemma collect_no_text slides :
  ∀ i,
    Forall (λ slide : dict,
              slide !! "content" = None ∧ slide !! "bullet_points" = None)
           slides →
    collect i slides = Ok [].
Proof.
  induction slides as [|slide slides IH]; intros i Hall; [done|].
  apply Forall_cons in Hall as [[Hc Hb] Hall]. cbn.
  unfold collect_slide. rewrite Hc, Hb. cbn. by rewrite IH.
Qed.

Lemma Qc_of_nat_S n : Qc_of_nat (S n) = (1 + Qc_of_nat n)%Qc.
Proof.
  unfold Qc_of_nat. rewrite Nat2Z.inj_succ, <- Z.add_1_l, Z2Qc_inj_add.
  by rewrite Z2Qc_inj_1.
Qed.

Lemma Qc_of_nat_0 : Qc_of_nat 0 = 0%Qc.
Proof. apply Z2Qc_inj_0. Qed.

Lemma Qc_of_nat_pos n : n ≠ 0%nat → (0 < Qc_of_nat n)%Qc.
Proof.
  intros Hn. rewrite <- Z2Qc_inj_0. unfold Qc_of_nat.
  apply (proj1 (Z2Qc_inj_lt 0 (Z.of_nat n))). lia.
Qed.

(** Slides that carry no score all leave the closing loop with 1.0. *)
Lemma finalize_fresh slides :
  ∀ total,
    Forall (λ slide : dict, slide !! "quality_score" = None) slides →
    finalize slides total
    = Ok (<["quality_score" := VNum 1%Qc]> <$> slides,
          (total + Qc_of_nat (length slides))%Qc).
Proof.
  induction slides as [|slide slides IH]; intros total Hall.
  { cbn. by rewrite Qc_of_nat_0, Qcplus_0_r. }
  apply Forall_cons in Hall as [Hq Hall]. cbn [finalize].
  rewrite Hq. cbn [default]. unfold floor_quality. cbn [number_of mbind result_bind].
  case_decide as Hlt; [|exfalso; apply Hlt; by vm_compute].
  cbn [number_of mbind result_bind]. rewrite IH by done. cbn.
  by rewrite Qc_of_nat_S, Qcplus_assoc.
Qed.

(** C10 as stated fails on the deck without slides: [refine_content]
    returns it as it is, and no statistics are attached that could report
    the counts or the average. *)
Lemma C10_counterexample :
  let self := {| available := true; device := "cpu"; generate := λ l, l |} in
  let data : deck := {[ "slides" := ESlides [] ]} in
  Forall (λ slide : dict, dom slide ⊆ outline_fields) (slides_of_deck data)
  ∧ refine_content self data = Run [] (Ok data)
  ∧ data !! "bert_refinement_stats" = None.
Proof. split; [by constructor|]. by_evaluation. Qed.

(** C10, amended. For every deck with at least one slide whose slides
    carry only field names of the outline (so neither [content] nor
    [bullet_points]), [refine_content] with an available collaborator
    collects no fragment and sends nothing to the collaborator: every
    slide comes back as it was except for [quality_score], set to 1.0;
    no [bert_refined] or [bert_suggestions] key is added; the statistics
    report 0 improved contents, 0 improved bullets and average quality
    1.0. *)
Theorem C10_outline_deck_is_not_rewritten self (data : deck) (slides : list dict) :
  available self = true →
  data !! "slides" = Some (ESlides slides) →
  slides ≠ [] →
  Forall (λ slide : dict, dom slide ⊆ outline_fields) slides →
  ∃ stats,
    collect 0 slides = Ok []
    ∧ calls (refine_content self data) = []
    ∧ outcome (refine_content self data)
      = Ok (<["bert_refinement_stats" := EDict stats]>
              (<["slides" := ESlides (<["quality_score" := VNum 1%Qc]> <$> slides)]>
                 data))
    ∧ Forall (λ slide' : dict,
                slide' !! "quality_score" = Some (VNum 1%Qc)
                ∧ slide' !! "bert_refined" = None
                ∧ slide' !! "bert_suggestions" = None)
             (<["quality_score" := VNum 1%Qc]> <$> slides)
    ∧ stats !! "improved_content" = Some (VNum 0%Qc)
    ∧ stats !! "improved_bullets" = Some (VNum 0%Qc)
    ∧ stats !! "average_quality" = Some (VNum 1%Qc).
Proof.
  intros Havail Hslides Hne Hdom.
  assert (Hkeys : ∀ k, k ∉ outline_fields →
            Forall (λ slide : dict, slide !! k = None) slides).
  { intros k Hk. eapply Forall_impl; [exact Hdom|].
    intros slide Hs. by apply outline_slide_lookup. }
  assert (Hc : Forall (λ slide : dict, slide !! "content" = None) slides)
    by (apply Hkeys; by vm_compute).
  assert (Hb : Forall (λ slide : dict, slide !! "bullet_points" = None) slides)
    by (apply Hkeys; by vm_compute).
  assert (Hq : Forall (λ slide : dict, slide !! "quality_score" = None) slides)
    by (apply Hkeys; by vm_compute).
  assert (Hr : Forall (λ slide : dict, slide !! "bert_refined" = None) slides)
    by (apply Hkeys; by vm_compute).
  assert (Hs : Forall (λ slide : dict, slide !! "bert_suggestions" = None) slides)
    by (apply Hkeys; by vm_compute).
  assert (Hcollect : collect 0 slides = Ok []).
  { apply collect_no_text. rewrite Forall_forall in Hc, Hb.
    apply Forall_forall. auto. }
  assert (Hstamped :
    Forall (λ slide' : dict,
              slide' !! "quality_score" = Some (VNum 1%Qc)
              ∧ slide' !! "bert_refined" = None
              ∧ slide' !! "bert_suggestions" = None)
           (<["quality_score" := VNum 1%Qc]> <$> slides)).
  { apply Forall_fmap, Forall_forall. intros s Hin. cbn.
    rewrite Forall_forall in Hr, Hs.
    rewrite lookup_insert_eq, !lookup_insert_ne by done. auto. }
  eexists. split; [exact Hcollect|].
  unfold refine_content. rewrite Havail, Hslides. cbn [negb].
  destruct slides as [|slide slides]; [done|].
  unfold refine_slides. rewrite Hcollect.
  cbn [lift mbind M_bind outcome calls fmap list_fmap app].
  unfold refine_content_batch. rewrite Havail. cbn [negb orb].
  rewrite bool_decide_eq_true_2 by done.
  cbn [mret M_ret lift mbind M_bind outcome calls app update_loop slides_of].
  rewrite (finalize_fresh (slide :: slides) 0%Qc Hq).
  cbn [lift mbind M_bind outcome calls app mret M_ret].
  split; [done|]. split; [reflexivity|]. split; [exact Hstamped|].
  unfold make_stats. cbn [improved_content_slides improved_bullets_slides].
  rewrite size_empty, Qc_of_nat_0.
  split; [by rewrite lookup_insert_ne, lookup_insert_ne, lookup_insert_eq|].
  split; [by rewrite lookup_insert_ne, lookup_insert_eq|].
  rewrite lookup_insert_eq. do 2 f_equal.
  rewrite length_fmap. case_decide as Hn; [|done].
  rewrite Qcplus_0_l. unfold Qcdiv. apply Qcmult_inv_r.
  apply not_symmetry, Qclt_not_eq, Qc_of_nat_pos. done.
Qed.

Lemma C10_outline_deck_is_not_rewritten_witness :
  ∃ stats,
    outcome (refine_content
               {| available := true; device := "cpu"; generate := λ l, l |}
               {[ "slides" := ESlides [ {[ "slide_title" := VStr "Plan" ]} ] ]})
    = Ok (<["bert_refinement_stats" := EDict stats]>
            (<["slides" :=
                 ESlides [ <["quality_score" := VNum 1%Qc]>
                             {[ "slide_title" := VStr "Plan" ]} ]]>
               {[ "slides" := ESlides [ {[ "slide_title" := VStr "Plan" ]} ] ]}))
    ∧ stats !! "average_quality" = Some (VNum 1%Qc).
Proof.
  destruct (C10_outline_deck_is_not_rewritten
              {| available := true; device := "cpu"; generate := λ l, l |}
              {[ "slides" := ESlides [ {[ "slide_title" := VStr "Plan" ]} ] ]}
              [ {[ "slide_title" := VStr "Plan" ]} ])
    as (stats & _ & _ & Hout & _ & _ & _ & Havg).
  - reflexivity.
  - reflexivity.
  - discriminate.
  - constructor; [|constructor]. rewrite dom_singleton_L.
    apply singleton_subseteq_l. by vm_compute.
  - exists stats. split; [exact Hout|exact Havg].
Defined.

End outline.

(** ** Quality scores *)

Section quality.
Import Refiner Contract Invariants.












(** *** No exception on decks of the documented shape *)










End quality.

(** ** Running the refiner again *)

Section rerun.
Import Refiner Contract Invariants Examples.

(** A rewrite keeps a bullet shadow that is already there. *)
Lemma apply_rewrite_shadow slide original_text refined_text info slide' :
  apply_rewrite slide original_text refined_text info = Ok slide' →
  same_bullet_shadow slide slide'.
Proof.
  unfold apply_rewrite. intros Hrun v Hv. do 2 step_ok Hrun.
  destruct (field info) as [|j].
  - injection Hrun as <-. by rewrite !lookup_insert_ne.
  - rewrite !lookup_insert_ne in Hrun by done. rewrite Hv in Hrun.
    cbn [mbind result_bind] in Hrun. do 2 step_ok Hrun.
    injection Hrun as <-. by rewrite !lookup_insert_ne.
Qed.

Lemma update_fragment_shadow st original_text refined_text info st' :
  update_fragment st original_text refined_text info = Ok st' →
  Forall2 same_bullet_shadow (slides_of st) (slides_of st').
Proof.
  unfold update_fragment, index. intros Hrun.
  destruct (slides_of st !! slide_index info) as [slide|] eqn:Hslide; [|done].
  cbn [mbind result_bind] in Hrun.
  step_ok Hrun. rename a into rewritten, E into Hrewritten.
  assert (Hshadow : same_bullet_shadow slide rewritten).
  { intros v Hv. destruct (changed _ _ _).
    - apply (apply_rewrite_shadow _ _ _ _ _ Hrewritten).
      by rewrite !lookup_insert_ne.
    - injection Hrewritten as <-. by rewrite !lookup_insert_ne. }
  do 2 step_ok Hrun. injection Hrun as <-. cbn [slides_of].
  rewrite <- (list_insert_id (slides_of st) (slide_index info) slide) at 1
    by done.
  apply Forall2_insert.
  - apply Forall_Forall2_diag, Forall_forall. by intros ? _ ?.
  - intros v Hv. rewrite lookup_insert_ne by done. by apply Hshadow.
Qed.

Lemma same_bullet_shadow_trans (l1 l2 l3 : list dict) :
  Forall2 same_bullet_shadow l1 l2 →
  Forall2 same_bullet_shadow l2 l3 →
  Forall2 same_bullet_shadow l1 l3.
Proof.
  intros H12. revert l3.
  induction H12 as [|s1 s2 l1 l2 Hs _ IH]; intros l3 H23;
    inversion H23 as [|? s3 ? l3' Hs' H23']; subst; constructor.
  - intros v Hv. by apply Hs', Hs.
  - by apply IH.
Qed.

Lemma update_loop_shadow infos :
  ∀ st texts refined_texts i st',
    update_loop st texts refined_texts i infos = Ok st' →
    Forall2 same_bullet_shadow (slides_of st) (slides_of st').
Proof.
  induction infos as [|info infos IH]; intros st texts refined_texts i st' Hrun;
    cbn in Hrun.
  { injection Hrun as <-. apply Forall_Forall2_diag, Forall_forall.
    by intros ? _ ?. }
  do 3 step_ok Hrun.
  eapply same_bullet_shadow_trans;
    [by eapply update_fragment_shadow|by eapply IH].
Qed.

(** The closing loop leaves every slide with a score not below 0.1 and
    changes no other key. *)
Lemma finalize_floor slides :
  ∀ running slides' running',
    finalize slides running = Ok (slides', running') →
    Forall at_least_floor slides'
    ∧ Forall2 (λ slide slide' : dict,
                 ∀ k, k ≠ "quality_score" → slide' !! k = slide !! k)
              slides slides'.
Proof.
  induction slides as [|slide slides IH]; intros running slides' running' Hrun;
    cbn in Hrun.
  { injection Hrun as <- <-. split; constructor. }
  step_ok Hrun. rename a into quality, E into Hfloor.
  step_ok Hrun. rename a into q, E into Hq.
  step_ok Hrun. destruct a as [rest running'']. injection Hrun as <- <-.
  destruct (IH _ _ _ E) as [Hall Hother].
  split; constructor; try done.
  - exists quality, q. rewrite lookup_insert_eq. split; [done|].
    split; [done|]. unfold floor_quality in Hfloor.
    step_ok Hfloor. injection Hfloor as <-.
    case_decide as Hlt.
    + rewrite E0 in Hq. injection Hq as <-. by apply Qclt_le_weak.
    + cbn in Hq. injection Hq as <-. apply Qcle_refl.
  - intros k Hk. by rewrite lookup_insert_ne.
Qed.

(** Steps 1 to 3 leave bullet shadows alone and respect the floor. *)
Lemma refine_slides_rerun self (data : deck) slides data' :
  outcome (refine_slides self data slides) = Ok data' →
  Forall2 same_bullet_shadow slides (slides_of_deck data')
  ∧ Forall at_least_floor (slides_of_deck data').
Proof.
  intros Hrun. unfold refine_slides in Hrun.
  step_M Hrun. rename a into frags.
  step_M Hrun. rename a into refined_texts.
  step_M Hrun. rename a into st, E1 into Hloop. cbn [lift outcome] in Hloop.
  step_M Hrun. destruct a as [slides' running]. rename E1 into Hfinal.
  cbn [lift outcome] in Hfinal. cbn in Hrun. injection Hrun as <-.
  unfold slides_of_deck. rewrite lookup_insert_ne, lookup_insert_eq by done.
  apply update_loop_shadow in Hloop. cbn [slides_of] in Hloop.
  destruct (finalize_floor _ _ _ _ Hfinal) as [Hfloor Hother].
  split; [|done].
  eapply same_bullet_shadow_trans; [exact Hloop|].
  eapply Forall2_impl; [exact Hother|].
  intros slide slide' Hk v Hv. by rewrite Hk.
Qed.

(** Whatever the deck and the collaborator: an invocation that returns
    keeps every bullet shadow that was there before it. *)
Lemma refine_content_keeps_bullet_shadow self (data data' : deck) :
  outcome (refine_content self data) = Ok data' →
  Forall2 same_bullet_shadow (slides_of_deck data) (slides_of_deck data').
Proof.
  assert (Hsame : ∀ l : list dict, Forall2 same_bullet_shadow l l).
  { intros l. apply Forall_Forall2_diag, Forall_forall. by intros ? _ ?. }
  unfold refine_content. intros Hrun.
  destruct (negb (available self)).
  { cbn in Hrun. injection Hrun as <-. apply Hsame. }
  destruct (data !! "slides") as [[v|[|slide slides]|d]|] eqn:Hslides.
  - destruct (truthy v); [done|]. cbn in Hrun. injection Hrun as <-.
    apply Hsame.
  - cbn in Hrun. injection Hrun as <-. apply Hsame.
  - apply refine_slides_rerun in Hrun as [Hshadow _].
    unfold slides_of_deck at 1. by rewrite Hslides.
  - case_decide; [|done]. cbn in Hrun. injection Hrun as <-. apply Hsame.
  - cbn in Hrun. injection Hrun as <-. apply Hsame.
Qed.

(** An invocation of the available refiner on a deck with slides leaves
    no score below 0.1, whatever the scores were before. *)
Lemma refine_content_floor self (data data' : deck) :
  available self = true →
  slides_of_deck data ≠ [] →
  outcome (refine_content self data) = Ok data' →
  Forall at_least_floor (slides_of_deck data').
Proof.
  unfold refine_content, slides_of_deck at 1. intros -> Hne Hrun.
  cbn [negb] in Hrun.
  destruct (data !! "slides") as [[v|[|slide slides]|d]|]; try done.
  by apply refine_slides_rerun in Hrun as [_ Hfloor].
Qed.

(** C4. A slide whose content is the one word "internationalization" is
    refined twice with a collaborator that echoes its prompt. The first
    call stores the word under [original_content]; the second call
    rewrites the content again and stores the already refined text
    "make it clear: internationalization" under [original_content], so
    the text from before the first rewrite is lost. The bullet shadow
    [original_bullet_points], written behind a guard, holds the first
    list after both calls, as it does on every deck; and no call leaves a
    score below 0.1. *)
Theorem C4_second_call_overwrites_content_shadow :
  slide_field (refine_content echo long_word_deck) 0 "original_content"
    = Some (VStr "internationalization")
  ∧ slide_field (refine_content echo long_word_deck) 0 "content"
    = Some (VStr "make it clear: internationalization")
  ∧ slide_field (refine_twice echo long_word_deck) 0 "original_content"
    = Some (VStr "make it clear: internationalization")
  ∧ slide_field (refine_content echo long_word_deck) 0 "original_bullet_points"
    = Some (VList ["short one"; "internationalization again"])
  ∧ slide_field (refine_twice echo long_word_deck) 0 "original_bullet_points"
    = Some (VList ["short one"; "internationalization again"])
  ∧ (∃ q, slide_field (refine_twice echo long_word_deck) 0 "quality_score"
          = Some (VNum q) ∧ (dec 1 10 ≤ q)%Qc)
  ∧ (∀ self (data data' : deck),
       outcome (refine_content self data) = Ok data' →
       Forall2 same_bullet_shadow (slides_of_deck data) (slides_of_deck data'))
  ∧ (∀ self (data data' : deck),
       available self = true → slides_of_deck data ≠ [] →
       outcome (refine_content self data) = Ok data' →
       Forall at_least_floor (slides_of_deck data')).
Proof.
  split; [vm_compute; reflexivity|].
  split; [vm_compute; reflexivity|].
  split; [vm_compute; reflexivity|].
  split; [vm_compute; reflexivity|].
  split; [vm_compute; reflexivity|].
  split.
  { eexists. split; [vm_compute; reflexivity|]. vm_compute. congruence. }
  split.
  - exact refine_content_keeps_bullet_shadow.
  - exact refine_content_floor.
Qed.

End rerun.

(* ===================================================================== *)
(** * Further properties *)
(* ===================================================================== *)

(** ** The size table *)

Section size_table.
Import Font Typography.

(** Truncation of a fraction does not depend on how it is written. *)
Lemma quot_cross (a c : Z) (b d : positive) :
  a * Z.pos d = c * Z.pos b → Z.quot a (Z.pos b) = Z.quot c (Z.pos d).
Proof.
  intros H.
  rewrite <- (Z.quot_mul_cancel_r a (Z.pos b) (Z.pos d)) by lia.
  rewrite <- (Z.quot_mul_cancel_r c (Z.pos d) (Z.pos b)) by lia.
  rewrite H. f_equal. lia.
Qed.

Lemma int_Q2Qc (q : Q) : int (Q2Qc q) = Z.quot (Qnum q) (Z.pos (Qden q)).
Proof.
  unfold int. cbn [Q2Qc this]. apply quot_cross.
  pose proof (Qred_correct q) as H. unfold Qeq in H. exact H.
Qed.

(** Truncation toward zero is monotone. *)
Lemma int_mono (x y : Qc) : (x ≤ y)%Qc → int x ≤ int y.
Proof.
  unfold Qcle, Qle, int.
  destruct (this x) as [a b], (this y) as [c d]. cbn. intros H.
  rewrite <- (Z.quot_mul_cancel_r a (Z.pos b) (Z.pos d)) by lia.
  rewrite <- (Z.quot_mul_cancel_r c (Z.pos d) (Z.pos b)) by lia.
  rewrite (Z.mul_comm (Z.pos d) (Z.pos b)).
  apply Z.quot_le_mono; lia.
Qed.

Lemma min_mono (a b a' b' : Qc) :
  (a ≤ a')%Qc → (b ≤ b')%Qc → (Py.min a b ≤ Py.min a' b')%Qc.
Proof.
  intros Ha Hb. unfold Py.min. repeat case_decide.
  - done.
  - eapply Qcle_trans; [|exact Ha]. by apply Qclt_le_weak.
  - eapply Qcle_trans; [|exact Hb]. by apply Qcnot_lt_le.
  - done.
Qed.

Lemma Qcdiv_le_mono (x y d : Qc) : (0 < d)%Qc → (x ≤ y)%Qc → (x / d ≤ y / d)%Qc.
Proof.
  intros Hd Hxy. unfold Qcdiv. apply Qcmult_le_mono_nonneg_r; [|done].
  apply Qclt_le_weak. by apply Qcinv_pos.
Qed.

Lemma scale_factor_mono w h w' h' :
  (w ≤ w')%Qc → (h ≤ h')%Qc →
  (scale_factor (_calculate_base_sizes w h)
   ≤ scale_factor (_calculate_base_sizes w' h'))%Qc.
Proof.
  intros Hw Hh. cbn [scale_factor _calculate_base_sizes].
  apply min_mono; apply Qcdiv_le_mono; try done; by vm_compute.
Qed.

(** The dict literal is the table of constants, each scaled and
    truncated. *)
Lemma scaled_sizes_nominal scale :
  scaled_sizes scale
  = (λ kc, (kc.1, int (Qc_of_Z kc.2 * scale))) <$> nominal_sizes.
Proof. reflexivity. Qed.

Lemma nominal_sizes_NoDup : NoDup nominal_sizes.*1.
Proof. apply (bool_decide_unpack _). vm_compute. exact I. Qed.

(** An entry of the finished table is the scaled constant of its key,
    raised to at least 10. *)
Lemma sizes_lookup_Some w h k size :
  sizes (_calculate_base_sizes w h) !! k = Some size
  ↔ ∃ c, (k, c) ∈ nominal_sizes
         ∧ size = Z.max (int (Qc_of_Z c
                               * scale_factor (_calculate_base_sizes w h))) 10.
Proof.
  cbn [sizes scale_factor _calculate_base_sizes].
  rewrite lookup_fmap, scaled_sizes_nominal. split.
  - intros H. apply fmap_Some in H as (x & Hx & ->).
    apply elem_of_list_to_map_2 in Hx.
    apply list_elem_of_fmap in Hx as ([k' c] & [= -> ->] & Hin).
    by exists c.
  - intros (c & Hin & ->).
    erewrite elem_of_list_to_map_1; [done| |].
    + rewrite <- list_fmap_compose.
      replace ((fst ∘ (λ kc : string * Z,
                 (kc.1, int (Qc_of_Z kc.2 * Py.min (w / dec 10 1) (h / dec 75 10)))))
               <$> nominal_sizes) with nominal_sizes.*1 by reflexivity.
      apply nominal_sizes_NoDup.
    + apply list_elem_of_fmap. by exists (k, c).
Qed.

(** Whatever the slide dimensions, the size table has exactly the ten
    roles of the dict literal and no entry is below 10pt. *)
Theorem base_sizes_at_least_10 (w h : Qc) :
  dom (sizes (_calculate_base_sizes w h)) = list_to_set nominal_sizes.*1
  ∧ ∀ k size, sizes (_calculate_base_sizes w h) !! k = Some size → 10 ≤ size.
Proof.
  split.
  - cbn [sizes _calculate_base_sizes]. rewrite dom_fmap_L, dom_list_to_map_L.
    by rewrite scaled_sizes_keys.
  - intros k size H. apply sizes_lookup_Some in H as (c & _ & ->). lia.
Qed.

(** A slide that is at least as wide and at least as high gets a size
    table that is at least as large in every role. *)
Theorem base_sizes_monotone (w h w' h' : Qc) (k : string) (size size' : Z) :
  (w ≤ w')%Qc → (h ≤ h')%Qc →
  sizes (_calculate_base_sizes w h) !! k = Some size →
  sizes (_calculate_base_sizes w' h') !! k = Some size' →
  size ≤ size'.
Proof.
  intros Hw Hh H H'.
  apply sizes_lookup_Some in H as (c & Hc & ->).
  apply sizes_lookup_Some in H' as (c' & Hc' & ->).
  assert (c' = c) as ->.
  { pose proof (elem_of_list_to_map_1 (M := gmap string) _ _ _
                  nominal_sizes_NoDup Hc) as H1.
    pose proof (elem_of_list_to_map_1 (M := gmap string) _ _ _
                  nominal_sizes_NoDup Hc') as H2.
    congruence. }
  assert (0 ≤ c) as Hpos.
  { revert Hc. unfold nominal_sizes. rewrite !elem_of_cons, elem_of_nil.
    intros H. repeat destruct H as [H|H]; try done; injection H as _ ->; lia. }
  apply Z.max_le_compat_r, int_mono, Qcmult_le_mono_nonneg_l.
  - rewrite <- Z2Qc_inj_0. by apply (proj1 (Z2Qc_inj_le 0 c)).
  - by apply scale_factor_mono.
Qed.

Lemma base_sizes_monotone_witness :
  ∃ size size',
    sizes (_calculate_base_sizes (dec 5 1) (dec 375 100)) !! "slide_title"
    = Some size
    ∧ sizes (_calculate_base_sizes (dec 10 1) (dec 75 10)) !! "slide_title"
      = Some size'
    ∧ size ≤ size'.
Proof.
  exists 14, 28.
  split; [vm_compute; reflexivity|]. split; [vm_compute; reflexivity|].
  apply (base_sizes_monotone (dec 5 1) (dec 375 100) (dec 10 1) (dec 75 10)
           "slide_title"); by vm_compute.
Defined.

(** On a slide at least as large as the 10 x 7.5 reference every role
    has at least its nominal size. *)
Lemma sizes_at_least_nominal w h k c :
  (dec 10 1 ≤ w)%Qc → (dec 75 10 ≤ h)%Qc →
  (k, c) ∈ nominal_sizes →
  ∃ size, sizes (_calculate_base_sizes w h) !! k = Some size ∧ c ≤ size.
Proof.
  intros Hw Hh Hc. eexists. split.
  { apply sizes_lookup_Some. by exists c. }
  assert (0 ≤ c) as Hpos.
  { revert Hc. unfold nominal_sizes. rewrite !elem_of_cons, elem_of_nil.
    intros H. repeat destruct H as [H|H]; try done; injection H as _ ->; lia. }
  etrans; [|apply Z.le_max_l]. apply Qc_of_Z_le_int.
  rewrite <- (Qcmult_1_r (Qc_of_Z c)) at 1.
  apply Qcmult_le_mono_nonneg_l.
  - rewrite <- Z2Qc_inj_0. by apply (proj1 (Z2Qc_inj_le 0 c)).
  - by apply scale_at_least_1.
Qed.

(** What [get_title_size] computes from the slide-title base size. *)
Lemma get_title_size_eq self len base :
  getitem (sizes self) "slide_title" = Ok base →
  get_title_size self len
  = Ok (if 80 <? len then Z.max (base - 4) 20
        else if 50 <? len then Z.max (base - 2) 22
        else base).
Proof.
  intros Hb. unfold get_title_size. rewrite Hb. cbn. by repeat case_match.
Qed.

(** For every slide geometry the title size is at least 10pt, at least
    20pt for a title of more than 50 characters, and the plain base size
    up to 50 characters. It is non-increasing in the title length whenever
    the base size is at least 22pt, which is the case on every slide at
    least as large as the 10 x 7.5 reference. *)
Theorem title_size_bounds (w h : Qc) (len1 len2 : Z) :
  let self := _calculate_base_sizes w h in
  len1 ≤ len2 →
  ∃ base size1 size2,
    getitem (sizes self) "slide_title" = Ok base
    ∧ get_title_size self len1 = Ok size1
    ∧ get_title_size self len2 = Ok size2
    ∧ 10 ≤ size1
    ∧ (50 < len1 → 20 ≤ size1)
    ∧ (len1 ≤ 50 → size1 = base)
    ∧ (22 ≤ base → size2 ≤ size1)
    ∧ ((dec 10 1 ≤ w)%Qc → (dec 75 10 ≤ h)%Qc → 28 ≤ base).
Proof.
  intros self Hlen.
  destruct (base_size_at_least_10 w h "slide_title") as (base & Hbase & Hge).
  { rewrite scaled_sizes_keys. set_solver. }
  fold self in Hbase.
  assert (Href : (dec 10 1 ≤ w)%Qc → (dec 75 10 ≤ h)%Qc → 28 ≤ base).
  { intros Hw Hh.
    destruct (sizes_at_least_nominal w h "slide_title" 28 Hw Hh)
      as (size & Hsize & Hle).
    { unfold nominal_sizes. set_solver. }
    fold self in Hsize. unfold getitem in Hbase. rewrite Hsize in Hbase.
    injection Hbase as <-. done. }
  rewrite !(get_title_size_eq self _ base Hbase).
  eexists base, _, _. split; [exact Hbase|]. do 2 (split; [reflexivity|]).
  repeat match goal with
         | |- context [?a <? ?b] =>
             let E := fresh in destruct (Z.ltb_spec a b) as [E|E]
         end; repeat split; try exact Href; lia.
Qed.

Lemma title_size_bounds_witness :
  ∃ base size1 size2,
    let self := _calculate_base_sizes (dec 10 1) (dec 75 10) in
    getitem (sizes self) "slide_title" = Ok base
    ∧ get_title_size self 40 = Ok size1
    ∧ get_title_size self 90 = Ok size2
    ∧ 10 ≤ size1
    ∧ (50 < 40 → 20 ≤ size1)
    ∧ (40 ≤ 50 → size1 = base)
    ∧ (22 ≤ base → size2 ≤ size1)
    ∧ ((dec 10 1 ≤ dec 10 1)%Qc → (dec 75 10 ≤ dec 75 10)%Qc → 28 ≤ base).
Proof.
  apply (title_size_bounds (dec 10 1) (dec 75 10) 40 90). lia.
Defined.

(** For every slide geometry: the content size is at least 10pt, and at
    least 13, 12 and 11pt in the bands above 150, 300 and 500 characters;
    up to 150 characters it is the base size, and it never exceeds the
    larger of the base size and 13pt. The bullet size is at least 11pt,
    at most the larger of its base size and 11pt, and at most three
    points below its base size. *)
Theorem content_and_bullet_floors (w h : Qc) (content_type : string)
    (len count avg_len : Z) :
  let self := _calculate_base_sizes w h in
  ∃ base size bullet_base bullet,
    getitem (sizes self) (content_key content_type) = Ok base
    ∧ get_content_size self len content_type = Ok size
    ∧ getitem (sizes self) "bullet_main" = Ok bullet_base
    ∧ get_bullet_size self count avg_len = Ok bullet
    ∧ 10 ≤ size
    ∧ (150 < len → len ≤ 300 → 13 ≤ size)
    ∧ (300 < len → len ≤ 500 → 12 ≤ size)
    ∧ (500 < len → 11 ≤ size)
    ∧ (len ≤ 150 → size = base)
    ∧ size ≤ Z.max base 13
    ∧ 11 ≤ bullet
    ∧ bullet ≤ Z.max bullet_base 11
    ∧ bullet_base - 3 ≤ bullet.
Proof.
  intros self.
  destruct (base_size_at_least_10 w h _ (content_key_in_table w h content_type))
    as (base & Hbase & Hge).
  destruct (base_size_at_least_10 w h "bullet_main") as (bm & Hbm & Hbge).
  { rewrite scaled_sizes_keys. set_solver. }
  fold self in Hbase, Hbm.
  rewrite (get_content_size_eq self _ _ base Hbase).
  rewrite (get_bullet_size_eq self _ _ bm Hbm).
  eexists base, _, bm, _. split; [exact Hbase|]. split; [reflexivity|].
  split; [exact Hbm|]. split; [reflexivity|].
  repeat match goal with
         | |- context [?a <? ?b] =>
             let E := fresh in destruct (Z.ltb_spec a b) as [E|E]
         end; repeat split; lia.
Qed.

End size_table.

(** ** Matching *)

Section matching.
Import Re Texts.

(** A repetition that succeeds hands the continuation a remainder that
    is shorter by at least the required number of characters. *)
Lemma rep_Some p least s k o :
  rep p least s k = Some o →
  ∃ s', k s' = Some o ∧ (String.length s' + least ≤ String.length s)%nat.
Proof.
  revert least. induction s as [|c s IH]; intros least; cbn.
  - destruct least; [|done]. intros H. exists "". split; [done|cbn; lia].
  - destruct (p c).
    + destruct (rep p (Nat.pred least) s k) as [o'|] eqn:E.
      * intros [= <-]. destruct (IH _ E) as (s' & Hk & Hlen).
        exists s'. split; [done|]. cbn. lia.
      * destruct least; [|done]. intros H. exists (String c s).
        split; [done|cbn; lia].
    + destruct least; [|done]. intros H. exists (String c s).
      split; [done|cbn; lia].
Qed.

(** A repetition of at least one character needs a first character of
    the class. *)
Lemma rep_1_head p n c s k o :
  rep p (S n) (String c s) k = Some o → p c = true.
Proof. cbn. by destruct (p c). Qed.

Lemma drop_chars_length n s :
  (String.length (drop_chars n s) ≤ String.length s)%nat.
Proof.
  revert s. induction n as [|n IH]; intros [|c s]; cbn; try lia.
  specialize (IH s). lia.
Qed.

(** Matching only moves forward: the continuation is entered on a
    remainder that is no longer than the input. *)
Lemma run_Some r :
  ∀ s cap k o,
    run r s cap k = Some o →
    ∃ s' cap', k s' cap' = Some o ∧ (String.length s' ≤ String.length s)%nat.
Proof.
  induction r as [l|p|p least|r1 IH1 r2 IH2|r1 IH1 r2 IH2|r1 IH1|r1 IH1];
    intros s cap k o; cbn.
  - destruct (String.prefix l s); [|done]. intros H.
    eexists _, _. split; [exact H|]. apply drop_chars_length.
  - destruct s as [|c s]; [done|]. destruct (p c); [|done]. intros H.
    eexists _, _. split; [exact H|]. cbn. lia.
  - intros H. apply rep_Some in H as (s' & Hk & Hlen).
    eexists _, _. split; [exact Hk|]. lia.
  - intros H. apply IH1 in H as (s1 & cap1 & H & Hlen1).
    apply IH2 in H as (s2 & cap2 & H & Hlen2).
    eexists _, _. split; [exact H|]. lia.
  - destruct (run r1 s cap k) as [o'|] eqn:E.
    + intros [= <-]. by apply IH1 in E.
    + apply IH2.
  - destruct (run r1 s cap k) as [o'|] eqn:E.
    + intros [= <-]. by apply IH1 in E.
    + intros H. by eexists _, _.
  - intros H. apply IH1 in H as (s1 & cap1 & H & Hlen1).
    eexists _, _. split; [exact H|]. done.
Qed.

Lemma match_here_length r s rest cap :
  match_here r s = Some (rest, cap) →
  (String.length rest ≤ String.length s)%nat.
Proof.
  unfold match_here. intros H.
  apply run_Some in H as (s' & cap' & [= <- <-] & Hlen). done.
Qed.

(** Every entry of the scan is the text of a match at some position. *)
Lemma elem_of_scan r m :
  ∀ s skip,
    m ∈ scan r skip s →
    ∃ c s' rest,
      match_here r (String c s') = Some (rest, m.2)
      ∧ m.1 = consumed (String c s') rest.
Proof.
  induction s as [|c s IH]; intros skip; cbn [scan].
  { by intros ?%elem_of_nil. }
  destruct skip as [|n]; [|apply IH].
  destruct (match_here r (String c s)) as [[rest cap]|] eqn:E; [|apply IH].
  intros [->|Hin]%elem_of_cons; [|by eapply IH].
  by exists c, s, rest.
Qed.




End matching.

(** ** What the content analysis finds *)

Section analysis_results.
Import Re Advanced Texts.


(** A match of a pattern that opens with a required repetition begins
    with a character of the class and is not empty. *)
Lemma seq_rep_head p n r2 r3 c s rest cap :
  match_here (Seq (Seq (Rep p (S n)) r2) r3) (String c s) = Some (rest, cap) →
  p c = true ∧ (String.length rest ≤ String.length s)%nat.
Proof.
  unfold match_here.
  change (run (Seq (Seq (Rep p (S n)) r2) r3) (String c s) None
            (λ s' cap', Some (s', cap')))
    with (rep p (S n) (String c s)
            (λ s1, run r2 s1 None
                     (λ s2 cap2, run r3 s2 cap2 (λ s' cap', Some (s', cap'))))).
  intros H. split.
  - by eapply rep_1_head.
  - apply rep_Some in H as (s1 & H & Hlen1).
    apply run_Some in H as (s2 & cap2 & H & Hlen2).
    apply run_Some in H as (s3 & cap3 & [= <- <-] & Hlen3).
    cbn in Hlen1. lia.
Qed.

Lemma number_match_head c s rest cap :
  match_here number_pattern (String c s) = Some (rest, cap) →
  isdigit c = true ∧ (String.length rest ≤ String.length s)%nat.
Proof. apply seq_rep_head. Qed.

Lemma consumed_head c s rest :
  (String.length rest ≤ String.length s)%nat →
  ∃ tail, consumed (String c s) rest = String c tail.
Proof.
  intros Hlen. unfold consumed. cbn [String.length].
  replace (S (String.length s) - String.length rest)%nat
    with (S (String.length s - String.length rest)) by lia.
  cbn. by eexists.
Qed.

(** Every numeric token that the analysis returns starts with a digit. *)
Lemma numbers_data_head text token :
  token ∈ numbers_data (analyze_content text) →
  ∃ c tail, token = String c tail ∧ isdigit c = true.
Proof.
  cbn [numbers_data analyze_content]. intros Hin.
  assert (Hscan : token ∈ findall number_pattern (lower text)).
  { case_decide; [|by apply elem_of_nil in Hin].
    by eapply subseteq_take. }
  unfold findall in Hscan.
  apply list_elem_of_fmap in Hscan as ([whole cap] & -> & Hm).
  apply elem_of_scan in Hm as (c & s & rest & Hmatch & Hwhole).
  cbn [fst snd] in Hmatch, Hwhole.
  change (has_group number_pattern) with false. cbn [fst].
  apply number_match_head in Hmatch as [Hc Hlen].
  destruct (consumed_head c s rest Hlen) as [tail Htail].
  exists c, tail. by rewrite Hwhole, Htail.
Qed.


(** *** Texts without digits *)









(** *** Charts *)

Lemma clean_number_digit c tail :
  isdigit c = true → ∃ n, clean_number (String c tail) = Some n.
Proof.
  intros Hc. unfold clean_number. cbn [filter_chars]. rewrite Hc.
  rewrite decide_False by done. by eexists.
Qed.

Lemma omap_length_all {A B} (f : A → option B) l :
  Forall (λ x, is_Some (f x)) l → length (omap f l) = length l.
Proof.
  induction 1 as [|x l [y Hy] _ IH]; [done|]. cbn. rewrite Hy. cbn.
  by rewrite IH.
Qed.

Lemma omap_length_le {A B} (f : A → option B) l :
  (length (omap f l) ≤ length l)%nat.
Proof.
  induction l as [|x l IH]; [done|]. cbn. destruct (f x); cbn; lia.
Qed.

(** The chart step on any analysis: when a chart is drawn it has between
    2 and 6 values and one label per value, the labels being Item 1,
    Item 2, ... in order. On the analysis of a text, a chart is drawn
    exactly when the analysis found at least 2 numeric tokens, and it has
    one value for each of the first 6 tokens. *)
Theorem chart_values_and_labels (slide_title : option string) :
  (∀ analysis chart,
     _add_chart_to_slide slide_title analysis = Some chart →
     (2 ≤ length (data_points chart) ≤ 6)%nat
     ∧ length (labels chart) = length (data_points chart)
     ∧ labels chart
       = (λ i, "Item " +:+ str_of_nat (i + 1))
           <$> seq 0 (length (data_points chart))
     ∧ chart_title chart = "Biểu đồ " +:+ default "Data" slide_title)
  ∧ (∀ text,
       let a := analyze_content text in
       match _add_chart_to_slide slide_title a with
       | Some chart =>
           (2 ≤ length (numbers_data a))%nat
           ∧ length (data_points chart)
             = Nat.min 6 (length (numbers_data a))
       | None => (length (numbers_data a) < 2)%nat
       end).
Proof.
  split.
  - intros analysis chart. unfold _add_chart_to_slide.
    case_decide as Hlen; [|done]. intros [= <-]. cbn.
    split; [|split; [|done]].
    + split; [done|].
      etrans; [apply omap_length_le|]. rewrite length_take. lia.
    + by rewrite length_fmap, length_seq.
  - intros text a.
    assert (Hall : length (omap clean_number (take 6 (numbers_data a)))
                   = Nat.min 6 (length (numbers_data a))).
    { rewrite omap_length_all; [by rewrite length_take|].
      apply Forall_forall. intros token Hin.
      apply subseteq_take in Hin.
      apply numbers_data_head in Hin as (c & tail & -> & Hc).
      destruct (clean_number_digit c tail Hc) as [n Hn]. by exists n. }
    unfold _add_chart_to_slide. fold a. case_decide as Hlen.
    + cbn [data_points]. rewrite Hall in Hlen. rewrite Hall. split; lia.
    + rewrite Hall in Hlen. lia.
Qed.

(** *** The chart type *)




End analysis_results.

(** ** The heuristic analysis, in general *)

Section analysis_general.
Import Refiner.

Lemma split_go_nonempty s : ∀ cur, cur ≠ "" → split_go cur s ≠ [].
Proof.
  induction s as [|c s IH]; intros cur Hcur; cbn.
  - by rewrite decide_False.
  - destruct (isspace c).
    + by rewrite decide_False.
    + apply IH. by destruct cur.
Qed.

(** Every text is analysed without error into one of three outcomes:
    more than 40 words give summarize with score 0.7, whatever the words
    are; otherwise clarify with score 0.8 or none with score 1.0. The
    action fix-grammar is never returned, the score lies between 0 and 1,
    and a text without any word gets none and 1.0. *)
Theorem analysis_outcomes (text : string) :
  let a := _analyze_text_quality text in
  ((40 < length (split text))%nat →
   action a = summarize ∧ score a = (1 - dec 3 10)%Qc)
  ∧ ((length (split text) ≤ 40)%nat →
     (action a = clarify ∧ score a = (1 - dec 2 10)%Qc)
     ∨ (action a = none ∧ score a = 1%Qc))
  ∧ action a ≠ grammar
  ∧ (0 ≤ score a ∧ score a ≤ 1)%Qc
  ∧ (split text = [] → action a = none ∧ score a = 1%Qc).
Proof.
  intros a. unfold a, _analyze_text_quality.
  split; [|split; [|split; [|split]]].
  - intros H. by rewrite decide_True.
  - intros H. rewrite decide_False by lia. case_decide; auto.
  - repeat case_decide; done.
  - repeat case_decide; cbn; split; by vm_compute.
  - intros ->. cbn. rewrite decide_False by (cbn; lia).
    rewrite decide_False; [done|]. by vm_compute.
Qed.

End analysis_general.

(** ** What refinement changes in a deck, and what it leaves alone *)

Section refiner_frames.
Import Refiner Contract Invariants Frames Examples Runs.

(** The slide that a rewrite returns, written out. *)
Lemma apply_rewrite_inv slide o r info slide' :
  apply_rewrite slide o r info = Ok slide' →
  ∃ sg, slide !! "bert_suggestions" = Some (VList sg)
    ∧ let base :=
        <["bert_suggestions" := VList (sg ++ [reason (analysis info)])]>
          (<["bert_refined" := VBool true]> slide) in
      match field info with
      | content_field =>
          slide' = <["content" := VStr r]>
                     (<["original_content" := VStr o]> base)
      | bullet_field j =>
          ∃ l, slide !! "bullet_points" = Some (VList l)
            ∧ (j < length l)%nat
            ∧ slide' = <["bullet_points" := VList (<[j := r]> l)]>
                         (<["original_bullet_points" :=
                              default (VList l)
                                (slide !! "original_bullet_points")]> base)
      end.
Proof.
  unfold apply_rewrite, getitem. intros Hrun.
  rewrite lookup_insert_ne in Hrun by done.
  destruct (slide !! "bert_suggestions") as [[| | | |sg]|] eqn:Hsg; try done.
  exists sg. split; [done|]. cbn in Hrun. cbn zeta.
  destruct (field info) as [|j].
  { by injection Hrun as <-. }
  rewrite !lookup_insert_ne in Hrun by done.
  destruct (slide !! "original_bullet_points") as [shadow|] eqn:Hshadow.
  - cbn in Hrun. rewrite !lookup_insert_ne in Hrun by done.
    destruct (slide !! "bullet_points") as [[| | | |l]|] eqn:Hl; try done.
    cbn in Hrun. case_decide as Hj; [|done]. injection Hrun as <-.
    exists l. split; [done|]. split; [done|]. cbn. f_equal.
    symmetry. apply insert_id. by rewrite !lookup_insert_ne.
  - destruct (slide !! "bullet_points") as [[| | |s|l]|] eqn:Hl; try done.
    + cbn in Hrun. rewrite lookup_insert_ne in Hrun by done.
      rewrite !lookup_insert_ne in Hrun by done. rewrite Hl in Hrun. done.
    + cbn in Hrun. rewrite lookup_insert_ne in Hrun by done.
      rewrite !lookup_insert_ne in Hrun by done. rewrite Hl in Hrun.
      cbn in Hrun. case_decide as Hj; [|done]. injection Hrun as <-.
      exists l. done.
Qed.

(** One iteration of step 3, written out. *)
Lemma update_fragment_cases st o r info st' :
  update_fragment st o r info = Ok st' →
  ∃ slide slide' q,
    let prepared :=
      <["bert_suggestions" :=
          default (VList []) (slide !! "bert_suggestions")]>
        (<["quality_score" := default (VNum 1) (slide !! "quality_score")]>
           (<["bert_refined" :=
               default (VBool false) (slide !! "bert_refined")]> slide)) in
    slides_of st !! slide_index info = Some slide
    ∧ (if changed o r info then apply_rewrite prepared o r info
       else Ok prepared) = Ok slide'
    ∧ slides_of st'
      = <[slide_index info := <["quality_score" := VNum q]> slide']>
          (slides_of st)
    ∧ improved_content_slides st'
      = match field info with
        | content_field =>
            if changed o r info
            then {[slide_index info]} ∪ improved_content_slides st
            else improved_content_slides st
        | bullet_field _ => improved_content_slides st
        end
    ∧ improved_bullets_slides st'
      = match field info with
        | content_field => improved_bullets_slides st
        | bullet_field _ =>
            if changed o r info
            then {[slide_index info]} ∪ improved_bullets_slides st
            else improved_bullets_slides st
        end.
Proof.
  unfold update_fragment, index. intros Hrun.
  destruct (slides_of st !! slide_index info) as [slide|] eqn:Hslide; [|done].
  cbn [mbind result_bind] in Hrun.
  rewrite !lookup_insert_ne in Hrun by done.
  step_ok Hrun. rename a into slide'. do 2 step_ok Hrun.
  injection Hrun as <-.
  exists slide, slide', (a0 - (1 - score (analysis info)))%Qc. done.
Qed.

Lemma is_Some_insert (m : dict) k k' v :
  is_Some (m !! k) → is_Some (<[k' := v]> m !! k).
Proof. rewrite lookup_insert_is_Some'. auto. Qed.

Lemma refiner_keys_ne k :
  k ∉ refiner_keys →
  k ≠ "quality_score" ∧ k ≠ "bert_refined" ∧ k ≠ "bert_suggestions"
  ∧ k ≠ "content" ∧ k ≠ "original_content"
  ∧ k ≠ "original_bullet_points" ∧ k ≠ "bullet_points".
Proof. unfold refiner_keys. set_solver. Qed.

Lemma changed_none o r info :
  action (analysis info) = none → changed o r info = false.
Proof.
  intros H. unfold changed. rewrite H.
  by rewrite (bool_decide_false (none ≠ none)), andb_false_r by auto.
Qed.

(** What one iteration of step 3 does to the slide of its fragment. *)
Lemma update_fragment_slide st o r info st' :
  update_fragment st o r info = Ok st' →
  ∃ slide final,
    slides_of st !! slide_index info = Some slide
    ∧ slides_of st' = <[slide_index info := final]> (slides_of st)
    ∧ carried_over slide final
    ∧ (changed o r info = true →
       match field info with
       | content_field => backed_up "original_content" final
       | bullet_field _ => backed_up "original_bullet_points" final
       end)
    ∧ (changed o r info = false ∨ field info ≠ content_field →
       final !! "content" = slide !! "content")
    ∧ (∀ l, slide !! "bullet_points" = Some (VList l) →
         ∃ l', final !! "bullet_points" = Some (VList l')
           ∧ ∀ j, changed o r info = false ∨ field info ≠ bullet_field j →
                  l' !! j = l !! j)
    ∧ improved_content_slides st'
      = match field info with
        | content_field =>
            if changed o r info
            then {[slide_index info]} ∪ improved_content_slides st
            else improved_content_slides st
        | bullet_field _ => improved_content_slides st
        end
    ∧ improved_bullets_slides st'
      = match field info with
        | content_field => improved_bullets_slides st
        | bullet_field _ =>
            if changed o r info
            then {[slide_index info]} ∪ improved_bullets_slides st
            else improved_bullets_slides st
        end.
Proof.
  intros Hrun.
  destruct (update_fragment_cases _ _ _ _ _ Hrun)
    as (slide & slide' & q & Hslide & Hstep & Hslides & Hic & Hib).
  exists slide, (<["quality_score" := VNum q]> slide').
  split; [done|]. split; [done|].
  set (final := <["quality_score" := VNum q]> slide').
  assert (Hfacts :
    carried_over slide final
    ∧ (changed o r info = true →
       match field info with
       | content_field => backed_up "original_content" final
       | bullet_field _ => backed_up "original_bullet_points" final
       end)
    ∧ (changed o r info = false ∨ field info ≠ content_field →
       final !! "content" = slide !! "content")
    ∧ (∀ l, slide !! "bullet_points" = Some (VList l) →
         ∃ l', final !! "bullet_points" = Some (VList l')
           ∧ ∀ j, changed o r info = false ∨ field info ≠ bullet_field j →
                  l' !! j = l !! j)).
  { unfold final. clear Hrun Hslides Hslide Hic Hib final.
    destruct (changed o r info) eqn:Hchanged.
    - apply apply_rewrite_inv in Hstep as (sg & Hsg & Hform). cbn zeta in Hform.
      destruct (field info) as [|j0] eqn:Hfield.
      + subst slide'. split; [split; [|split; [|split]]|split; [|split]].
        * intros k Hk. apply refiner_keys_ne in Hk as (?&?&?&?&?&?&?).
          by rewrite !lookup_insert_ne.
        * intros k Hk. by do 8 apply is_Some_insert.
        * intros _. rewrite !lookup_insert_ne by done.
          by rewrite lookup_insert_eq.
        * intros l Hl. exists l. rewrite !lookup_insert_ne by done. done.
        * intros _. split.
          -- rewrite !lookup_insert_ne by done. by rewrite lookup_insert_eq.
          -- rewrite !lookup_insert_ne by done. by rewrite lookup_insert_eq.
        * intros [|]; done.
        * intros l Hl. exists l. rewrite !lookup_insert_ne by done. done.
      + destruct Hform as (l0 & Hl0 & Hj0 & ->).
        rewrite !lookup_insert_ne in Hl0 by done.
        split; [split; [|split; [|split]]|split; [|split]].
        * intros k Hk. apply refiner_keys_ne in Hk as (?&?&?&?&?&?&?).
          by rewrite !lookup_insert_ne.
        * intros k Hk. by do 8 apply is_Some_insert.
        * intros _. rewrite !lookup_insert_ne by done.
          by rewrite lookup_insert_eq.
        * intros l Hl. rewrite lookup_insert_ne, lookup_insert_eq by done.
          eexists. split; [done|]. rewrite length_insert. congruence.
        * intros _. split.
          -- rewrite !lookup_insert_ne by done. by rewrite lookup_insert_eq.
          -- rewrite !lookup_insert_ne by done. by rewrite lookup_insert_eq.
        * intros _. by rewrite !lookup_insert_ne.
        * intros l Hl. rewrite lookup_insert_ne, lookup_insert_eq by done.
          eexists. split; [done|]. intros j [|Hj]; [done|].
          assert (l = l0) as -> by congruence.
          apply list_lookup_insert_ne. congruence.
    - injection Hstep as <-.
      split; [split; [|split; [|split]]|split; [|split]].
      + intros k Hk. apply refiner_keys_ne in Hk as (?&?&?&?&?&?&?).
        by rewrite !lookup_insert_ne.
      + intros k Hk. by do 4 apply is_Some_insert.
      + intros Hr. rewrite !lookup_insert_ne by done.
        by rewrite lookup_insert_eq, Hr.
      + intros l Hl. exists l. rewrite !lookup_insert_ne by done. done.
      + done.
      + intros _. by rewrite !lookup_insert_ne.
      + intros l Hl. exists l. rewrite !lookup_insert_ne by done. done.
  }
  destruct Hfacts as (H1 & H2 & H3 & H4). done.
Qed.

Lemma carried_over_refl slide : carried_over slide slide.
Proof.
  split; [done|]. split; [done|]. split; [done|].
  intros l Hl. by exists l.
Qed.

Lemma carried_over_trans s1 s2 s3 :
  carried_over s1 s2 → carried_over s2 s3 → carried_over s1 s3.
Proof.
  intros (Ha & Hb & Hc & Hd) (Ha' & Hb' & Hc' & Hd').
  split; [|split; [|split]].
  - intros k Hk. by rewrite Ha', Ha.
  - intros k Hk. by apply Hb', Hb.
  - intros H. by apply Hc', Hc.
  - intros l Hl. destruct (Hd l Hl) as (l' & Hl' & Hlen).
    destruct (Hd' l' Hl') as (l'' & Hl'' & Hlen').
    exists l''. split; [done|]. congruence.
Qed.

Lemma Forall2_carried_over_refl (l : list dict) : Forall2 carried_over l l.
Proof.
  apply Forall_Forall2_diag, Forall_forall. intros ? _.
  apply carried_over_refl.
Qed.

Lemma Forall2_carried_over_trans (l1 l2 l3 : list dict) :
  Forall2 carried_over l1 l2 → Forall2 carried_over l2 l3 →
  Forall2 carried_over l1 l3.
Proof.
  intros H12. revert l3.
  induction H12 as [|s1 s2 l1 l2 Hs _ IH]; intros l3 H23;
    inversion H23 as [|? s3 ? l3' Hs' H23']; subst; constructor.
  - by eapply carried_over_trans.
  - by apply IH.
Qed.

Lemma update_loop_carried infos :
  ∀ st texts refined_texts i st',
    update_loop st texts refined_texts i infos = Ok st' →
    Forall2 carried_over (slides_of st) (slides_of st').
Proof.
  induction infos as [|info infos IH]; intros st texts refined_texts i st' Hrun;
    cbn in Hrun.
  { injection Hrun as <-. apply Forall2_carried_over_refl. }
  do 3 step_ok Hrun.
  eapply Forall2_carried_over_trans; [|by eapply IH].
  destruct (update_fragment_slide _ _ _ _ _ E1)
    as (slide & final & Hslide & -> & Hcarried & _).
  rewrite <- (list_insert_id (slides_of st) (slide_index info) slide) at 1
    by done.
  apply Forall2_insert; [apply Forall2_carried_over_refl|done].
Qed.

Lemma finalize_carried slides :
  ∀ running slides' running',
    finalize slides running = Ok (slides', running') →
    Forall2 carried_over slides slides'.
Proof.
  induction slides as [|slide slides IH]; intros running slides' running' Hrun;
    cbn in Hrun.
  { injection Hrun as <- <-. constructor. }
  do 3 step_ok Hrun. destruct a1 as [rest running''].
  injection Hrun as <- <-. constructor; [|by eapply IH].
  split; [|split; [|split]].
  - intros k Hk. apply refiner_keys_ne in Hk as (?&_).
    by rewrite lookup_insert_ne.
  - intros k Hk. by apply is_Some_insert.
  - intros H. by rewrite lookup_insert_ne.
  - intros l Hl. exists l. by rewrite lookup_insert_ne.
Qed.

(** The pieces of a run of steps 1 to 3 that returned. *)
Lemma refine_slides_inv self (data : deck) slides data' :
  outcome (refine_slides self data slides) = Ok data' →
  ∃ frags refined_texts st slides' running,
    collect 0 slides = Ok frags
    ∧ outcome (refine_content_batch self (text <$> frags)
                 ((λ info, action (analysis info)) <$> frags))
      = Ok refined_texts
    ∧ update_loop {| slides_of := slides; improved_content_slides := ∅;
                     improved_bullets_slides := ∅ |}
        (text <$> frags) refined_texts 0 frags = Ok st
    ∧ finalize (slides_of st) 0%Qc = Ok (slides', running)
    ∧ data' = <["bert_refinement_stats" :=
                  EDict (make_stats self (length slides') st running)]>
                (<["slides" := ESlides slides']> data).
Proof.
  intros Hrun. unfold refine_slides in Hrun.
  step_M Hrun. rename a into frags, E into Hfrags.
  step_M Hrun. rename a into refined_texts, E into Hbatch.
  step_M Hrun. rename a into st, E into Hloop.
  step_M Hrun. destruct a as [slides' running]. rename E into Hfinal.
  cbn in Hrun. injection Hrun as <-.
  by exists frags, refined_texts, st, slides', running.
Qed.

(** The cases in which [refine_content] returns its argument as it is,
    and the one in which it runs steps 1 to 3. *)
Lemma refine_content_inv self (data data' : deck) :
  outcome (refine_content self data) = Ok data' →
  (data' = data
   ∧ (available self = false ∨ slides_of_deck data = []))
  ∨ (∃ slides, available self = true
       ∧ data !! "slides" = Some (ESlides slides) ∧ slides ≠ []
       ∧ outcome (refine_slides self data slides) = Ok data').
Proof.
  unfold refine_content, slides_of_deck. intros Hrun.
  destruct (available self); cbn [negb] in Hrun.
  2: { cbn in Hrun. injection Hrun as <-. left. auto. }
  destruct (data !! "slides") as [[v|[|slide slides]|d]|] eqn:Hslides.
  - destruct (truthy v); [done|]. cbn in Hrun. injection Hrun as <-. auto.
  - cbn in Hrun. injection Hrun as <-. auto.
  - right. by exists (slide :: slides).
  - case_decide; [|done]. cbn in Hrun. injection Hrun as <-. auto.
  - cbn in Hrun. injection Hrun as <-. auto.
Qed.

(** The refiner is a guest in the deck. Whenever [refine_content]
    returns, the deck has as many slides as before, and on every slide:
    the keys other than the seven it assigns ([quality_score],
    [bert_refined], [bert_suggestions], [content], [original_content],
    [bullet_points], [original_bullet_points]) hold what they held, no
    key was removed, a slide flagged as refined is still flagged, and a
    list of bullets has as many bullets as before. In the deck itself
    only [slides] and [bert_refinement_stats] are assigned. *)
Theorem refinement_keeps_the_rest_of_the_deck self (data data' : deck) :
  outcome (refine_content self data) = Ok data' →
  length (slides_of_deck data') = length (slides_of_deck data)
  ∧ Forall2 carried_over (slides_of_deck data) (slides_of_deck data')
  ∧ (∀ k, k ≠ "slides" → k ≠ "bert_refinement_stats" →
          data' !! k = data !! k).
Proof.
  intros Hrun.
  assert (Forall2 carried_over (slides_of_deck data) (slides_of_deck data')
          ∧ (∀ k, k ≠ "slides" → k ≠ "bert_refinement_stats" →
                  data' !! k = data !! k)) as [Hall Hdeck].
  { apply refine_content_inv in Hrun
      as [[-> _]|(slides & _ & Hslides & _ & Hrun)].
    { split; [apply Forall2_carried_over_refl|done]. }
    apply refine_slides_inv in Hrun
      as (frags & refined & st & slides' & running
          & _ & _ & Hloop & Hfinal & ->).
    split.
    - unfold slides_of_deck. rewrite Hslides.
      rewrite lookup_insert_ne, lookup_insert_eq by done.
      eapply Forall2_carried_over_trans;
        [exact (update_loop_carried _ _ _ _ _ _ Hloop)|].
      by eapply finalize_carried.
    - intros k H1 H2. by rewrite !lookup_insert_ne. }
  split; [|done]. symmetry. by eapply Forall2_length.
Qed.

Lemma refined_long_word_deck_run :
  outcome (refine_content echo long_word_deck) = Ok refined_long_word_deck.
Proof. vm_compute. reflexivity. Qed.

Lemma refinement_keeps_the_rest_of_the_deck_witness :
  outcome (refine_content echo long_word_deck) = Ok refined_long_word_deck
  ∧ length (slides_of_deck refined_long_word_deck)
    = length (slides_of_deck long_word_deck)
  ∧ Forall2 carried_over (slides_of_deck long_word_deck)
      (slides_of_deck refined_long_word_deck)
  ∧ (∀ k, k ≠ "slides" → k ≠ "bert_refinement_stats" →
          refined_long_word_deck !! k = long_word_deck !! k).
Proof.
  split; [exact refined_long_word_deck_run|].
  apply (refinement_keeps_the_rest_of_the_deck echo long_word_deck).
  exact refined_long_word_deck_run.
Defined.

(** *** Text that needs no rewrite *)

Lemma collect_slide_sound i slide frags :
  collect_slide i slide = Ok frags →
  Forall (λ f, slide_index f = i
               ∧ analysis f = _analyze_text_quality (text f)
               ∧ match field f with
                 | content_field => slide !! "content" = Some (VStr (text f))
                 | bullet_field j =>
                     ∃ bs, iterate (default (VList [])
                                      (slide !! "bullet_points")) = Ok bs
                           ∧ bs !! j = Some (text f)
                 end) frags.
Proof.
  unfold collect_slide. intros Hrun.
  step_ok Hrun. rename a into here, E into Hhere.
  step_ok Hrun. rename a into bs, E into Hbs.
  injection Hrun as <-. apply Forall_app. split.
  - destruct (slide !! "content") as [v|] eqn:Hc;
      cbn [default from_option id] in Hhere.
    + destruct (truthy v); [|injection Hhere as <-; constructor].
      destruct v; try done. injection Hhere as <-.
      constructor; [done|constructor].
    + cbn in Hhere. injection Hhere as <-. constructor.
  - apply Forall_forall. intros f Hf. unfold bullet_fragments in Hf.
    apply elem_of_lookup_imap in Hf as (j & b & -> & Hj).
    cbn. split; [done|]. split; [done|]. by exists bs.
Qed.

Lemma collect_sound slides :
  ∀ i frags,
    collect i slides = Ok frags →
    Forall (λ f, ∃ k slide,
              slide_index f = (i + k)%nat
              ∧ slides !! k = Some slide
              ∧ analysis f = _analyze_text_quality (text f)
              ∧ match field f with
                | content_field => slide !! "content" = Some (VStr (text f))
                | bullet_field j =>
                    ∃ bs, iterate (default (VList [])
                                     (slide !! "bullet_points")) = Ok bs
                          ∧ bs !! j = Some (text f)
                end) frags.
Proof.
  induction slides as [|slide slides IH]; intros i frags Hrun; cbn in Hrun.
  { injection Hrun as <-. constructor. }
  do 2 step_ok Hrun. injection Hrun as <-. apply Forall_app. split.
  - eapply Forall_impl; [exact (collect_slide_sound _ _ _ E)|].
    intros f (Hi & Ha & Hf). exists 0%nat, slide.
    rewrite Nat.add_0_r. done.
  - eapply Forall_impl; [exact (IH _ _ E0)|].
    intros f (k & slide0 & Hi & Hk & Ha & Hf). exists (S k), slide0.
    split; [lia|done].
Qed.

(** Step 3 leaves the content of slide [k] alone when no content
    fragment of that slide asks for a rewrite, and bullet [j] of slide
    [k] when the fragment of that bullet asks for none. *)
Lemma update_loop_kept infos :
  ∀ st texts refined_texts i st' k slide,
    update_loop st texts refined_texts i infos = Ok st' →
    slides_of st !! k = Some slide →
    ∃ slide',
      slides_of st' !! k = Some slide'
      ∧ (Forall (λ f, slide_index f = k → field f = content_field →
                      action (analysis f) = none) infos →
         slide' !! "content" = slide !! "content")
      ∧ (∀ l, slide !! "bullet_points" = Some (VList l) →
           ∃ l', slide' !! "bullet_points" = Some (VList l')
             ∧ ∀ j, Forall (λ f, slide_index f = k →
                                 field f = bullet_field j →
                                 action (analysis f) = none) infos →
                    l' !! j = l !! j).
Proof.
  induction infos as [|info infos IH];
    intros st texts refined_texts i st' k slide Hrun Hslide; cbn in Hrun.
  { injection Hrun as <-. exists slide. split; [done|]. split; [done|].
    intros l Hl. by exists l. }
  do 3 step_ok Hrun. rename a1 into st1.
  destruct (update_fragment_slide _ _ _ _ _ E1)
    as (slide0 & final & Hslide0 & Hslides1 & _ & _ & Hcontent & Hbullets & _).
  destruct (decide (slide_index info = k)) as [Hk|Hk].
  - rewrite Hk in *. assert (slide0 = slide) as -> by congruence.
    assert (Hfinal : slides_of st1 !! k = Some final).
    { rewrite Hslides1. apply list_lookup_insert_eq.
      by eapply lookup_lt_Some. }
    destruct (IH _ _ _ _ _ _ _ Hrun Hfinal) as (slide' & Hslide' & Hc & Hb).
    exists slide'. split; [done|]. split.
    + intros Hall. apply Forall_cons in Hall as [Hhead Hall].
      rewrite (Hc Hall). apply Hcontent.
      destruct (field info) eqn:Hfield; [left|by right].
      apply changed_none. by apply Hhead.
    + intros l Hl. destruct (Hbullets l Hl) as (l1 & Hl1 & Hsame1).
      destruct (Hb l1 Hl1) as (l' & Hl' & Hsame').
      exists l'. split; [done|]. intros j Hall.
      apply Forall_cons in Hall as [Hhead Hall].
      rewrite (Hsame' j Hall). apply Hsame1.
      destruct (field info) as [|j0] eqn:Hfield; [by right|].
      destruct (decide (j0 = j)) as [->|Hj].
      * left. apply changed_none. by apply Hhead.
      * right. congruence.
  - assert (Hsame : slides_of st1 !! k = Some slide).
    { rewrite Hslides1. by rewrite list_lookup_insert_ne. }
    destruct (IH _ _ _ _ _ _ _ Hrun Hsame) as (slide' & Hslide' & Hc & Hb).
    exists slide'. split; [done|]. split.
    + intros Hall. apply Forall_cons in Hall as [_ Hall]. by apply Hc.
    + intros l Hl. destruct (Hb l Hl) as (l' & Hl' & Hsame').
      exists l'. split; [done|]. intros j Hall.
      apply Forall_cons in Hall as [_ Hall]. by apply Hsame'.
Qed.

(** A text that the analysis accepts is never altered. Whenever
    [refine_content] returns, whatever the collaborator answered: on
    every slide, a content string whose analysis asks for no rewrite is
    the content of the returned slide, and every bullet whose analysis
    asks for no rewrite stands unchanged at its position in the returned
    bullet list. *)
Theorem accepted_text_is_never_altered self (data data' : deck) :
  outcome (refine_content self data) = Ok data' →
  Forall2 (λ slide slide', content_kept slide slide'
                           ∧ bullets_kept slide slide')
    (slides_of_deck data) (slides_of_deck data').
Proof.
  intros Hrun.
  apply refine_content_inv in Hrun
    as [[-> _]|(slides & _ & Hslides & _ & Hrun)].
  { apply Forall_Forall2_diag, Forall_forall. intros slide _. split.
    - by intros c Hc _.
    - intros l j b Hl Hj _. by exists l. }
  apply refine_slides_inv in Hrun
    as (frags & refined & st & slides' & running
        & Hfrags & _ & Hloop & Hfinal & ->).
  unfold slides_of_deck. rewrite Hslides.
  rewrite lookup_insert_ne, lookup_insert_eq by done.
  apply collect_sound in Hfrags. rewrite Forall_forall in Hfrags.
  destruct (finalize_floor _ _ _ _ Hfinal) as [_ Hother].
  apply Forall2_same_length_lookup. split.
  { rewrite <- (Forall2_length _ _ _ Hother).
    apply update_loop_carried in Hloop. apply Forall2_length in Hloop.
    done. }
  intros k slide slide' Hslide Hslide'.
  destruct (update_loop_kept _ _ _ _ _ _ k slide Hloop Hslide)
    as (mid & Hmid & Hc & Hb).
  assert (Hmid' : ∀ key, key ≠ "quality_score" → slide' !! key = mid !! key).
  { exact (Forall2_lookup_lr _ _ _ _ _ _ Hother Hmid Hslide'). }
  split.
  - intros c Hcontent Hnone. rewrite Hmid' by done. rewrite Hc; [done|].
    apply Forall_forall. intros f Hf Hidx Hfield.
    destruct (Hfrags f Hf) as (k' & slide0 & Hi & Hk' & -> & Hat).
    rewrite Hfield in Hat. cbn in Hi.
    assert (slide0 = slide) as -> by congruence.
    assert (text f = c) as -> by congruence. done.
  - intros l j b Hl Hj Hnone. destruct (Hb l Hl) as (l' & Hl' & Hsame).
    exists l'. rewrite Hmid' by done. split; [done|].
    rewrite Hsame; [done|].
    apply Forall_forall. intros f Hf Hidx Hfield.
    destruct (Hfrags f Hf) as (k' & slide0 & Hi & Hk' & -> & Hat).
    rewrite Hfield in Hat. cbn in Hi.
    assert (slide0 = slide) as -> by congruence.
    destruct Hat as (bs & Hbs & Hat). rewrite Hl in Hbs. cbn in Hbs.
    assert (text f = b) as -> by congruence. done.
Qed.

Lemma accepted_text_is_never_altered_witness :
  outcome (refine_content echo long_word_deck) = Ok refined_long_word_deck
  ∧ Forall2 (λ slide slide', content_kept slide slide'
                             ∧ bullets_kept slide slide')
      (slides_of_deck long_word_deck) (slides_of_deck refined_long_word_deck).
Proof.
  split; [exact refined_long_word_deck_run|].
  apply (accepted_text_is_never_altered echo long_word_deck).
  exact refined_long_word_deck_run.
Defined.

(** *** The counters of the statistics *)

Lemma backed_up_carried k slide slide' :
  carried_over slide slide' → backed_up k slide → backed_up k slide'.
Proof. intros (_ & Hkeys & Hflag & _) [H1 H2]. split; auto. Qed.

Lemma counted_insert k improved (slides : list dict) i slide final :
  slides !! i = Some slide →
  carried_over slide final →
  counted k improved slides →
  counted k improved (<[i := final]> slides).
Proof.
  intros Hslide Hcarried Hall i' Hi'.
  destruct (Hall i' Hi') as (s & Hs & Hbacked).
  destruct (decide (i = i')) as [<-|Hne].
  - exists final. split.
    + apply list_lookup_insert_eq. by eapply lookup_lt_Some.
    + assert (s = slide) as -> by congruence.
      by eapply backed_up_carried.
  - exists s. by rewrite list_lookup_insert_ne.
Qed.

Lemma counted_add k improved (slides : list dict) i slide final :
  slides !! i = Some slide →
  carried_over slide final →
  backed_up k final →
  counted k improved slides →
  counted k ({[i]} ∪ improved) (<[i := final]> slides).
Proof.
  intros Hslide Hcarried Hfinal Hall i' Hi'.
  apply elem_of_union in Hi' as [Hi'|Hi'].
  - apply elem_of_singleton in Hi' as ->. exists final. split; [|done].
    apply list_lookup_insert_eq. by eapply lookup_lt_Some.
  - by eapply counted_insert.
Qed.

Lemma update_loop_counted infos :
  ∀ st texts refined_texts i st',
    update_loop st texts refined_texts i infos = Ok st' →
    counted "original_content" (improved_content_slides st) (slides_of st) →
    counted "original_bullet_points" (improved_bullets_slides st)
      (slides_of st) →
    counted "original_content" (improved_content_slides st') (slides_of st')
    ∧ counted "original_bullet_points" (improved_bullets_slides st')
        (slides_of st').
Proof.
  induction infos as [|info infos IH];
    intros st texts refined_texts i st' Hrun Hic Hib; cbn in Hrun.
  { by injection Hrun as <-. }
  do 3 step_ok Hrun. rename a1 into st1.
  destruct (update_fragment_slide _ _ _ _ _ E1)
    as (slide & final & Hslide & Hs1 & Hcarried & Hbacked & _ & _
        & Hic1 & Hib1).
  apply (IH _ _ _ _ _ Hrun); rewrite Hs1.
  - rewrite Hic1. destruct (field info), (changed a a0 info);
      try (by eapply counted_insert).
    eapply counted_add; try done. by apply Hbacked.
  - rewrite Hib1. destruct (field info), (changed a a0 info);
      try (by eapply counted_insert).
    eapply counted_add; try done. by apply Hbacked.
Qed.

Lemma counted_finalize k improved slides running slides' running' :
  finalize slides running = Ok (slides', running') →
  counted k improved slides → counted k improved slides'.
Proof.
  intros Hfinal Hall i Hi. destruct (Hall i Hi) as (s & Hs & Hbacked).
  apply finalize_carried in Hfinal.
  destruct (Forall2_lookup_l _ _ _ _ _ Hfinal Hs) as (s' & Hs' & Hcarried).
  exists s'. split; [done|]. by eapply backed_up_carried.
Qed.

Lemma counted_size k improved (slides : list dict) :
  counted k improved slides → (size improved ≤ length slides)%nat.
Proof.
  intros Hall. rewrite <- (length_seq (length slides) 0).
  apply submseteq_length, NoDup_submseteq; [apply NoDup_elements|].
  intros i Hi. apply elem_of_elements in Hi.
  destruct (Hall i Hi) as (s & Hs & _).
  apply elem_of_seq. split; [lia|]. cbn. by eapply lookup_lt_Some.
Qed.

(** The statistics count slides, and only slides that show the rewrite.
    When the available refiner returns for a deck with slides, the
    statistics hold the number of slides under [total_slides], and the
    numbers under [improved_content] and [improved_bullets] are the
    lengths of two duplicate-free lists of slide positions: neither
    exceeds the number of slides, every slide counted is flagged
    [bert_refined], and it holds the backup [original_content],
    respectively [original_bullet_points]. *)
Theorem improved_counts_are_backed_up_slides self (data data' : deck)
    (slides : list dict) :
  available self = true →
  data !! "slides" = Some (ESlides slides) →
  slides ≠ [] →
  outcome (refine_content self data) = Ok data' →
  ∃ stats (ic ib : list nat),
    data' !! "bert_refinement_stats" = Some (EDict stats)
    ∧ stats !! "total_slides" = Some (VNum (Qc_of_nat (length slides)))
    ∧ stats !! "improved_content" = Some (VNum (Qc_of_nat (length ic)))
    ∧ stats !! "improved_bullets" = Some (VNum (Qc_of_nat (length ib)))
    ∧ NoDup ic ∧ NoDup ib
    ∧ (length ic ≤ length slides)%nat ∧ (length ib ≤ length slides)%nat
    ∧ (∀ i, i ∈ ic →
         ∃ slide', slides_of_deck data' !! i = Some slide'
                   ∧ backed_up "original_content" slide')
    ∧ (∀ i, i ∈ ib →
         ∃ slide', slides_of_deck data' !! i = Some slide'
                   ∧ backed_up "original_bullet_points" slide').
Proof.
  intros Havail Hslides Hne Hrun.
  apply refine_content_inv in Hrun
    as [[_ [Hoff|Hempty]]|(slides0 & _ & Hslides0 & _ & Hrun)].
  { congruence. }
  { unfold slides_of_deck in Hempty. by rewrite Hslides in Hempty. }
  assert (slides0 = slides) as -> by congruence.
  apply refine_slides_inv in Hrun
    as (frags & refined & st & slides' & running
        & _ & _ & Hloop & Hfinal & ->).
  destruct (update_loop_counted _ _ _ _ _ _ Hloop) as [Hic Hib].
  { by intros i Hi. }
  { by intros i Hi. }
  assert (Hlen : length slides' = length slides).
  { apply finalize_carried, Forall2_length in Hfinal.
    apply update_loop_carried, Forall2_length in Hloop.
    cbn [slides_of] in Hloop. congruence. }
  apply (counted_finalize _ _ _ _ _ _ Hfinal) in Hic, Hib.
  exists (make_stats self (length slides') st running),
    (elements (improved_content_slides st)),
    (elements (improved_bullets_slides st)).
  unfold slides_of_deck.
  rewrite lookup_insert_eq, lookup_insert_ne, lookup_insert_eq by done.
  split; [done|]. unfold make_stats.
  split; [by rewrite !lookup_insert_ne, Hlen by done|].
  split; [by rewrite lookup_insert_ne, lookup_insert_ne, lookup_insert_eq|].
  split; [by rewrite lookup_insert_ne, lookup_insert_eq|].
  split; [apply NoDup_elements|]. split; [apply NoDup_elements|].
  rewrite <- Hlen.
  split; [exact (counted_size _ _ _ Hic)|].
  split; [exact (counted_size _ _ _ Hib)|].
  split; intros i Hi; apply elem_of_elements in Hi; auto.
Qed.

Lemma improved_counts_are_backed_up_slides_witness :
  ∃ stats (ic ib : list nat),
    refined_long_word_deck !! "bert_refinement_stats" = Some (EDict stats)
    ∧ stats !! "total_slides" = Some (VNum (Qc_of_nat 1))
    ∧ stats !! "improved_content" = Some (VNum (Qc_of_nat (length ic)))
    ∧ stats !! "improved_bullets" = Some (VNum (Qc_of_nat (length ib)))
    ∧ NoDup ic ∧ NoDup ib
    ∧ (length ic ≤ 1)%nat ∧ (length ib ≤ 1)%nat
    ∧ (∀ i, i ∈ ic →
         ∃ slide', slides_of_deck refined_long_word_deck !! i = Some slide'
                   ∧ backed_up "original_content" slide')
    ∧ (∀ i, i ∈ ib →
         ∃ slide', slides_of_deck refined_long_word_deck !! i = Some slide'
                   ∧ backed_up "original_bullet_points" slide').
Proof.
  apply (improved_counts_are_backed_up_slides echo long_word_deck
           refined_long_word_deck
           [ {[ "content" := VStr "internationalization";
                "bullet_points" :=
                  VList ["short one"; "internationalization again"] ]} ]).
  - reflexivity.
  - reflexivity.
  - discriminate.
  - exact refined_long_word_deck_run.
Defined.

(** *** The answers of the collaborator *)

Lemma rewritten_cons a actions t results :
  rewritten (a :: actions) (t :: results)
  = if decide (a ≠ none) then t :: rewritten actions results
    else rewritten actions results.
Proof.
  unfold rewritten. cbn [zip zip_with]. rewrite filter_cons. cbn [fst].
  by case_decide.
Qed.

Lemma map_back_rewritten texts refined_texts actions :
  ∀ i refined_idx results,
    map_back texts refined_texts i refined_idx actions = Ok results →
    rewritten actions results
    = take (length (filter (λ a, a ≠ none) actions))
        (drop refined_idx refined_texts).
Proof.
  induction actions as [|a actions IH]; intros i ri results Hrun;
    cbn in Hrun.
  { by injection Hrun as <-. }
  rewrite filter_cons. case_decide as Hne.
  - unfold index in Hrun.
    destruct (refined_texts !! ri) as [t|] eqn:Ht; [|done]. cbn in Hrun.
    step_ok Hrun. injection Hrun as <-.
    rewrite rewritten_cons, decide_True by done.
    rewrite (drop_S _ _ _ Ht). cbn. f_equal. by eapply IH.
  - do 2 step_ok Hrun. injection Hrun as <-.
    rewrite rewritten_cons, decide_False by (intros H; contradiction).
    by eapply IH.
Qed.

Lemma map_back_short texts refined_texts actions :
  ∀ i refined_idx,
    (i + length actions ≤ length texts)%nat →
    (refined_idx ≤ length refined_texts)%nat →
    (length refined_texts
     < refined_idx + length (filter (λ a, a ≠ none) actions))%nat →
    map_back texts refined_texts i refined_idx actions = Raise IndexError.
Proof.
  induction actions as [|a actions IH]; intros i ri Htexts Hri Hshort.
  { cbn in Hshort. lia. }
  cbn in Htexts. cbn [map_back]. rewrite filter_cons in Hshort.
  case_decide as Hne; unfold index.
  - cbn in Hshort. destruct (refined_texts !! ri) as [t|] eqn:Ht; [|done].
    apply lookup_lt_Some in Ht.
    cbn. rewrite IH; [done|lia|lia|lia].
  - destruct (lookup_lt_is_Some_2 texts i) as [x ->]; [lia|].
    cbn. rewrite IH; [done|lia|lia|lia].
Qed.

(** The answers go back in order. When the batch function has prompts
    to send, one text per action, and the collaborator returns at least
    as many answers as prompts, the result has one text per fragment and
    the texts at the rewritten positions are, in order, the first answers
    of the collaborator, one per prompt; surplus answers are ignored.
    When the collaborator returns fewer answers than prompts, the batch
    function raises [IndexError]. *)
Theorem batch_answers_go_back_in_order self texts actions :
  available self = true →
  length texts = length actions →
  prompts texts actions ≠ [] →
  let answers := generate self (prompts texts actions) in
  ((length (prompts texts actions) ≤ length answers)%nat →
   ∃ results,
     outcome (refine_content_batch self texts actions) = Ok results
     ∧ length results = length texts
     ∧ rewritten actions results
       = take (length (prompts texts actions)) answers)
  ∧ ((length answers < length (prompts texts actions))%nat →
     outcome (refine_content_batch self texts actions) = Raise IndexError).
Proof.
  intros Havail Hlen Hprompts answers.
  assert (Hrun : outcome (refine_content_batch self texts actions)
                 = map_back texts answers 0 0 actions).
  { unfold refine_content_batch. rewrite Havail. cbn [negb orb].
    destruct texts as [|t texts]; [by destruct actions|].
    rewrite bool_decide_false by done.
    rewrite decide_False by done. by rewrite outcome_bind. }
  rewrite Hrun. pose proof (prompts_length texts actions Hlen) as Hn.
  split.
  - intros Henough.
    destruct (map_back_total texts answers actions 0 0)
      as (results & Hres & Hl); [lia|lia|].
    exists results. split; [done|]. split; [lia|].
    rewrite Hn. by rewrite (map_back_rewritten _ _ _ _ _ _ Hres).
  - intros Hshort. apply map_back_short; lia.
Qed.

Lemma batch_answers_go_back_in_order_witness :
  ∃ results,
    outcome (refine_content_batch echo ["short one"; six_words]
               [none; clarify]) = Ok results
    ∧ length results = 2%nat
    ∧ rewritten [none; clarify] results
      = ["make it clear: internationalization a b c d e"].
Proof.
  apply (batch_answers_go_back_in_order echo ["short one"; six_words]
           [none; clarify]).
  - reflexivity.
  - reflexivity.
  - discriminate.
  - cbn. lia.
Defined.

(** *** The fallback class *)

Lemma stamp_stamp slide :
  Fallback.stamp (Fallback.stamp slide) = Fallback.stamp slide.
Proof.
  unfold Fallback.stamp.
  rewrite (insert_insert_ne _ "quality_score" "bert_refined") by done.
  by rewrite !insert_insert_eq.
Qed.

(** The fallback is idempotent. When the fallback [refine_content]
    returns, a second call on the returned deck with the updated instance
    returns that same deck and that same instance: the slides are stamped
    once with the fixed score and flag, and the statistics are
    unchanged. *)
Theorem fallback_refine_is_idempotent
    (self self1 : Fallback.BertContentRefiner) (data data1 : deck) :
  Fallback.refine_content self data = Ok (self1, data1) →
  Fallback.refine_content self1 data1 = Ok (self1, data1).
Proof.
  unfold Fallback.refine_content. intros Hrun.
  step_ok Hrun. rename a into slides, E into Hslides.
  injection Hrun as <- <-. cbn [Fallback.refinement_stats Fallback.available].
  destruct slides as [slides|].
  - assert (data !! "slides" = Some (ESlides slides)) as Hs.
    { destruct (data !! "slides") as [[[]|sl|d]|]; try done.
      - by destruct s.
      - by destruct l.
      - congruence.
      - by case_decide. }
    rewrite lookup_insert_ne, lookup_insert_eq by done.
    cbn [mbind result_bind default from_option id].
    assert (Hst : Fallback.stamp <$> (Fallback.stamp <$> slides)
                  = Fallback.stamp <$> slides).
    { rewrite <- list_fmap_compose. apply list_fmap_ext.
      intros i x _. apply stamp_stamp. }
    rewrite Hst, insert_insert_eq.
    do 2 f_equal.
    rewrite (insert_insert_ne _ "slides" "bert_refinement_stats") by done.
    by rewrite !insert_insert_eq.
  - rewrite lookup_insert_ne by done.
    destruct (data !! "slides") as [e|] eqn:Hs.
    + rewrite Hslides.
      cbn [mbind result_bind default from_option id fmap list_fmap length].
      by rewrite !insert_insert_eq.
    + cbn [mbind result_bind default from_option id fmap list_fmap length].
      by rewrite !insert_insert_eq.
Qed.

Lemma fallback_refine_is_idempotent_witness :
  ∃ self1 data1,
    Fallback.refine_content Fallback.init long_word_deck = Ok (self1, data1)
    ∧ Fallback.refine_content self1 data1 = Ok (self1, data1).
Proof.
  eexists _, _. split; [reflexivity|].
  apply (fallback_refine_is_idempotent Fallback.init _ long_word_deck).
  reflexivity.
Defined.

(** *** The score of a slide *)










End refiner_frames.

(** Each element of a list that is written out satisfies the property
    that [tac] proves. *)
Ltac for_each tac :=
  repeat (apply Forall_cons_2; [tac|]); apply Forall_nil_2.

(** ** Placing pictures and text *)

Section placement.
Import Font Placement.

Lemma int_Qc_of_Z (n : Z) : int (Qc_of_Z n) = n.
Proof. unfold int, Qc_of_Z. cbn. apply Z.quot_1_r. Qed.

(** Lengths that grow by a fixed step are exact in EMU. *)
Lemma Inches_step (a b : Qc) (za zb : Z) (i : nat) :
  (a * Qc_of_Z 914400 = Qc_of_Z za)%Qc →
  (b * Qc_of_Z 914400 = Qc_of_Z zb)%Qc →
  Inches (a + Qc_of_Z (Z.of_nat i) * b) = za + Z.of_nat i * zb.
Proof.
  intros Ha Hb. unfold Inches.
  replace ((a + Qc_of_Z (Z.of_nat i) * b) * Qc_of_Z 914400)%Qc
    with (a * Qc_of_Z 914400
          + Qc_of_Z (Z.of_nat i) * (b * Qc_of_Z 914400))%Qc by ring.
  rewrite Ha, Hb, <- Z2Qc_inj_mul, <- Z2Qc_inj_add. apply int_Qc_of_Z.
Qed.

Lemma apart_sym s1 s2 : apart s1 s2 → apart s2 s1.
Proof.
  unfold apart. destruct (frame s1) as [[[l1 t1] w1] h1].
  destruct (frame s2) as [[[l2 t2] w2] h2]. tauto.
Qed.

Lemma all_apart_nil : all_apart [].
Proof. by intros i j s1 s2 _ H. Qed.

Lemma all_apart_cons s shapes :
  Forall (apart s) shapes → all_apart shapes → all_apart (s :: shapes).
Proof.
  intros Hs Hall i j s1 s2 Hij H1 H2. rewrite Forall_forall in Hs.
  destruct i as [|i], j as [|j]; cbn in H1, H2.
  - done.
  - injection H1 as <-. apply Hs. by eapply list_elem_of_lookup_2.
  - injection H2 as <-. apply apart_sym, Hs. by eapply list_elem_of_lookup_2.
  - apply (Hall i j); auto.
Qed.

(** The pictures of a loop over the images, from position [k] on. *)
Lemma pictures_from (fs : string → bool) (place : nat → string → shape)
    (images : list string) :
  ∀ k,
    let shapes :=
      omap (λ ip : nat * string,
              if fs ip.2 then Some (place ip.1 ip.2) else None)
        (imap (λ i path, ((k + i)%nat, path)) images) in
    Forall (λ s, ∃ i path, images !! i = Some path ∧ fs path = true
                           ∧ s = place (k + i)%nat path) shapes
    ∧ (∀ i path, images !! i = Some path → fs path = true →
                 place (k + i)%nat path ∈ shapes)
    ∧ (length shapes ≤ length images)%nat
    ∧ ((∀ path, path ∈ images → fs path = true) →
       length shapes = length images)
    ∧ ((∀ i j p q, i ≠ j → images !! i = Some p → images !! j = Some q →
                   apart (place (k + i)%nat p) (place (k + j)%nat q)) →
       all_apart shapes).
Proof.
  induction images as [|x images IH]; intros k shapes.
  { subst shapes. cbn. split; [constructor|]. split; [done|].
    split; [done|]. split; [done|]. intros _. apply all_apart_nil. }
  pose proof (IH (S k)) as IH'. cbn zeta in IH'.
  destruct IH' as (Hform & Hin & Hlen & Hall & Hapart).
  assert (Hshapes : shapes
    = (if fs x then [place (k + 0)%nat x] else [])
      ++ omap (λ ip : nat * string,
                 if fs ip.2 then Some (place ip.1 ip.2) else None)
           (imap (λ i path, ((S k + i)%nat, path)) images)).
  { subst shapes. cbn [imap omap list_omap fst snd].
    rewrite (imap_ext _ (λ i path, ((S k + i)%nat, path))).
    - by destruct (fs x).
    - intros i path _. cbn. f_equal. lia. }
  rewrite Hshapes. clear Hshapes shapes.
  assert (Hrest : Forall (λ s, ∃ i path, (x :: images) !! i = Some path
                                 ∧ fs path = true
                                 ∧ s = place (k + i)%nat path)
            (omap (λ ip : nat * string,
                     if fs ip.2 then Some (place ip.1 ip.2) else None)
               (imap (λ i path, ((S k + i)%nat, path)) images))).
  { eapply Forall_impl; [exact Hform|].
    intros s (i & path & Hi & Hfs & ->). exists (S i), path.
    split; [done|]. split; [done|]. f_equal. lia. }
  split; [|split; [|split; [|split]]].
  - apply Forall_app. split; [|done].
    destruct (fs x) eqn:Hx; [|constructor].
    constructor; [|constructor]. by exists 0%nat, x.
  - intros i path Hi Hfs. apply elem_of_app. destruct i as [|i]; cbn in Hi.
    + injection Hi as ->. rewrite Hfs. left. apply list_elem_of_singleton. done.
    + right. replace (k + S i)%nat with (S k + i)%nat by lia. by apply Hin.
  - rewrite length_app. destruct (fs x); cbn [length]; lia.
  - intros Hexists. rewrite length_app, Hall.
    + rewrite (Hexists x) by apply list_elem_of_here. done.
    + intros path Hpath. apply Hexists. by apply list_elem_of_further.
  - intros Hplaces.
    assert (Htail : all_apart
              (omap (λ ip : nat * string,
                       if fs ip.2 then Some (place ip.1 ip.2) else None)
                 (imap (λ i path, ((S k + i)%nat, path)) images))).
    { apply Hapart. intros i j p q Hij Hi Hj.
      replace (S k + i)%nat with (k + S i)%nat by lia.
      replace (S k + j)%nat with (k + S j)%nat by lia.
      apply (Hplaces (S i) (S j)); auto. }
    destruct (fs x); [|done]. cbn [app]. apply all_apart_cons; [|done].
    eapply Forall_impl; [exact Hform|].
    intros s (i & path & Hi & Hfs & ->).
    replace (S k + i)%nat with (k + S i)%nat by lia.
    by apply (Hplaces 0%nat (S i)).
Qed.

(** What a loop over [enumerate(images)] adds: one picture for every
    image whose file exists, placed by its position in the list. *)
Lemma pictures_spec (fs : string → bool) (place : nat → string → shape)
    (images : list string) :
  Forall (λ s, ∃ i path, images !! i = Some path ∧ fs path = true
                         ∧ s = place i path) (pictures fs place images)
  ∧ (∀ i path, images !! i = Some path → fs path = true →
               place i path ∈ pictures fs place images)
  ∧ (length (pictures fs place images) ≤ length images)%nat
  ∧ ((∀ path, path ∈ images → fs path = true) →
     length (pictures fs place images) = length images)
  ∧ ((∀ i j p q, i ≠ j → images !! i = Some p → images !! j = Some q →
                 apart (place i p) (place j q)) →
     all_apart (pictures fs place images)).
Proof. exact (pictures_from fs place images 0). Qed.

(** Lengths given by literals, evaluated. *)
Ltac inches :=
  repeat match goal with
  | |- context [Inches ?q] =>
      let v := eval vm_compute in (Inches q) in
      lazymatch v with
      | Z0 => idtac
      | Zpos _ => idtac
      | Zneg _ => idtac
      end;
      replace (Inches q) with v by (vm_compute; reflexivity)
  end.

Ltac on_the_page :=
  unfold on_page, page_width, page_height, _add_content_text_box;
  cbv beta zeta; cbn [frame]; inches; repeat case_decide; lia.

Ltac are_apart :=
  unfold apart, _add_content_text_box; cbv beta zeta; cbn [frame]; inches;
  repeat case_decide; lia.

Ltac all_are_apart :=
  repeat (apply all_apart_cons; [for_each are_apart|]);
  apply all_apart_nil.

Ltac decide_bools :=
  repeat first
    [ rewrite bool_decide_true by (done || lia)
    | rewrite bool_decide_false by (first [lia | by intros []]) ].

(** *** Charts alone *)

(** A slide that shows only charts shows at most four of them, one for
    each of the first four chart files that exists: a single chart in the
    middle, two side by side, three or more in a grid of two columns.
    Every chart lies on the 10 x 7.5 inch page and no two charts share
    area; a fifth chart and any later one is not shown. *)
Theorem charts_only_fit_the_page (fs : string → bool)
    (chart_images : list string) :
  let shapes := _layout_charts_only fs chart_images in
  (length shapes ≤ 4)%nat
  ∧ Forall (λ s, on_page s
                 ∧ ∃ path l t w h,
                     s = Picture path l t w h
                     ∧ path ∈ take 4 chart_images ∧ fs path = true) shapes
  ∧ all_apart shapes
  ∧ ((∀ path, path ∈ chart_images → fs path = true) →
     length shapes = Nat.min 4 (length chart_images)).
Proof.
  intros shapes. subst shapes. unfold _layout_charts_only.
  destruct chart_images as [|a [|b [|c rest]]]; cbn [length].
  - rewrite !decide_False by done. cbn.
    split; [lia|]. split; [constructor|]. split; [apply all_apart_nil|done].
  - rewrite decide_True by done. cbn [lookup list_lookup].
    destruct (fs a) eqn:Ha.
    + split; [cbn; lia|]. split.
      { constructor; [|constructor]. split; [on_the_page|].
        eexists _, _, _, _, _. split; [done|].
        split; [apply list_elem_of_here|done]. }
      split; [all_are_apart|done].
    + split; [cbn; lia|]. split; [constructor|].
      split; [apply all_apart_nil|]. intros Hall.
      rewrite (Hall a) in Ha by apply list_elem_of_here. done.
  - rewrite decide_False, decide_True by done.
    match goal with
    | |- context [pictures fs ?place ?images] =>
        destruct (pictures_spec fs place images)
          as (Hform & _ & Hlen & Hall & Hapart)
    end.
    split; [cbn [length] in Hlen; lia|]. split.
    { eapply Forall_impl; [exact Hform|].
      intros s (i & path & Hi & Hfs & ->).
      assert (i < 2)%nat as Hlt by (by apply lookup_lt_Some in Hi).
      split.
      - destruct i as [|[|i]]; [| |lia]; on_the_page.
      - eexists _, _, _, _, _. split; [done|]. split; [|done].
        by eapply list_elem_of_lookup_2. }
    split; [|by intros H; rewrite Hall].
    apply Hapart. intros i j p q Hij Hi Hj.
    apply lookup_lt_Some in Hi, Hj. cbn [length] in Hi, Hj.
    destruct i as [|[|i]], j as [|[|j]]; try lia; are_apart.
  - rewrite !decide_False by done.
    match goal with
    | |- context [pictures fs ?place ?images] =>
        destruct (pictures_spec fs place images)
          as (Hform & _ & Hlen & Hall & Hapart)
    end.
    assert (Hfour : (length (take 4 (a :: b :: c :: rest)) ≤ 4)%nat).
    { rewrite length_take. lia. }
    split; [lia|]. split.
    { eapply Forall_impl; [exact Hform|].
      intros s (i & path & Hi & Hfs & ->).
      assert (i < 4)%nat as Hlt by (apply lookup_lt_Some in Hi; lia).
      split.
      - destruct i as [|[|[|[|i]]]]; [| | | |lia]; on_the_page.
      - eexists _, _, _, _, _. split; [done|]. split; [|done].
        by eapply list_elem_of_lookup_2. }
    split.
    + apply Hapart. intros i j p q Hij Hi Hj.
      apply lookup_lt_Some in Hi, Hj.
      destruct i as [|[|[|[|i]]]], j as [|[|[|[|j]]]]; try lia; are_apart.
    + intros Hexist. rewrite Hall.
      * rewrite length_take. cbn [length]. lia.
      * intros path Hpath. apply Hexist.
        by apply (subseteq_take 4 (a :: b :: c :: rest)).
Qed.

(** *** Diagrams alone *)

Lemma diagram_top (i : nat) :
  Inches (dec 15 10 + Qc_of_Z (Z.of_nat i) * dec 25 10)
  = Inches (dec 15 10) + Z.of_nat i * Inches (dec 25 10).
Proof.
  rewrite (Inches_step _ _ 1371600 2286000).
  - inches. done.
  - apply Qc_is_canon. vm_compute. reflexivity.
  - apply Qc_is_canon. vm_compute. reflexivity.
Qed.

(** A slide that shows only diagrams stacks them, one for every diagram
    file that exists, 2.5 inches apart from 1.5 inches down, without a
    limit on their number. No two diagrams share area, and the diagram of
    position [i] lies on the 10 x 7.5 inch page exactly for the first two
    positions: a third diagram and any later one reaches below the
    page. *)
Theorem diagrams_only_run_off_the_page (fs : string → bool)
    (diagram_images : list string) :
  let shapes := _layout_diagrams_only fs diagram_images in
  let placed (i : nat) (path : string) :=
    Picture path (Inches (Qc_of_Z 1))
      (Inches (dec 15 10) + Z.of_nat i * Inches (dec 25 10))
      (Inches (Qc_of_Z 8)) (Inches (Qc_of_Z 2)) in
  all_apart shapes
  ∧ Forall (λ s, ∃ i path,
              diagram_images !! i = Some path ∧ fs path = true
              ∧ s = placed i path
              ∧ (on_page s ↔ (i < 2)%nat)) shapes
  ∧ (∀ i path, diagram_images !! i = Some path → fs path = true →
               placed i path ∈ shapes)
  ∧ ((∀ path, path ∈ diagram_images → fs path = true) →
     length shapes = length diagram_images).
Proof.
  intros shapes placed. subst shapes. unfold _layout_diagrams_only.
  match goal with
  | |- context [pictures fs ?place ?images] =>
      destruct (pictures_spec fs place images)
        as (Hform & Hin & _ & Hall & Hapart)
  end.
  split; [|split; [|split]].
  - apply Hapart. intros i j p q Hij _ _. unfold apart. cbn [frame].
    rewrite !diagram_top. inches. lia.
  - eapply Forall_impl; [exact Hform|].
    intros s (i & path & Hi & Hfs & ->). exists i, path.
    split; [done|]. split; [done|]. rewrite diagram_top.
    split; [done|].
    unfold on_page, page_width, page_height. cbn [frame]. inches. lia.
  - intros i path Hi Hfs. unfold placed. rewrite <- diagram_top.
    by apply Hin.
  - done.
Qed.

(** *** Charts and diagrams together *)

(** The mixed layout shows the text only when charts or diagrams are
    missing. It puts up to two charts side by side, one diagram below
    them, and the text box below that if the running top edge is still
    above 6 inches: with both charts and diagrams on the slide the edge
    stands at 6.5 inches and the slide content is left out. At most three
    shapes are added, every one lies on the 10 x 7.5 inch page, no two
    share area, and anything that is not a picture is the one text box of
    the slide content. *)
Theorem mixed_media_leaves_out_the_text (self : ResponsiveFontManager)
    (fs : string → bool) (chart_images diagram_images : list string)
    (slide_data : SlideData) :
  let shapes :=
    _layout_mixed_media self fs chart_images diagram_images slide_data in
  Forall on_page shapes
  ∧ all_apart shapes
  ∧ (length shapes ≤ 3)%nat
  ∧ (Exists (λ s, is_picture s = false) shapes
     ↔ slide_content slide_data ≠ []
       ∧ (chart_images = [] ∨ diagram_images = []))
  ∧ Forall (λ s, is_picture s = true
                 ∨ ∃ top, s = _add_content_text_box self slide_data
                                (Inches (Qc_of_Z 1)) top
                                (Inches (Qc_of_Z 8)) (Inches (dec 15 10)))
      shapes.
Proof.
  intros shapes. subst shapes. unfold _layout_mixed_media, pictures.
  destruct chart_images as [|a [|b crest]], diagram_images as [|d drest],
    (slide_content slide_data) as [|point points] eqn:Hpoints;
    rewrite ?(bool_decide_false ([] ≠ [])) by (by intros []);
    rewrite ?(bool_decide_true (_ :: _ ≠ [])) by done;
    cbn [take firstn imap omap list_omap compose fst snd andb];
    rewrite ?take_0; cbn [imap omap list_omap];
    cbv beta iota; inches; decide_bools;
    repeat match goal with
    | |- context [if fs ?x then _ else _] => destruct (fs x)
    end;
    cbn [app andb fst snd];
    (split; [for_each on_the_page|]);
    (split; [all_are_apart|]);
    (split; [cbn [length]; lia|]);
    (split;
     [rewrite ?Exists_cons, ?Exists_nil; cbn [is_picture _add_content_text_box];
      intuition congruence
     |for_each ltac:(first [by left | right; by eexists])]).
Qed.

(** *** A picture beside the text *)

(** The layouts of one picture with the text add exactly one text box
    and at most one picture (none if the chart or diagram file is
    missing), every shape on the 10 x 7.5 inch page and the two sharing no
    area. Photo and text alternate sides: on a slide with an odd number
    the photo comes first, on the left, and on a slide with an even number
    the text does. *)
Theorem picture_and_text_share_the_page (self : ResponsiveFontManager)
    (fs : string → bool) (images : list string) (slide_number : nat)
    (image_path : string) (slide_data : SlideData) :
  let fits (shapes : list shape) :=
    Forall on_page shapes
    ∧ all_apart shapes
    ∧ (length shapes ≤ 2)%nat
    ∧ length (filter (λ s, is_picture s = false) shapes) = 1%nat in
  fits (_layout_charts_with_content self fs images slide_data)
  ∧ fits (_layout_diagrams_with_content self fs images slide_data)
  ∧ fits (_layout_image_with_content self slide_number image_path
            slide_data)
  ∧ ∃ first second,
      _layout_image_with_content self slide_number image_path slide_data
      = [first; second]
      ∧ (is_picture first = true ↔ (slide_number `mod` 2 = 1)%nat)
      ∧ (is_picture second = true ↔ (slide_number `mod` 2 ≠ 1)%nat)
      ∧ fst (fst (fst (frame first))) < fst (fst (fst (frame second))).
Proof.
  intros fits. subst fits. cbv beta.
  split; [|split; [|split]].
  - unfold _layout_charts_with_content.
    destruct images as [|path rest]; [|destruct (fs path)]; cbn [app];
      (split; [for_each on_the_page|]);
      (split; [all_are_apart|]);
      (split; [cbn [length]; lia|reflexivity]).
  - unfold _layout_diagrams_with_content.
    destruct images as [|path rest]; [|destruct (fs path)]; cbn [app];
      (split; [for_each on_the_page|]);
      (split; [all_are_apart|]);
      (split; [cbn [length]; lia|reflexivity]).
  - unfold _layout_image_with_content. case_decide;
      (split; [for_each on_the_page|]);
      (split; [all_are_apart|]);
      (split; [cbn [length]; lia|reflexivity]).
  - unfold _layout_image_with_content. case_decide as Hodd;
      eexists _, _; (split; [reflexivity|]);
      cbn [is_picture _add_content_text_box frame fst];
      (split; [done|]); (split; [done|]); inches; lia.
Qed.

(** *** The text box *)

Lemma content_size_returns w h len content_type :
  ∃ size,
    get_content_size (_calculate_base_sizes w h) len content_type = Ok size
    ∧ 10 ≤ size.
Proof.
  destruct (base_size_at_least_10 w h (content_key content_type)
              (content_key_in_table w h content_type)) as (base & Hb & Hge).
  rewrite (get_content_size_eq _ _ _ _ Hb). eexists. split; [done|].
  repeat case_match; lia.
Qed.

Lemma bullet_size_returns w h count avg :
  ∃ size,
    get_bullet_size (_calculate_base_sizes w h) count avg = Ok size
    ∧ 11 ≤ size.
Proof.
  destruct (base_size_at_least_10 w h "bullet_main") as (base & Hb & Hge).
  { rewrite scaled_sizes_keys. set_solver. }
  rewrite (get_bullet_size_eq _ _ _ _ Hb). eexists. split; [done|]. lia.
Qed.

(** The text box always holds text in a legible size. With the font
    manager of any slide geometry the text frame is never empty and no
    paragraph is set below 10pt. Without detailed content every bullet of
    the slide content is shown, however many there are (the one empty
    paragraph if there is none). With detailed content the frame shows it
    first, then, if there are bullets, an empty separator and the first
    four or five bullets: seven paragraphs at most. *)
Theorem text_box_paragraphs (w h : Qc) (slide_data : SlideData) :
  let paragraphs := text_frame (_calculate_base_sizes w h) slide_data in
  let detailed := detailed_content slide_data in
  let points := slide_content slide_data in
  let shown := (λ point, "• " +:+ point) <$> points in
  paragraphs ≠ []
  ∧ Forall (λ p, ∀ size, p_size p = Some size → 10 ≤ size) paragraphs
  ∧ (detailed = "" → points = [] → paragraphs = [empty_paragraph])
  ∧ (detailed = "" → points ≠ [] → p_text <$> paragraphs = shown)
  ∧ (detailed ≠ "" → points = [] → p_text <$> paragraphs = [detailed])
  ∧ (detailed ≠ "" → points ≠ [] →
     ∃ n, (n = 4 ∨ n = 5)%nat
          ∧ p_text <$> paragraphs = detailed :: "" :: take n shown)
  ∧ (detailed ≠ "" → (length paragraphs ≤ 7)%nat).
Proof.
  intros paragraphs detailed points shown.
  subst paragraphs detailed points shown. unfold text_frame.
  destruct (content_size_returns w h (len (detailed_content slide_data))
              "detailed") as (size & -> & Hsize).
  destruct (bullet_size_returns w h
              (Z.of_nat (length (slide_content slide_data)))
              (sum_len (slide_content slide_data)
               `div` Z.of_nat (length (slide_content slide_data))))
    as (bsize & Hb & Hbsize).
  destruct (bullet_size_returns w h
              (Z.of_nat (length (slide_content slide_data))) 50)
    as (bsize' & Hb' & Hbsize').
  destruct (decide (detailed_content slide_data = "")) as [Hd|Hd].
  - rewrite bool_decide_false by (by intros []).
    destruct (slide_content slide_data) as [|point points] eqn:Hpoints.
    + rewrite bool_decide_false by (by intros []). rewrite Hb'.
      split; [done|]. split; [by repeat constructor|].
      split; [done|]. split; [done|]. split; [done|]. split; done.
    + rewrite bool_decide_true by done. rewrite Hb.
      split; [done|]. split.
      { apply Forall_forall. intros p Hp.
        apply elem_of_lookup_imap in Hp as (i & x & -> & _).
        cbn. intros size' [= <-]. lia. }
      split; [done|]. split.
      { intros _ _. apply list_eq. intros i.
        rewrite !list_lookup_fmap, list_lookup_imap.
        by destruct ((point :: points) !! i). }
      split; [done|]. split; done.
  - rewrite bool_decide_true by done.
    destruct (slide_content slide_data) as [|point points] eqn:Hpoints.
    + rewrite bool_decide_false by (by intros []).
      split; [done|]. split.
      { constructor; [|constructor]. cbn. intros size' [= <-]. lia. }
      split; [done|]. split; [done|]. split; [done|].
      split; [done|]. cbn. lia.
    + rewrite bool_decide_true by done. rewrite Hb.
      split; [done|]. split.
      { constructor; [cbn; intros size' [= <-]; lia|].
        constructor; [done|].
        apply Forall_fmap, Forall_forall. intros x _.
        cbn. intros size' [= <-]. lia. }
      split; [done|]. split; [done|]. split; [done|]. split.
      * intros _ _. exists (if 14 <=? bsize then 4%nat else 5%nat). split.
        { destruct (14 <=? bsize); auto. }
        cbn [fmap list_fmap p_text]. do 2 f_equal.
        rewrite <- list_fmap_compose, fmap_take. done.
      * intros _. cbn [length]. rewrite length_fmap, length_take.
        destruct (14 <=? bsize); lia.
Qed.

(** *** The title *)

Lemma title_size_returns w h len :
  ∃ size, get_title_size (_calculate_base_sizes w h) len = Ok size
          ∧ 10 ≤ size.
Proof.
  destruct (base_size_at_least_10 w h "slide_title") as (base & Hb & Hge).
  { rewrite scaled_sizes_keys. set_solver. }
  rewrite (get_title_size_eq _ _ _ Hb). eexists. split; [done|].
  repeat case_match; lia.
Qed.

Ltac is_below :=
  unfold below_title, _add_content_text_box; cbv beta zeta; cbn [frame];
  cbv beta iota; inches; repeat case_decide; lia.

Lemma pictures_below fs place images :
  (∀ i path, images !! i = Some path → below_title (place i path)) →
  Forall below_title (pictures fs place images).
Proof.
  intros Hplace. destruct (pictures_spec fs place images) as (Hform & _).
  eapply Forall_impl; [exact Hform|].
  intros s (i & path & Hi & _ & ->). by apply Hplace.
Qed.

(** Every layout begins 1.5 inches down the page. *)
Lemma layouts_begin_below_the_title (self : ResponsiveFontManager)
    (fs : string → bool) (images charts diagrams : list string)
    (slide_number : nat) (image_path : string) (slide_data : SlideData) :
  Forall below_title (_layout_charts_only fs images)
  ∧ Forall below_title (_layout_diagrams_only fs images)
  ∧ Forall below_title (_layout_charts_with_content self fs images slide_data)
  ∧ Forall below_title
      (_layout_diagrams_with_content self fs images slide_data)
  ∧ Forall below_title
      (_layout_image_with_content self slide_number image_path slide_data)
  ∧ Forall below_title
      (_layout_mixed_media self fs charts diagrams slide_data).
Proof.
  split; [|split; [|split; [|split; [|split]]]].
  - unfold _layout_charts_only. repeat case_decide.
    + destruct (images !! 0%nat) as [path|]; [|constructor].
      destruct (fs path); for_each is_below.
    + apply pictures_below. intros i path _. is_below.
    + apply pictures_below. intros i path Hi.
      assert (i < 4)%nat as Hlt.
      { apply lookup_lt_Some in Hi. rewrite length_take in Hi. lia. }
      destruct i as [|[|[|[|i]]]]; [| | | |lia]; is_below.
  - unfold _layout_diagrams_only. apply pictures_below. intros i path _.
    unfold below_title. cbn [frame]. rewrite diagram_top. inches. lia.
  - unfold _layout_charts_with_content.
    destruct images as [|path rest]; [|destruct (fs path)]; cbn [app];
      for_each is_below.
  - unfold _layout_diagrams_with_content.
    destruct images as [|path rest]; [|destruct (fs path)]; cbn [app];
      for_each is_below.
  - unfold _layout_image_with_content. case_decide; for_each is_below.
  - unfold _layout_mixed_media, pictures.
    destruct charts as [|a [|b crest]], diagrams as [|d drest],
      (slide_content slide_data) as [|point points];
      rewrite ?(bool_decide_false ([] ≠ [])) by (by intros []);
      rewrite ?(bool_decide_true (_ :: _ ≠ [])) by done;
      cbn [take firstn imap omap list_omap compose fst snd andb];
      rewrite ?take_0; cbn [imap omap list_omap];
      cbv beta iota; inches; decide_bools;
      repeat match goal with
      | |- context [if fs ?x then _ else _] => destruct (fs x)
      end;
      cbn [app andb fst snd]; for_each is_below.
Qed.

(** The title stays clear of the layout. With the font manager of any
    slide geometry the title box is added without error; it lies on the
    10 x 7.5 inch page and ends at most 1.5 inches down, where every
    layout begins: it shares no area with any picture or text box that a
    layout adds. *)
Theorem the_title_stays_clear (w h : Qc) (title_text : string)
    (fs : string → bool) (images charts diagrams : list string)
    (slide_number : nat) (image_path : string) (slide_data : SlideData) :
  let self := _calculate_base_sizes w h in
  ∃ title,
    _add_title_to_slide self title_text = Ok title
    ∧ on_page title
    ∧ Forall (apart title) (_layout_charts_only fs images)
    ∧ Forall (apart title) (_layout_diagrams_only fs images)
    ∧ Forall (apart title)
        (_layout_charts_with_content self fs images slide_data)
    ∧ Forall (apart title)
        (_layout_diagrams_with_content self fs images slide_data)
    ∧ Forall (apart title)
        (_layout_image_with_content self slide_number image_path slide_data)
    ∧ Forall (apart title)
        (_layout_mixed_media self fs charts diagrams slide_data).
Proof.
  intros self. subst self.
  destruct (title_size_returns w h (len title_text)) as (size & Hsize & _).
  unfold _add_title_to_slide. rewrite Hsize. cbn [mbind result_bind].
  eexists. split; [reflexivity|].
  match goal with
  | |- on_page ?t ∧ _ => set (title := t)
  end.
  assert (Hclear : ∀ s, below_title s → apart title s).
  { intros s. unfold below_title, apart, title. cbn [frame].
    destruct (frame s) as [[[l t] w'] h']. destruct (24 <? size); inches; lia. }
  split.
  { unfold title, on_page, page_width, page_height. cbn [frame].
    destruct (24 <? size); inches; lia. }
  destruct (layouts_begin_below_the_title (_calculate_base_sizes w h) fs
              images charts diagrams slide_number image_path slide_data)
    as (H1 & H2 & H3 & H4 & H5 & H6).
  repeat split; (eapply Forall_impl; [|exact Hclear]); assumption.
Qed.

(** *** The photo of the fallback layout *)

Lemma enhanced_frame_returns w h slide_data :
  ∃ frame,
    enhanced_frame (_calculate_base_sizes w h) slide_data = Ok frame
    ∧ frame ≠ []
    ∧ Forall (λ p, ∀ size, p_size p = Some size → 10 ≤ size) frame.
Proof.
  unfold enhanced_frame.
  destruct (content_size_returns w h (len (detailed_content slide_data))
              "detailed") as (size & -> & Hsize).
  destruct (bullet_size_returns w h
              (Z.of_nat (length (slide_content slide_data)))
              (sum_len (slide_content slide_data)
               `div` Z.of_nat (length (slide_content slide_data))))
    as (bsize & -> & Hbsize).
  destruct (base_size_at_least_10 w h "content_small") as (nsize & -> & Hn).
  { rewrite scaled_sizes_keys. set_solver. }
  assert (Hstyled : ∀ text size spacing color,
            10 ≤ size →
            ∀ z, p_size (styled text size spacing color) = Some z → 10 ≤ z).
  { intros text sz spacing color Hsz z [= <-]. done. }
  assert (Hfirst : ∃ first,
    (if bool_decide (detailed_content slide_data ≠ "")
     then Ok [styled (detailed_content slide_data) size (get_spacing size)
                (51, 51, 51);
              spacer (get_spacing size `div` 2)]
     else Ok [empty_paragraph]) = Ok first
    ∧ first ≠ []
    ∧ Forall (λ p, ∀ z, p_size p = Some z → 10 ≤ z) first).
  { case_bool_decide; eexists; (split; [done|]); (split; [done|]).
    - constructor; [by apply Hstyled|]. by repeat constructor.
    - by repeat constructor. }
  cbn [mbind result_bind].
  destruct Hfirst as (first & -> & Hne & Hall). cbn [mbind result_bind].
  assert (Hsecond : ∃ second,
    (if bool_decide (slide_content slide_data ≠ [])
     then Ok (first
              ++ styled "Điểm chính:" (bsize + 2) (get_spacing bsize)
                   (46, 134, 171)
              :: imap (λ i point,
                         styled ("• " +:+ point) bsize (get_spacing bsize)
                           (if decide (i mod 2 = 0)%nat then (46, 134, 171)
                            else (106, 153, 78)))
                   (slide_content slide_data))
     else Ok first) = Ok second
    ∧ second ≠ []
    ∧ Forall (λ p, ∀ z, p_size p = Some z → 10 ≤ z) second).
  { case_bool_decide; eexists; (split; [done|]).
    - split; [by destruct first|]. apply Forall_app. split; [done|].
      constructor; [apply Hstyled; lia|].
      apply Forall_forall. intros p Hp.
      apply elem_of_lookup_imap in Hp as (i & x & -> & _).
      apply Hstyled. lia.
    - done. }
  destruct Hsecond as (second & -> & Hne2 & Hall2). cbn [mbind result_bind].
  destruct (_ && _); eexists; (split; [done|]).
  - split; [by destruct second|]. apply Forall_app. split; [done|].
    constructor; [done|]. constructor; [apply Hstyled; lia|].
    apply Forall_fmap, Forall_forall. intros x _.
    exact (Hstyled _ _ _ _ Hn).
  - done.
Qed.

(** In the fallback layout the photo stands on the text. The text box
    of the enhanced content is added (without error, for the font manager
    of any slide geometry) whenever the slide has detailed content or
    bullets; its text is never set below 10pt. The box and the photo both
    lie on the 10 x 7.5 inch page below the title, and they share area
    wherever the photo is placed: right on a slide with an odd number and
    left on an even one for the position [smart], or at any of the named
    positions. *)
Theorem the_photo_stands_on_the_text (w h : Qc) (slide_data : SlideData)
    (slide_number : nat) (image_path position : string) :
  let self := _calculate_base_sizes w h in
  let photo := _add_image_to_slide slide_number image_path position in
  (detailed_content slide_data = "" → slide_content slide_data = [] →
   _add_enhanced_content_to_slide self slide_data = Ok [])
  ∧ (detailed_content slide_data ≠ "" ∨ slide_content slide_data ≠ [] →
     ∃ l t wd ht paragraphs,
       _add_enhanced_content_to_slide self slide_data
       = Ok [TextBox l t wd ht paragraphs]
       ∧ paragraphs ≠ []
       ∧ Forall (λ p, ∀ size, p_size p = Some size → 10 ≤ size) paragraphs
       ∧ on_page (TextBox l t wd ht paragraphs)
       ∧ below_title (TextBox l t wd ht paragraphs)
       ∧ ¬ apart (TextBox l t wd ht paragraphs) photo)
  ∧ on_page photo
  ∧ below_title photo
  ∧ (position = "smart" →
     photo = Picture image_path
               (if decide (slide_number `mod` 2 = 1)%nat
                then Inches (Qc_of_Z 6) else Inches (dec 5 10))
               (Inches (Qc_of_Z 2)) (Inches (Qc_of_Z 4))
               (Inches (Qc_of_Z 4))).
Proof.
  intros self photo. subst self photo.
  split; [|split; [|split; [|split]]].
  - intros Hd Hp. unfold _add_enhanced_content_to_slide.
    by rewrite !bool_decide_true.
  - intros Hsome. unfold _add_enhanced_content_to_slide.
    destruct (enhanced_frame_returns w h slide_data)
      as (paragraphs & -> & Hne & Hall).
    assert (bool_decide (detailed_content slide_data = "")
            && bool_decide (slide_content slide_data = []) = false) as ->.
    { destruct Hsome; [rewrite (bool_decide_false (_ = ""))
                      |rewrite (bool_decide_false (_ = []))];
        try done. apply andb_false_r. }
    cbn [mbind result_bind]. eexists _, _, _, _, _.
    split; [reflexivity|]. split; [done|]. split; [done|].
    split; [on_the_page|]. split; [is_below|].
    unfold _add_image_to_slide, apart. repeat case_decide;
      cbn [frame]; inches; lia.
  - unfold _add_image_to_slide. repeat case_decide; on_the_page.
  - unfold _add_image_to_slide. repeat case_decide; is_below.
  - intros ->. unfold _add_image_to_slide.
    rewrite (decide_True (P := "smart" = "smart")) by done.
    case_decide; repeat case_decide; try done.
Qed.

End placement.

(** ** File names and rate limiting *)

Section security.
Import Texts Security.









(** *** The sliding window *)

Lemma filter_filter_implied {A} (P Q : A → Prop)
    `{∀ x, Decision (P x)} `{∀ x, Decision (Q x)} (l : list A) :
  (∀ x, P x → Q x) → filter P (filter Q l) = filter P l.
Proof.
  intros HPQ. induction l as [|x l IH]; [done|].
  rewrite !(filter_cons _ x). destruct (decide (Q x)) as [HQ|HQ].
  - rewrite filter_cons. by rewrite IH.
  - rewrite IH. destruct (decide (P x)) as [HP|]; [|done].
    destruct HQ. by apply HPQ.
Qed.

Lemma still_within (window : Z) (t now T : Qc) :
  (now ≤ T)%Qc → (T - t < Qc_of_Z window)%Qc →
  (now - t < Qc_of_Z window)%Qc.
Proof.
  intros Hle Hlt. eapply Qcle_lt_trans; [|exact Hlt].
  unfold Qcminus. by apply Qcplus_le_compat; [|apply Qcle_refl].
Qed.

(** What the limiter has recorded for a client, seen from any time
    [T] not before the calls of [log]: the times of the calls in [log]
    that count against the client at [T]. *)
Lemma is_allowed_records self log client now self' verdict :
  (∀ c T, (∀ e, e ∈ log → (e.1.2 ≤ T)%Qc) →
          filter (λ t, T - t < Qc_of_Z (time_window self))%Qc
            (default [] (requests self !! c))
          = (λ e, e.1.2) <$> allowed_within (time_window self) c T log) →
  (∀ e, e ∈ log → (e.1.2 ≤ now)%Qc) →
  is_allowed self client now = (self', verdict) →
  max_requests self' = max_requests self
  ∧ time_window self' = time_window self
  ∧ verdict
    = bool_decide
        (Z.of_nat (length (allowed_within (time_window self) client now log))
         < max_requests self)
  ∧ ∀ c T, (∀ e, e ∈ log ++ [(client, now, verdict)] → (e.1.2 ≤ T)%Qc) →
           filter (λ t, T - t < Qc_of_Z (time_window self'))%Qc
             (default [] (requests self' !! c))
           = (λ e, e.1.2)
               <$> allowed_within (time_window self') c T
                     (log ++ [(client, now, verdict)]).
Proof.
  intros Hinv Hnow Hrun. unfold is_allowed in Hrun.
  pose proof (Hinv client now Hnow) as Hkept.
  assert (Hlen :
    length (filter (λ t, now - t < Qc_of_Z (time_window self))%Qc
              (default [] (requests self !! client)))
    = length (allowed_within (time_window self) client now log)).
  { by rewrite Hkept, length_fmap. }
  assert (Hstep : ∀ extra c T,
    (∀ e, e ∈ log ++ [(client, now, verdict)] → (e.1.2 ≤ T)%Qc) →
    extra = (if verdict then [now] else []) →
    filter (λ t, T - t < Qc_of_Z (time_window self))%Qc
      (default []
         (<[client :=
              filter (λ t, now - t < Qc_of_Z (time_window self))%Qc
                (default [] (requests self !! client)) ++ extra]>
            (requests self) !! c))
    = (λ e, e.1.2)
        <$> allowed_within (time_window self) c T
              (log ++ [(client, now, verdict)])).
  { intros extra c T HT ->.
    assert (HT' : ∀ e, e ∈ log → (e.1.2 ≤ T)%Qc).
    { intros e He. apply HT, elem_of_app. by left. }
    assert (HnowT : (now ≤ T)%Qc).
    { apply (HT (client, now, verdict)), elem_of_app. right.
      by apply list_elem_of_singleton. }
    unfold allowed_within. rewrite filter_app, fmap_app.
    destruct (decide (client = c)) as [->|Hc].
    - rewrite lookup_insert_eq. cbn [default from_option id].
      rewrite filter_app, filter_filter_implied.
      2: { intros t. by apply still_within. }
      rewrite (Hinv c T HT'). unfold allowed_within. f_equal.
      rewrite (filter_cons _ (c, now, verdict)), filter_nil. cbn [fst snd].
      destruct verdict.
      + rewrite (filter_cons _ now), filter_nil.
        destruct (decide (T - now < Qc_of_Z (time_window self))%Qc) as [Hw|Hw].
        * by rewrite decide_True.
        * rewrite decide_False; [done|]. by intros (_ & _ & ?).
      + rewrite filter_nil, decide_False; [done|]. by intros (_ & ? & _).
    - rewrite lookup_insert_ne by done. rewrite (Hinv c T HT').
      unfold allowed_within.
      rewrite (filter_cons _ (client, now, verdict)), filter_nil.
      cbn [fst snd]. rewrite decide_False; [|by intros (? & _)].
      by rewrite app_nil_r. }
  case_decide as Hmax; injection Hrun as <- <-;
    cbn [max_requests time_window requests].
  - split; [done|]. split; [done|]. split.
    + rewrite bool_decide_false; [done|]. lia.
    + intros c T HT. rewrite <- (Hstep [] c T HT eq_refl).
      by rewrite app_nil_r.
  - split; [done|]. split; [done|]. split.
    + rewrite bool_decide_true; [done|]. lia.
    + intros c T HT. by rewrite <- (Hstep [now] c T HT eq_refl).
Qed.

Lemma serve_verdicts calls :
  ∀ self log,
    (∀ c T, (∀ e, e ∈ log → (e.1.2 ≤ T)%Qc) →
            filter (λ t, T - t < Qc_of_Z (time_window self))%Qc
              (default [] (requests self !! c))
            = (λ e, e.1.2) <$> allowed_within (time_window self) c T log) →
    (∀ e call, e ∈ log → call ∈ calls → (e.1.2 ≤ call.2)%Qc) →
    clock_advances calls →
    length (serve self calls) = length calls
    ∧ ∀ i client now,
        calls !! i = Some (client, now) →
        serve self calls !! i
        = Some (bool_decide
                  (Z.of_nat
                     (length
                        (allowed_within (time_window self) client now
                           (log ++ take i (zip calls (serve self calls)))))
                   < max_requests self)).
Proof.
  induction calls as [|[c0 t0] calls IH]; intros self log Hinv Hlog Hclock.
  { split; [done|]. by intros i client now H. }
  cbn [serve]. destruct (is_allowed self c0 t0) as [self' verdict] eqn:Hrun.
  destruct (is_allowed_records self log c0 t0 self' verdict Hinv)
    as (Hmax & Hwin & Hverdict & Hinv'); [|done|].
  { intros e He. apply (Hlog e (c0, t0) He), list_elem_of_here. }
  destruct (IH self' (log ++ [(c0, t0, verdict)])) as [Hlen Hrest].
  - exact Hinv'.
  - intros e call He Hcall. apply elem_of_app in He as [He|He].
    + apply (Hlog e call He). by apply list_elem_of_further.
    + apply list_elem_of_singleton in He as ->. cbn [fst snd].
      apply list_elem_of_lookup in Hcall as [j Hj]. destruct call as [cj tj].
      by apply (Hclock 0%nat (S j) c0 t0 cj tj); [lia| |].
  - intros i j ci ti cj tj Hij Hi Hj.
    by apply (Hclock (S i) (S j) ci ti cj tj); [lia| |].
  - split; [cbn; by rewrite Hlen|].
    intros [|i] client now Hcall; cbn in Hcall.
    + injection Hcall as <- <-.
      change ((verdict :: serve self' calls) !! 0%nat) with (Some verdict).
      rewrite take_0, app_nil_r. by rewrite Hverdict.
    + change ((verdict :: serve self' calls) !! S i)
        with (serve self' calls !! i).
      rewrite (Hrest i client now Hcall), Hmax, Hwin.
      change (take (S i) (zip ((c0, t0) :: calls)
                            (verdict :: serve self' calls)))
        with ((c0, t0, verdict)
              :: take i (zip calls (serve self' calls))).
      by rewrite <- app_assoc.
Qed.

(** The rate limiter is a sliding window. On a fresh limiter and a
    clock that never goes back, every call gets a verdict, and a call is
    allowed exactly when fewer than [max_requests] earlier calls of the
    same client were allowed less than [time_window] seconds before it:
    calls of other clients and refused calls do not count. *)
Theorem rate_limiter_is_a_sliding_window (max window : Z)
    (calls : list (string * Qc)) :
  clock_advances calls →
  let verdicts := serve (init max window) calls in
  length verdicts = length calls
  ∧ ∀ i client now,
      calls !! i = Some (client, now) →
      verdicts !! i
      = Some (bool_decide
                (Z.of_nat
                   (length (allowed_within window client now
                              (take i (zip calls verdicts))))
                 < max)).
Proof.
  intros Hclock verdicts. subst verdicts.
  destruct (serve_verdicts calls (init max window) []) as [Hlen Hspec].
  - intros c T _. cbn [init requests]. by rewrite lookup_empty.
  - intros e call He. by apply elem_of_nil in He.
  - done.
  - split; [done|]. exact Hspec.
Qed.

Lemma rate_limiter_is_a_sliding_window_witness :
  let calls : list (string * Qc) :=
    [ ("ann", 0%Qc); ("ann", 1%Qc); ("ann", 2%Qc); ("bob", 2%Qc);
      ("ann", Qc_of_Z 11) ] in
  serve (init 2 10) calls = [true; true; false; true; true]
  ∧ length (serve (init 2 10) calls) = length calls
  ∧ serve (init 2 10) calls !! 4%nat
    = Some (bool_decide
              (Z.of_nat
                 (length (allowed_within 10 "ann" (Qc_of_Z 11)
                            (take 4 (zip calls (serve (init 2 10) calls)))))
               < 2)).
Proof.
  intros calls. split; [vm_compute; reflexivity|].
  destruct (rate_limiter_is_a_sliding_window 2 10 calls) as [Hlen Hspec].
  - intros i j ci ti cj tj Hij Hi Hj.
    destruct i as [|[|[|[|[|i]]]]], j as [|[|[|[|[|j]]]]];
      try lia; try done;
      cbn in Hi, Hj; injection Hi as <- <-; injection Hj as <- <-;
      by vm_compute.
  - split; [exact Hlen|]. by apply (Hspec 4%nat "ann" (Qc_of_Z 11)).
Defined.

End security.

(** ** The process flow *)

Section process_flow.
Import Placement Flow.





End process_flow.
